(** * Merlin: the streaming event decoder and the multipart upload coordinator

    A shallow embedding of [merlin/api/responses/streaming_events.py],
    [merlin/api/uploads.py] and [merlin/api/files.py], and the
    properties of the specification proved over it.

    - [Py]: the Python values the modules handle (decoded JSON, text,
      the builtins [str], [repr], [dict], [dict.get], truthiness).
    - [Streaming]: [EventTypes], [StreamEvent], [StreamEvent.from_dict],
      [parse_stream_event] and the two predicates.
    - [FilesHelpers]: [FilesMixin._flatten_expires_after], which
      [MerlinClient] (client.py) makes the helper of the upload
      coordinator too.
    - [Uploads]: [Upload], [UploadPart], [File], the helpers [_infer_size]
      and [_coerce_file], the four endpoints and [multipart_upload], run
      against an arbitrary transport and recorded as a trace of calls.
    - [Files]: [FileList], [FileDeleted] and the endpoints of files.py. *)

From Stdlib Require Import ZArith List String Ascii Bool Lia DecimalString.
From Stdlib Require Import Strings.Byte DecimalPos DecimalZ.
Import ListNotations.

Local Open Scope string_scope.
Local Open Scope Z_scope.

#[local] Set Warnings "-register-all".

(* ================================================================== *)
(** * Python values *)
(* ================================================================== *)

Module Py.

(** Exceptions raised by the modelled code. *)
Inductive exn : Type :=
| AttributeError (msg : string)
| KeyError (key : string)
| TypeError (msg : string)
| ValueError (msg : string)
| OverflowError (msg : string)
| OSError (msg : string)
| UnsupportedOperation (msg : string)
| RuntimeError (msg : string)
| TransportError (msg : string).

(** [except OSError] catches [OSError] and its subclasses;
    [io.UnsupportedOperation] is one (and a [ValueError] too). *)
Definition is_OSError (e : exn) : bool :=
  match e with
  | OSError _ | UnsupportedOperation _ => true
  | _ => false
  end.

(** The outcome of a call that has no effect besides raising. *)
Inductive result (A : Type) : Type :=
| Returns (a : A)
| Raises (e : exn).
Arguments Returns {A} a.
Arguments Raises {A} e.

Definition bindR {A B} (r : result A) (k : A -> result B) : result B :=
  match r with
  | Returns a => k a
  | Raises e => Raises e
  end.

Declare Scope result_scope.
Delimit Scope result_scope with result.
Notation "x <- c ;; k" := (bindR c (fun x => k))
  (at level 61, c at next level, right associativity) : result_scope.

(** ** Floats

    A float is kept as what [repr] shows of it: [nan], an infinity, or
    the sign, the shortest decimal digits [d ds] that read back as the
    same float and the position [decpt] of the decimal point (the value
    is 0.d ds * 10^decpt; zero is the digit 0 with [decpt = 1]). *)

Inductive digit : Type := d0 | d1 | d2 | d3 | d4 | d5 | d6 | d7 | d8 | d9.

Inductive pyfloat : Type :=
| FNan
| FInf (neg : bool)
| FFinite (neg : bool) (d : digit) (ds : list digit) (decpt : Z).

Definition digit_char (d : digit) : ascii :=
  match d with
  | d0 => "0" | d1 => "1" | d2 => "2" | d3 => "3" | d4 => "4"
  | d5 => "5" | d6 => "6" | d7 => "7" | d8 => "8" | d9 => "9"
  end%char.

Definition digits_str (l : list digit) : string :=
  fold_right (fun d s => String (digit_char d) s) EmptyString l.

Definition zeros (n : nat) : string := digits_str (repeat d0 n).

(** [str] of an integer: its decimal digits, with a minus sign below 0. *)
Definition int_str (z : Z) : string := NilZero.string_of_int (Z.to_int z).

(** The exponent of a float in exponent notation: a sign and at least
    two digits. *)
Definition exp_str (e : Z) : string :=
  (if e <? 0 then "-" else "+")
    ++ (if Z.abs e <? 10 then "0" else EmptyString)
    ++ int_str (Z.abs e).

(** [repr] of a float (which is also its [str]): exponent notation when
    the decimal point lies more than 16 places right or 4 or more places
    left of the first digit, positional notation with at least one digit
    on each side of the point otherwise. *)
Definition float_repr (f : pyfloat) : string :=
  match f with
  | FNan => "nan"
  | FInf neg => if neg then "-inf" else "inf"
  | FFinite neg d ds decpt =>
      let body :=
        if (decpt <=? -4) || (16 <? decpt) then
          String (digit_char d)
            (match ds with
             | [] => EmptyString
             | _ :: _ => "." ++ digits_str ds
             end ++ "e" ++ exp_str (decpt - 1))
        else if decpt <=? 0 then
          "0." ++ zeros (Z.to_nat (- decpt)) ++ digits_str (d :: ds)
        else
          match Z.to_nat decpt with
          | O => digits_str (d :: ds)
          | S n =>
              String (digit_char d)
                (if (List.length ds <=? n)%nat
                 then digits_str ds ++ zeros (n - List.length ds) ++ ".0"
                 else digits_str (firstn n ds) ++ "." ++ digits_str (skipn n ds))
          end
      in
      if neg then String "-" body else body
  end.

Definition float_is_zero (f : pyfloat) : bool :=
  match f with
  | FFinite _ d0 [] _ => true
  | _ => false
  end.

(** ** Decoded JSON

    What [json.loads] builds: [None], [bool], [int], [float], [str],
    [list] and [dict] with [str] keys.  A dict keeps its items in
    insertion order; a well-formed one has no key twice ([dict_wf]).
    Text is a string with one character per code point (below 256). *)

Inductive json : Type :=
| JNull
| JBool (b : bool)
| JInt (z : Z)
| JFloat (f : pyfloat)
| JStr (s : string)
| JList (l : list json)
| JDict (d : list (string * json)).

Definition dict : Type := list (string * json).

Definition keys (d : dict) : list string := map fst d.

Fixpoint dict_wf (d : dict) : bool :=
  match d with
  | [] => true
  | (k, _) :: r => negb (existsb (String.eqb k) (keys r)) && dict_wf r
  end.

(** [d[k]] when the key is there. *)
Fixpoint lookup (d : dict) (k : string) : option json :=
  match d with
  | [] => None
  | (k', v) :: r => if String.eqb k' k then Some v else lookup r k
  end.

(** [d.get(k, default)]. *)
Definition get_default (d : dict) (k : string) (default : json) : json :=
  match lookup d k with
  | Some v => v
  | None => default
  end.

(** [d.get(k)]: [None] when the key is not there. *)
Definition get (d : dict) (k : string) : json := get_default d k JNull.

(** [d[k] = v]: the value is replaced in place when the key is there,
    the item is added at the end otherwise. *)
Fixpoint setitem (d : dict) (k : string) (v : json) : dict :=
  match d with
  | [] => [(k, v)]
  | (k', v') :: r =>
      if String.eqb k' k then (k', v) :: r else (k', v') :: setitem r k v
  end.

(** [dict(m)]: a new dict filled with the items of [m], key by key. *)
Definition dict_of (m : dict) : dict :=
  fold_left (fun acc kv => setitem acc (fst kv) (snd kv)) m [].

(** ** [repr] and [str] *)

Definition hex_digit (n : N) : ascii :=
  match n with
  | 0%N => "0" | 1%N => "1" | 2%N => "2" | 3%N => "3"
  | 4%N => "4" | 5%N => "5" | 6%N => "6" | 7%N => "7"
  | 8%N => "8" | 9%N => "9" | 10%N => "a" | 11%N => "b"
  | 12%N => "c" | 13%N => "d" | 14%N => "e" | _ => "f"
  end%char.

Definition hex_escape (n : N) : string :=
  String "\" (String "x"
    (String (hex_digit (n / 16)) (String (hex_digit (n mod 16)) EmptyString))).

Definition squote : ascii := ascii_of_nat 39.
Definition dquote : ascii := ascii_of_nat 34.
Definition backslash : ascii := ascii_of_nat 92.

Fixpoint contains (c : ascii) (s : string) : bool :=
  match s with
  | EmptyString => false
  | String c' r => Ascii.eqb c' c || contains c r
  end.

(** One character of a [str] inside its [repr], [q] being the quote. *)
Definition repr_char (q c : ascii) : string :=
  let n := N_of_ascii c in
  if Ascii.eqb c q || Ascii.eqb c backslash then String backslash (String c EmptyString)
  else if (n =? 9)%N then "\t"
  else if (n =? 10)%N then "\n"
  else if (n =? 13)%N then "\r"
  else if (n <? 32)%N || (n =? 127)%N then hex_escape n
  else if (n <? 127)%N then String c EmptyString
  else if (n <=? 160)%N || (n =? 173)%N then hex_escape n
  else String c EmptyString.

Fixpoint repr_chars (q : ascii) (s : string) : string :=
  match s with
  | EmptyString => EmptyString
  | String c r => repr_char q c ++ repr_chars q r
  end.

(** [repr] of a [str]: single quotes, unless the text has a single quote
    and no double quote. *)
Definition str_repr (s : string) : string :=
  let q := if contains squote s && negb (contains dquote s) then dquote else squote in
  String q (repr_chars q s ++ String q EmptyString).

Definition join (sep : string) (l : list string) : string := String.concat sep l.

Fixpoint repr (v : json) : string :=
  match v with
  | JNull => "None"
  | JBool b => if b then "True" else "False"
  | JInt z => int_str z
  | JFloat f => float_repr f
  | JStr s => str_repr s
  | JList l => String "[" (join ", " (map repr l) ++ "]")
  | JDict d =>
      String "{"
        (join ", " (map (fun kv => str_repr (fst kv) ++ ": " ++ repr (snd kv)) d) ++ "}")
  end.

(** The text of a value: the text itself for a [str], [repr] for the
    rest.  It is what [str(v)] returns when it returns. *)
Definition str (v : json) : string :=
  match v with
  | JStr s => s
  | _ => repr v
  end.

(** CPython refuses to convert an int of more than 4300 digits to text
    ([sys.get_int_max_str_digits()], the default since 3.11): [str] and
    [repr] of such an int, alone or inside a list or a dict, raise
    [ValueError]. *)
Definition int_max_str_digits : Z := 4300.

Definition int_converts (z : Z) : bool := Z.abs z <? 10 ^ int_max_str_digits.

Fixpoint convertible (v : json) : bool :=
  match v with
  | JInt z => int_converts z
  | JList l => forallb convertible l
  | JDict d => forallb (fun kv => convertible (snd kv)) d
  | _ => true
  end.

(** [str(v)], the builtin. *)
Definition py_str (v : json) : result string :=
  if convertible v then Returns (str v)
  else Raises (ValueError "Exceeds the limit (4300 digits) for integer string conversion; use sys.set_int_max_str_digits() to increase the limit").

(** Truthiness, as [if v] and [not v] test it. *)
Definition truthy (v : json) : bool :=
  match v with
  | JNull => false
  | JBool b => b
  | JInt z => negb (z =? 0)
  | JFloat f => negb (float_is_zero f)
  | JStr s => negb (String.eqb s EmptyString)
  | JList l => match l with [] => false | _ :: _ => true end
  | JDict d => match d with [] => false | _ :: _ => true end
  end.

End Py.

(* ================================================================== *)
(** * streaming_events.py *)
(* ================================================================== *)

Module Streaming.
Import Py.

(** String constants for all documented streaming event types. *)
Module EventTypes.
Definition RESPONSE_CREATED := "response.created".
Definition RESPONSE_IN_PROGRESS := "response.in_progress".
Definition RESPONSE_COMPLETED := "response.completed".
Definition RESPONSE_FAILED := "response.failed".
Definition RESPONSE_INCOMPLETE := "response.incomplete".
Definition RESPONSE_QUEUED := "response.queued".
Definition OUTPUT_ITEM_ADDED := "response.output_item.added".
Definition OUTPUT_ITEM_DONE := "response.output_item.done".
Definition CONTENT_PART_ADDED := "response.content_part.added".
Definition CONTENT_PART_DONE := "response.content_part.done".
Definition OUTPUT_TEXT_DELTA := "response.output_text.delta".
Definition OUTPUT_TEXT_DONE := "response.output_text.done".
Definition OUTPUT_TEXT_ANNOTATION_ADDED := "response.output_text.annotation.added".
Definition REFUSAL_DELTA := "response.refusal.delta".
Definition REFUSAL_DONE := "response.refusal.done".
Definition FUNCTION_CALL_ARGS_DELTA := "response.function_call_arguments.delta".
Definition FUNCTION_CALL_ARGS_DONE := "response.function_call_arguments.done".
Definition FILE_SEARCH_IN_PROGRESS := "response.file_search_call.in_progress".
Definition FILE_SEARCH_SEARCHING := "response.file_search_call.searching".
Definition FILE_SEARCH_COMPLETED := "response.file_search_call.completed".
Definition WEB_SEARCH_IN_PROGRESS := "response.web_search_call.in_progress".
Definition WEB_SEARCH_SEARCHING := "response.web_search_call.searching".
Definition WEB_SEARCH_COMPLETED := "response.web_search_call.completed".
Definition REASONING_SUMMARY_PART_ADDED := "response.reasoning_summary_part.added".
Definition REASONING_SUMMARY_PART_DONE := "response.reasoning_summary_part.done".
Definition REASONING_SUMMARY_TEXT_DELTA := "response.reasoning_summary_text.delta".
Definition REASONING_SUMMARY_TEXT_DONE := "response.reasoning_summary_text.done".
Definition REASONING_TEXT_DELTA := "response.reasoning_text.delta".
Definition REASONING_TEXT_DONE := "response.reasoning_text.done".
Definition IMAGE_GEN_COMPLETED := "response.image_generation_call.completed".
Definition IMAGE_GEN_GENERATING := "response.image_generation_call.generating".
Definition IMAGE_GEN_IN_PROGRESS := "response.image_generation_call.in_progress".
Definition IMAGE_GEN_PARTIAL_IMAGE := "response.image_generation_call.partial_image".
Definition MCP_ARGS_DELTA := "response.mcp_call_arguments.delta".
Definition MCP_ARGS_DONE := "response.mcp_call_arguments.done".
Definition MCP_COMPLETED := "response.mcp_call.completed".
Definition MCP_FAILED := "response.mcp_call.failed".
Definition MCP_IN_PROGRESS := "response.mcp_call.in_progress".
Definition MCP_LIST_TOOLS_COMPLETED := "response.mcp_list_tools.completed".
Definition MCP_LIST_TOOLS_FAILED := "response.mcp_list_tools.failed".
Definition MCP_LIST_TOOLS_IN_PROGRESS := "response.mcp_list_tools.in_progress".
Definition CI_IN_PROGRESS := "response.code_interpreter_call.in_progress".
Definition CI_INTERPRETING := "response.code_interpreter_call.interpreting".
Definition CI_COMPLETED := "response.code_interpreter_call.completed".
Definition CI_CODE_DELTA := "response.code_interpreter_call_code.delta".
Definition CI_CODE_DONE := "response.code_interpreter_call_code.done".
Definition CUSTOM_TOOL_INPUT_DELTA := "response.custom_tool_call_input.delta".
Definition CUSTOM_TOOL_INPUT_DONE := "response.custom_tool_call_input.done".
Definition ERROR := "error".

(** Every constant of the class, in the order of the source. *)
Definition registered : list string :=
  [ RESPONSE_CREATED; RESPONSE_IN_PROGRESS; RESPONSE_COMPLETED; RESPONSE_FAILED;
    RESPONSE_INCOMPLETE; RESPONSE_QUEUED;
    OUTPUT_ITEM_ADDED; OUTPUT_ITEM_DONE; CONTENT_PART_ADDED; CONTENT_PART_DONE;
    OUTPUT_TEXT_DELTA; OUTPUT_TEXT_DONE; OUTPUT_TEXT_ANNOTATION_ADDED;
    REFUSAL_DELTA; REFUSAL_DONE;
    FUNCTION_CALL_ARGS_DELTA; FUNCTION_CALL_ARGS_DONE;
    FILE_SEARCH_IN_PROGRESS; FILE_SEARCH_SEARCHING; FILE_SEARCH_COMPLETED;
    WEB_SEARCH_IN_PROGRESS; WEB_SEARCH_SEARCHING; WEB_SEARCH_COMPLETED;
    REASONING_SUMMARY_PART_ADDED; REASONING_SUMMARY_PART_DONE;
    REASONING_SUMMARY_TEXT_DELTA; REASONING_SUMMARY_TEXT_DONE;
    REASONING_TEXT_DELTA; REASONING_TEXT_DONE;
    IMAGE_GEN_COMPLETED; IMAGE_GEN_GENERATING; IMAGE_GEN_IN_PROGRESS;
    IMAGE_GEN_PARTIAL_IMAGE;
    MCP_ARGS_DELTA; MCP_ARGS_DONE; MCP_COMPLETED; MCP_FAILED; MCP_IN_PROGRESS;
    MCP_LIST_TOOLS_COMPLETED; MCP_LIST_TOOLS_FAILED; MCP_LIST_TOOLS_IN_PROGRESS;
    CI_IN_PROGRESS; CI_INTERPRETING; CI_COMPLETED; CI_CODE_DELTA; CI_CODE_DONE;
    CUSTOM_TOOL_INPUT_DELTA; CUSTOM_TOOL_INPUT_DONE;
    ERROR ].
End EventTypes.

(** Generic representation of a single streaming event.  A field holds
    the Python value the decoder put there; [JNull] is [None]. *)
Record StreamEvent : Type := {
  type : string;
  sequence_number : json;
  response : json;
  item_id : json;
  output_index : json;
  content_index : json;
  summary_index : json;
  delta : json;
  text : json;
  refusal : json;
  arguments : json;
  code : json;
  partial_image_b64 : json;
  partial_image_index : json;
  annotation : json;
  annotation_index : json;
  logprobs : json;
  error_code : json;
  error_message : json;
  error_param : json;
  raw : dict
}.

(** [StreamEvent.from_dict(data)].  [data.get] is the first thing the
    body asks of [data]: there is no such attribute on a value that is
    not a mapping.  [str(...)] of the value under [type] is the one step
    of the body that can raise on a mapping. *)
Definition from_dict (data : json) : result StreamEvent :=
  (match data with
  | JDict data =>
      event_type <- py_str (get_default data "type" (JStr EmptyString)) ;;
      let seq := get data "sequence_number" in
      let sequence_number :=
        match seq with
        | JInt z => JInt z
        | JBool b => JInt (if b then 1 else 0)
        | _ => JNull
        end in
      let response := get data "response" in
      let item_id := get data "item_id" in
      let output_index := get data "output_index" in
      let content_index := get data "content_index" in
      let summary_index := get data "summary_index" in
      let delta := get data "delta" in
      let text := get data "text" in
      let refusal := get data "refusal" in
      let arguments := get data "arguments" in
      let code := get data "code" in
      let partial_image_b64 := get data "partial_image_b64" in
      let partial_image_index := get data "partial_image_index" in
      let annotation := get data "annotation" in
      let annotation_index := get data "annotation_index" in
      let logprobs := get data "logprobs" in
      let error_code :=
        if String.eqb event_type EventTypes.ERROR then get data "code" else JNull in
      let error_message :=
        if String.eqb event_type EventTypes.ERROR then get data "message" else JNull in
      let error_param :=
        if String.eqb event_type EventTypes.ERROR then get data "param" else JNull in
      Returns
        {| type := event_type;
           sequence_number := sequence_number;
           response := match response with JDict _ => response | _ => JNull end;
           item_id := item_id;
           output_index := output_index;
           content_index := content_index;
           summary_index := summary_index;
           delta := delta;
           text := text;
           refusal := refusal;
           arguments := arguments;
           code := code;
           partial_image_b64 := partial_image_b64;
           partial_image_index := partial_image_index;
           annotation := match annotation with JDict _ => annotation | _ => JNull end;
           annotation_index := annotation_index;
           logprobs := match logprobs with JList l => JList l | _ => JNull end;
           error_code := error_code;
           error_message := error_message;
           error_param := error_param;
           raw := dict_of data |}
  | _ => Raises (AttributeError "object has no attribute 'get'")
  end)%result.

(** True if this event is an error event. *)
Definition is_error (e : StreamEvent) : bool :=
  String.eqb (type e) EventTypes.ERROR.

Definition terminal_types : list string :=
  [ EventTypes.RESPONSE_COMPLETED; EventTypes.RESPONSE_FAILED;
    EventTypes.RESPONSE_INCOMPLETE; EventTypes.ERROR ].

(** True if this event represents a terminal state for the response
    lifecycle: completed / failed / incomplete / error. *)
Definition is_terminal (e : StreamEvent) : bool :=
  existsb (String.eqb (type e)) terminal_types.

Definition parse_stream_event (data : json) : result StreamEvent :=
  from_dict data.

(** The optional attributes, each with the key it is read from. *)
Definition optional_fields : list (string * (StreamEvent -> json)) :=
  [ ("sequence_number", sequence_number); ("response", response);
    ("item_id", item_id); ("output_index", output_index);
    ("content_index", content_index); ("summary_index", summary_index);
    ("delta", delta); ("text", text); ("refusal", refusal);
    ("arguments", arguments); ("code", code);
    ("partial_image_b64", partial_image_b64);
    ("partial_image_index", partial_image_index);
    ("annotation", annotation); ("annotation_index", annotation_index);
    ("logprobs", logprobs);
    ("code", error_code); ("message", error_message); ("param", error_param) ].

(** The events of the end-to-end scenarios B and C, and one that is not
    an error but has the keys an error has. *)
Module Scenarios.

Definition text_delta : dict :=
  [ ("type", JStr "response.output_text.delta"); ("delta", JStr "Hello");
    ("item_id", JStr "item_1"); ("sequence_number", JInt 4) ].

Definition rate_limited : dict :=
  [ ("type", JStr "error"); ("code", JStr "rate_limited");
    ("message", JStr "too many requests"); ("param", JNull) ].

Definition code_delta : dict :=
  [ ("type", JStr "response.code_interpreter_call_code.delta");
    ("code", JStr "print(1)"); ("message", JStr "m"); ("param", JStr "p") ].

(** A mapping whose [type] is an int of 4301 digits, [10 ** 4300], and
    one whose [type] is a status code. *)
Definition huge_type : dict := [ ("type", JInt (10 ^ 4300)); ("delta", JStr "x") ].

Definition numeric_type : dict := [ ("type", JInt 404); ("delta", JStr "x") ].

(** An event of type [t] with nothing else in it. *)
Definition bare (t : string) : StreamEvent :=
  {| type := t; sequence_number := JNull; response := JNull; item_id := JNull;
     output_index := JNull; content_index := JNull; summary_index := JNull;
     delta := JNull; text := JNull; refusal := JNull; arguments := JNull;
     code := JNull; partial_image_b64 := JNull; partial_image_index := JNull;
     annotation := JNull; annotation_index := JNull; logprobs := JNull;
     error_code := JNull; error_message := JNull; error_param := JNull;
     raw := [("type", JStr t)] |}.

End Scenarios.

End Streaming.

(* ================================================================== *)
(** * files.py: the helper the upload coordinator comes to use *)
(* ================================================================== *)

Module FilesHelpers.
Import Py.

(** The form field of a key of [expires_after]. *)
Definition field_of (k : string) : string := "expires_after[" ++ k ++ "]".

(** [FilesMixin._flatten_expires_after]: convert expires_after dict into
    multipart form fields. *)
Definition _flatten_expires_after (expires_after : option dict) : dict :=
  match expires_after with
  | Some (kv :: d) =>
      fold_left (fun flat kv => setitem flat (field_of (fst kv)) (JStr (str (snd kv))))
        (kv :: d) []
  | _ => []
  end.

End FilesHelpers.

(* ================================================================== *)
(** * uploads.py *)
(* ================================================================== *)

Module Uploads.
Import Py.

Definition bytes : Type := list byte.

(** ** Byte sources

    An object that is neither text nor bytes is described by what the
    helpers ask of it: its class (for messages), whether it has the
    attributes [fileno], [read], [seek] and a [str] under [name], what
    they do, and, for a stream, its content and the position of the
    next read. *)

(** What [file.fileno()] followed by [os.fstat] does. *)
Inductive fileno_outcome : Type :=
| FilenoInt (st_size : result Z)  (* an int; [os.fstat] gives the size, or raises *)
| FilenoNotInt                    (* a value that is not an int *)
| FilenoRaises (e : exn).         (* [fileno()] raises: [io.UnsupportedOperation] for
                                     [io.BytesIO], [ValueError] for a closed file *)

(** What [read] hands back: bytes (a binary stream) or [str] (a text one). *)
Inductive read_mode : Type := ReadBytes | ReadText.

(** What one call of [read] does: it raises, or it hands out data, at
    most [n] items of it when more was asked for (a raw stream, a pipe
    or a socket hands out what has arrived; a buffered stream waits for
    all that was asked). *)
Inductive delivery : Type :=
| Gives (n : nat)
| Fails (e : exn).

(** What [seek(0)] does. *)
Inductive seek_outcome : Type :=
| SeekOk
| SeekRaises (e : exn).

(** [h_deliver h p size] is what [read(size)] does at position [p]
    ([None] for [read()]).  [h_data] is what the stream hands out up to
    its end: bytes for a binary stream, the characters of its text,
    one per byte, for a text stream. *)
Record handle : Type := {
  h_class : string;
  h_fileno : option fileno_outcome;
  h_read : option read_mode;
  h_deliver : nat -> option Z -> delivery;
  h_seek : option seek_outcome;
  h_name : option string;
  h_data : bytes;
  h_pos : nat
}.

(** Whether [seek(0)] goes through. *)
Definition h_seekable (h : handle) : bool :=
  match h_seek h with
  | Some SeekOk => true
  | _ => false
  end.

Definition set_pos (h : handle) (p : nat) : handle :=
  {| h_class := h_class h; h_fileno := h_fileno h; h_read := h_read h;
     h_deliver := h_deliver h; h_seek := h_seek h; h_name := h_name h;
     h_data := h_data h; h_pos := p |}.

(** [FileLike = Union[IO[bytes], bytes, Path, str]], and whatever else a
    caller passes.  [FStr] is a [str] or a [Path] by its text, [FBytes]
    is [bytes] or a [bytearray]. *)
Inductive FileLike : Type :=
| FStr (s : string)
| FBytes (b : bytes)
| FObject (h : handle).

(** [repr(type(file))] inside the messages. *)
Definition type_repr (file : FileLike) : string :=
  "<class '" ++
  match file with
  | FStr _ => "str"
  | FBytes _ => "bytes"
  | FObject h => h_class h
  end ++ "'>".

(** The bytes a stream has not handed out yet. *)
Definition remaining (h : handle) : bytes := skipn (h_pos h) (h_data h).

Definition chunk_of (m : read_mode) (b : bytes) : FileLike :=
  match m with
  | ReadBytes => FBytes b
  | ReadText => FStr (string_of_list_byte b)
  end.

(** What a read of [size] takes of the bytes that remain: [size] of
    them, all of them when there are fewer or when [size] is negative. *)
Definition take (size : Z) (rest : bytes) : bytes :=
  if size <? 0 then rest else firstn (Z.to_nat size) rest.

(** How much a read of [size] is good for when the stream hands out at
    most [n]: everything up to the end for a negative [size]
    ([read(-1)] reads to the end on raw and buffered streams alike),
    nothing for 0, and else at least one item and at most [size]: a
    read that has data left to hand out returns empty at the end of the
    stream only. *)
Definition granted (n : nat) (size : Z) : Z :=
  if size <? 0 then size else Z.min size (Z.max 1 (Z.of_nat n)).

(** [h.read(size)], and [h.read()] for [None], which takes all that
    remains. *)
Definition read (h : handle) (size : option Z) : result (FileLike * handle) :=
  match h_read h with
  | None => Raises (AttributeError "object has no attribute 'read'")
  | Some m =>
      match h_deliver h (h_pos h) size with
      | Fails e => Raises e
      | Gives n =>
          let rest := remaining h in
          let taken :=
            match size with
            | Some s => take (granted n s) rest
            | None => rest
            end in
          Returns (chunk_of m taken, set_pos h (h_pos h + List.length taken)%nat)
      end
  end.

(** [read] of [io.BytesIO], and of [io.StringIO] and text files in
    characters: all that was asked, and all that is left for a negative
    size. *)
Definition whole_reads : nat -> option Z -> delivery :=
  fun _ size =>
    Gives (match size with Some s => Z.to_nat s | None => 0 end).

(** [io.BufferedReader.read]: all that was asked; sizes below -1 are
    refused. *)
Definition reads_of_BufferedReader : nat -> option Z -> delivery :=
  fun _ size =>
    match size with
    | Some s =>
        if s <? -1 then Fails (ValueError "read length must be non-negative or -1")
        else Gives (Z.to_nat s)
    | None => Gives 0
    end.

(** [h.seek(0)]: an object without [seek] has no such attribute, and a
    stream that cannot seek raises. *)
Definition seek0 (h : handle) : result handle :=
  match h_seek h with
  | Some SeekOk => Returns (set_pos h 0%nat)
  | Some (SeekRaises e) => Raises e
  | None => Raises (AttributeError "object has no attribute 'seek'")
  end.

(** [len(x)] of a chunk. *)
Definition len (x : FileLike) : Z :=
  match x with
  | FStr s => Z.of_nat (String.length s)
  | FBytes b => Z.of_nat (List.length b)
  | FObject _ => 0
  end.

(** [not chunk]. *)
Definition is_empty (x : FileLike) : bool :=
  match x with
  | FStr s => String.eqb s EmptyString
  | FBytes b => match b with [] => true | _ :: _ => false end
  | FObject _ => false
  end.

(** ** The transport and the rest of the environment *)

Inductive payload : Type :=
| NoBody
| JsonBody (j : json)
| FormData (fields : list (string * handle)).

Record request : Type := { rq_path : string; rq_body : payload }.

(** The class of [self].  [MerlinClient] (client.py) lists [FilesMixin]
    before [UploadsMixin], so a helper both define, looked up on
    [self], is the one of [FilesMixin]; a class built on [UploadsMixin]
    without [FilesMixin] before it gets the one of [UploadsMixin]. *)
Inductive client_class : Type := MerlinClient | UploadsMixinAlone.

(** What the code does not own: the class of [self], the files on disk
    by path, the reply of the transport to a request given the requests
    made before it (parsed JSON, or the exception [post] raises), and
    the builtin [int] on text and on a float. *)
Record env : Type := {
  self_class : client_class;
  fs : string -> option bytes;
  post_reply : list request -> request -> result json;
  int_of_str : string -> result Z;
  int_of_float : pyfloat -> result Z
}.

(** [int(v)]. *)
Definition py_int (E : env) (v : json) : result Z :=
  match v with
  | JInt z => Returns z
  | JBool b => Returns (if b then 1 else 0)
  | JFloat f => int_of_float E f
  | JStr s => int_of_str E s
  | _ => Raises (TypeError "int() argument must be a string, a bytes-like object or a real number")
  end.

(** [d[k]]. *)
Definition subscript (d : json) (k : string) : result json :=
  match d with
  | JDict d =>
      match lookup d k with
      | Some v => Returns v
      | None => Raises (KeyError k)
      end
  | _ => Raises (TypeError "object is not subscriptable by a str")
  end.

(** [d.get(k, default)]. *)
Definition attr_get (d : json) (k : string) (default : json) : result json :=
  match d with
  | JDict d => Returns (get_default d k default)
  | _ => Raises (AttributeError "object has no attribute 'get'")
  end.

(** [dict(d)]. *)
Definition to_dict (d : json) : result dict :=
  match d with
  | JDict d => Returns (dict_of d)
  | _ => Raises (TypeError "object is not a mapping")
  end.

Local Open Scope result_scope.

(** [merlin.api.files.File]. *)
Module File.
Record t : Type := {
  id : json;
  object : json;
  bytes : Z;
  created_at : Z;
  expires_at : json;
  filename : json;
  purpose : json;
  status : json;
  status_details : json;
  raw : dict
}.

Definition from_dict (E : env) (d : json) : result t :=
  id <- subscript d "id" ;;
  object <- attr_get d "object" (JStr "file") ;;
  b <- subscript d "bytes" ;;
  bytes <- py_int E b ;;
  c <- subscript d "created_at" ;;
  created_at <- py_int E c ;;
  expires_at <- attr_get d "expires_at" JNull ;;
  filename <- subscript d "filename" ;;
  purpose <- subscript d "purpose" ;;
  status <- attr_get d "status" JNull ;;
  status_details <- attr_get d "status_details" JNull ;;
  raw <- to_dict d ;;
  Returns {| id := id; object := object; bytes := bytes; created_at := created_at;
             expires_at := expires_at; filename := filename; purpose := purpose;
             status := status; status_details := status_details; raw := raw |}.
End File.

(** Upload object that can accept byte chunks in the form of Parts. *)
Module Upload.
Record t : Type := {
  id : json;
  object : json;
  bytes : Z;
  created_at : Z;
  filename : json;
  purpose : json;
  status : json;
  expires_at : Z;
  file : option File.t;
  raw : dict
}.

Definition from_dict (E : env) (d : json) : result t :=
  file_obj <- attr_get d "file" JNull ;;
  id <- subscript d "id" ;;
  object <- attr_get d "object" (JStr "upload") ;;
  b <- subscript d "bytes" ;;
  bytes <- py_int E b ;;
  c <- subscript d "created_at" ;;
  created_at <- py_int E c ;;
  filename <- subscript d "filename" ;;
  purpose <- subscript d "purpose" ;;
  status <- subscript d "status" ;;
  x <- subscript d "expires_at" ;;
  expires_at <- py_int E x ;;
  file <- (if truthy file_obj
           then f <- File.from_dict E file_obj ;; Returns (Some f)
           else Returns None) ;;
  raw <- to_dict d ;;
  Returns {| id := id; object := object; bytes := bytes; created_at := created_at;
             filename := filename; purpose := purpose; status := status;
             expires_at := expires_at; file := file; raw := raw |}.
End Upload.

(** Represents a single chunk (Part) added to an Upload. *)
Module UploadPart.
Record t : Type := {
  id : json;
  object : json;
  created_at : Z;
  upload_id : json;
  raw : dict
}.

Definition from_dict (E : env) (d : json) : result t :=
  id <- subscript d "id" ;;
  object <- attr_get d "object" (JStr "upload.part") ;;
  c <- subscript d "created_at" ;;
  created_at <- py_int E c ;;
  upload_id <- subscript d "upload_id" ;;
  raw <- to_dict d ;;
  Returns {| id := id; object := object; created_at := created_at;
             upload_id := upload_id; raw := raw |}.
End UploadPart.

(** ** Calls, requests and the monad of the client

    A run is recorded as a trace, oldest event first: every request
    handed to the transport, and every call and normal return of the
    three endpoints that [multipart_upload] drives. *)

Inductive event : Type :=
| Post (rq : request)
| CallCreateUpload (bytes : Z) (filename mime_type purpose : string)
    (expires_after : option dict)
| RetCreateUpload (u : Upload.t)
| CallAddUploadPart (upload_id : json) (data : FileLike)
| RetAddUploadPart (p : UploadPart.t)
| CallCompleteUpload (upload_id : json) (part_ids : list json) (md5 : option string)
| RetCompleteUpload (u : Upload.t).

Definition trace : Type := list event.

Fixpoint requests (tr : trace) : list request :=
  match tr with
  | [] => []
  | Post rq :: r => rq :: requests r
  | _ :: r => requests r
  end.

(** A computation of the client: from the trace so far to how it ends
    (a value or an exception) and the trace then; [None] when the model
    ran out of fuel before the computation ended. *)
Definition M (A : Type) : Type := trace -> option (result A * trace).

Definition ret {A} (a : A) : M A := fun tr => Some (Returns a, tr).

Definition raise {A} (e : exn) : M A := fun tr => Some (Raises e, tr).

Definition lift {A} (r : result A) : M A := fun tr => Some (r, tr).

Definition bind {A B} (m : M A) (k : A -> M B) : M B :=
  fun tr =>
    match m tr with
    | Some (Returns a, tr') => k a tr'
    | Some (Raises e, tr') => Some (Raises e, tr')
    | None => None
    end.

Definition emit (ev : event) : M unit := fun tr => Some (Returns tt, (tr ++ [ev])%list).

Declare Scope client_scope.
Delimit Scope client_scope with client.
Notation "x <- c ;; k" := (bind c (fun x => k))
  (at level 61, c at next level, right associativity) : client_scope.
Notation "c ;;; k" := (bind c (fun _ => k))
  (at level 61, right associativity) : client_scope.

Local Open Scope client_scope.

(** [self._http.post(path, ...)]: the request is recorded and the
    transport replies.  The endpoints pass [json=...], and
    [add_upload_part] passes [data=...], which the interface
    [MerlinHTTPClient.post] does not declare: what a transport does
    with it is part of its reply. *)
Definition post (E : env) (path : string) (body : payload) : M json :=
  fun tr =>
    let rq := {| rq_path := path; rq_body := body |} in
    Some (post_reply E (requests tr) rq, (tr ++ [Post rq])%list).

(** [MerlinHTTPClient.post(path, *, json=None, params=None)], and the
    same in [HttpxMerlinHTTPClient] (http_client.py): no [data] is
    declared, so the call of [add_upload_part] raises [TypeError]
    before anything is sent.  [send] is what the client does with the
    calls it accepts. *)
Definition declared_post (send : list request -> request -> result json)
    : list request -> request -> result json :=
  fun history rq =>
    match rq_body rq with
    | FormData _ => Raises (TypeError "post() got an unexpected keyword argument 'data'")
    | _ => send history rq
    end.

(** ** Helpers *)

(** A path with a NUL character is refused before the file system is
    asked: [ValueError: embedded null byte]. *)
Definition embedded_null (path : string) : bool := contains (ascii_of_nat 0) path.

(** The buffered reader [open(path, "rb")] returns for a file with
    this content. *)
Definition BufferedReader (path : string) (content : bytes) : handle :=
  {| h_class := "_io.BufferedReader";
     h_fileno := Some (FilenoInt (Returns (Z.of_nat (List.length content))));
     h_read := Some ReadBytes;
     h_deliver := reads_of_BufferedReader;
     h_seek := Some SeekOk;
     h_name := Some path;
     h_data := content;
     h_pos := 0%nat |}.

(** [open(path, "rb")]. *)
Definition open_rb (E : env) (path : string) : result handle :=
  if embedded_null path then Raises (ValueError "embedded null byte")
  else
    match fs E path with
    | Some content => Returns (BufferedReader path content)
    | None => Raises (OSError "No such file or directory")
    end.

(** [io.BytesIO(b)]. *)
Definition BytesIO (b : bytes) : handle :=
  {| h_class := "_io.BytesIO";
     h_fileno := Some (FilenoRaises (UnsupportedOperation "fileno"));
     h_read := Some ReadBytes;
     h_deliver := whole_reads;
     h_seek := Some SeekOk;
     h_name := None;
     h_data := b;
     h_pos := 0%nat |}.

(** Normalize file input to a binary file-like object. *)
Definition _coerce_file (E : env) (file : FileLike) : result handle :=
  match file with
  | FObject h =>
      match h_read h with
      | Some _ => Returns h
      | None => Raises (TypeError ("Unsupported file type for upload: " ++ type_repr file))
      end
  | FStr p => open_rb E p
  | FBytes b => Returns (BytesIO b)
  end.

(** [os.path.getsize(path)]. *)
Definition getsize (E : env) (path : string) : result Z :=
  if embedded_null path then Raises (ValueError "embedded null byte")
  else
    match fs E path with
    | Some content => Returns (Z.of_nat (List.length content))
    | None => Raises (OSError "No such file or directory")
    end.

(** The last resort of [_infer_size]: read into memory to determine
    the size. *)
Definition measure_by_reading (file : FileLike) (h : handle) : result (Z * FileLike) :=
  match h_read h with
  | Some _ =>
      (r <- read h None ;;
       let '(data, h1) := r in
       match data with
       | FBytes b =>
           h2 <- seek0 h1 ;;
           Returns (Z.of_nat (List.length b), FObject h2)
       | _ => Raises (TypeError "File-like object did not return bytes.")
       end)%result
  | None => Raises (TypeError ("Unable to infer size for: " ++ type_repr file))
  end.

(** Try to infer the total byte size for a FileLike.  The object comes
    back with it, in the state the call leaves it in.  Of what
    [fileno()] and [os.fstat] raise, [except OSError] catches the
    [OSError]s only. *)
Definition _infer_size (E : env) (file : FileLike) : result (Z * FileLike) :=
  match file with
  | FStr p => (n <- getsize E p ;; Returns (n, file))%result
  | FBytes b => Returns (Z.of_nat (List.length b), file)
  | FObject h =>
      match h_fileno h with
      | Some (FilenoInt (Returns st_size)) => Returns (st_size, file)
      | Some (FilenoInt (Raises e)) | Some (FilenoRaises e) =>
          if is_OSError e then measure_by_reading file h else Raises e
      | Some FilenoNotInt | None => measure_by_reading file h
      end
  end.

(** [UploadsMixin._flatten_expires_after]. *)
Definition _flatten_expires_after (expires_after : option dict) : dict :=
  match expires_after with
  | Some (kv :: d) => kv :: d
  | _ => []
  end.

(** [self._flatten_expires_after]. *)
Definition self_flatten_expires_after (E : env) : option dict -> dict :=
  match self_class E with
  | MerlinClient => FilesHelpers._flatten_expires_after
  | UploadsMixinAlone => _flatten_expires_after
  end.

(** ** Core endpoints *)

Definition create_upload (E : env) (bytes : Z) (filename mime_type purpose : string)
    (expires_after : option dict) : M Upload.t :=
  emit (CallCreateUpload bytes filename mime_type purpose expires_after) ;;;
  let body : dict :=
    [ ("purpose", JStr purpose); ("filename", JStr filename);
      ("bytes", JInt bytes); ("mime_type", JStr mime_type) ] in
  let body :=
    match expires_after with
    | Some (_ :: _) =>
        setitem body "expires_after" (JDict (self_flatten_expires_after E expires_after))
    | _ => body
    end in
  resp <- post E "/v1/uploads" (JsonBody (JDict body)) ;;
  u <- lift (Upload.from_dict E resp) ;;
  emit (RetCreateUpload u) ;;;
  ret u.

Definition add_upload_part (E : env) (upload_id : json) (data : FileLike)
    : M UploadPart.t :=
  emit (CallAddUploadPart upload_id data) ;;;
  fobj <- lift (_coerce_file E data) ;;
  resp <- post E ("/v1/uploads/" ++ str upload_id ++ "/parts")
               (FormData [("data", fobj)]) ;;
  p <- lift (UploadPart.from_dict E resp) ;;
  emit (RetAddUploadPart p) ;;;
  ret p.

Definition complete_upload (E : env) (upload_id : json) (part_ids : list json)
    (md5 : option string) : M Upload.t :=
  emit (CallCompleteUpload upload_id part_ids md5) ;;;
  let body : dict := [ ("part_ids", JList part_ids) ] in
  let body :=
    match md5 with
    | Some m => setitem body "md5" (JStr m)
    | None => body
    end in
  resp <- post E ("/v1/uploads/" ++ str upload_id ++ "/complete") (JsonBody (JDict body)) ;;
  u <- lift (Upload.from_dict E resp) ;;
  emit (RetCompleteUpload u) ;;;
  ret u.

Definition cancel_upload (E : env) (upload_id : json) : M Upload.t :=
  resp <- post E ("/v1/uploads/" ++ str upload_id ++ "/cancel") NoBody ;;
  lift (Upload.from_dict E resp).

(** ** Convenience: full multi-part upload in one call *)

(** The loop of step 2, [while True: chunk = fobj.read(part_size); ...],
    with at most [fuel] reads. *)
Fixpoint add_parts (E : env) (fuel : nat) (upload_id : json) (part_size : Z)
    (fobj : handle) (part_ids : list json) : M (list json) :=
  match fuel with
  | O => fun _ => None
  | S fuel =>
      r <- lift (read fobj (Some part_size)) ;;
      let '(chunk, fobj) := r in
      if is_empty chunk then ret part_ids
      else
        part <- add_upload_part E upload_id chunk ;;
        add_parts E fuel upload_id part_size fobj (part_ids ++ [UploadPart.id part])%list
  end.

(** Reads enough for any stream: every read but the last takes at least
    one of the remaining bytes. *)
Definition enough_fuel (fobj : handle) : nat := S (List.length (remaining fobj)).

Definition multipart_upload (E : env) (file : FileLike) (purpose mime_type : string)
    (filename : option string) (part_size : Z) (expires_after : option dict)
    (md5 : option string) : M File.t :=
  (* Infer filename & size *)
  sf <- lift (_infer_size E file) ;;
  let '(size, file) := sf in
  fobj <- lift (_coerce_file E file) ;;
  let filename :=
    match filename with
    | Some name => name
    | None =>
        match h_name fobj with
        | Some name => name
        | None => "upload.bin"
        end
    end in
  (* 1. Create the Upload *)
  upload <- create_upload E size filename mime_type purpose expires_after ;;
  (* 2. Add parts *)
  part_ids <- add_parts E (enough_fuel fobj) (Upload.id upload) part_size fobj [] ;;
  (* 3. Complete the upload *)
  final_upload <- complete_upload E (Upload.id upload) part_ids md5 ;;
  (* 4. Return the created File *)
  match Upload.file final_upload with
  | None =>
      raise (RuntimeError ("Upload " ++ str (Upload.id final_upload)
                             ++ " completed but no file was returned."))
  | Some f => ret f
  end.

(** The default [part_size]: 64 MB. *)
Definition default_part_size : Z := 64 * 1024 * 1024.

(** ** Reading a trace *)

(** The calls of the endpoints, without requests and returns. *)
Fixpoint calls (tr : trace) : list event :=
  match tr with
  | [] => []
  | CallCreateUpload b f m p x :: r => CallCreateUpload b f m p x :: calls r
  | CallAddUploadPart u d :: r => CallAddUploadPart u d :: calls r
  | CallCompleteUpload u i m :: r => CallCompleteUpload u i m :: calls r
  | _ :: r => calls r
  end.

(** The chunks passed to [add_upload_part], in call order. *)
Fixpoint part_chunks (tr : trace) : list FileLike :=
  match tr with
  | [] => []
  | CallAddUploadPart _ d :: r => d :: part_chunks r
  | _ :: r => part_chunks r
  end.

(** The parts [add_upload_part] returned, in order. *)
Fixpoint parts_returned (tr : trace) : list UploadPart.t :=
  match tr with
  | [] => []
  | RetAddUploadPart p :: r => p :: parts_returned r
  | _ :: r => parts_returned r
  end.

(** The uploads [complete_upload] returned. *)
Fixpoint completions (tr : trace) : list Upload.t :=
  match tr with
  | [] => []
  | RetCompleteUpload u :: r => u :: completions r
  | _ :: r => completions r
  end.

(** The sizes passed to [create_upload]. *)
Fixpoint declared_sizes (tr : trace) : list Z :=
  match tr with
  | [] => []
  | CallCreateUpload b _ _ _ _ :: r => b :: declared_sizes r
  | _ :: r => declared_sizes r
  end.

(** What a piece of a trace shows: its calls, the parts returned and
    the uploads completed. *)
Definition footprint (evs : trace) (cs : list event) (ps : list UploadPart.t)
    (us : list Upload.t) : Prop :=
  calls evs = cs /\ parts_returned evs = ps /\ completions evs = us.

(** The first two steps of [multipart_upload] on their own: the size
    and the stream it goes on with. *)
Definition prepare (E : env) (file : FileLike) : result (Z * handle) :=
  (sf <- _infer_size E file ;;
   let '(size, file) := sf in
   fobj <- _coerce_file E file ;;
   Returns (size, fobj))%result.

(** The name it gives the upload. *)
Definition upload_name (filename : option string) (fobj : handle) : string :=
  match filename with
  | Some name => name
  | None =>
      match h_name fobj with
      | Some name => name
      | None => "upload.bin"
      end
  end.

(** The error of step 4. *)
Definition no_file_error (u : Upload.t) : exn :=
  RuntimeError ("Upload " ++ str (Upload.id u) ++ " completed but no file was returned.").

(** The bytes of a source cut in pieces the way successive reads of
    [size] cut them. *)
Fixpoint chunks_upto (fuel : nat) (size : Z) (rest : bytes) : list bytes :=
  match fuel with
  | O => []
  | S fuel =>
      match take size rest with
      | [] => []
      | b :: c => (b :: c) :: chunks_upto fuel size (skipn (List.length (b :: c)) rest)
      end
  end.

Definition chunks (size : Z) (rest : bytes) : list bytes :=
  chunks_upto (List.length rest) size rest.

(** The chunks successive reads of [size] hand out of a stream, up to
    the first read that is empty or raises; at most [fuel] reads. *)
Fixpoint reads_upto (fuel : nat) (size : Z) (h : handle) : list bytes :=
  match fuel with
  | O => []
  | S fuel =>
      match h_deliver h (h_pos h) (Some size) with
      | Fails _ => []
      | Gives n =>
          match take (granted n size) (remaining h) with
          | [] => []
          | b :: c =>
              (b :: c) :: reads_upto fuel size (set_pos h (h_pos h + List.length (b :: c))%nat)
          end
      end
  end.

Definition reads (size : Z) (h : handle) : list bytes := reads_upto (enough_fuel h) size h.

(** How these reads end: at an empty read, [None], or at a read that
    raises, with what it raises. *)
Fixpoint reads_end_upto (fuel : nat) (size : Z) (h : handle) : option exn :=
  match fuel with
  | O => None
  | S fuel =>
      match h_deliver h (h_pos h) (Some size) with
      | Fails e => Some e
      | Gives n =>
          match take (granted n size) (remaining h) with
          | [] => None
          | b :: c =>
              reads_end_upto fuel size (set_pos h (h_pos h + List.length (b :: c))%nat)
          end
      end
  end.

Definition reads_end (size : Z) (h : handle) : option exn :=
  reads_end_upto (enough_fuel h) size h.

(** A byte source the documented types describe, with all its bytes
    still to be read: a path to a file holding [data], [data] in
    memory, or a binary stream over [data] at its start. *)
Definition fresh_source (E : env) (file : FileLike) (data : bytes) : Prop :=
  match file with
  | FStr p => embedded_null p = false /\ fs E p = Some data
  | FBytes b => b = data
  | FObject h => h_read h = Some ReadBytes /\ h_data h = data /\ h_pos h = 0%nat
  end.

(** A stream whose reads come in full: [read(n)] hands out [n] items
    unless fewer are left, as a buffered stream does. *)
Definition in_full (h : handle) : Prop :=
  forall p s, 0 <= s -> exists n, h_deliver h p (Some s) = Gives n /\ s <= Z.of_nat n.

(** A source whose size [_infer_size] gets and which [_coerce_file]
    turns into a stream. *)
Definition measurable (E : env) (file : FileLike) : Prop :=
  exists size fobj, prepare E file = Returns (size, fobj).

(** A source that is read in full: bytes and paths, which the code
    itself opens as [io.BytesIO] and as a buffered reader, and the
    streams that read in full. *)
Definition reads_in_full (file : FileLike) : Prop :=
  match file with
  | FStr _ | FBytes _ => True
  | FObject h => in_full h
  end.


(** ** A transport for the examples

    It accepts every request: a create yields a pending upload, a part
    yields a part numbered by the requests before it, a complete yields
    the upload with its file, whose size is the bytes of the parts. *)
Module Demo.

Fixpoint bytes_sent (history : list request) : Z :=
  match history with
  | [] => 0
  | rq :: r =>
      match rq_body rq with
      | FormData [(_, h)] => Z.of_nat (List.length (h_data h))
      | _ => 0
      end + bytes_sent r
  end.

Definition upload_json (status : string) (file : json) : json :=
  JDict [ ("id", JStr "upload_abc"); ("object", JStr "upload"); ("bytes", JInt 0);
          ("created_at", JInt 1719184911); ("filename", JStr "data.bin");
          ("purpose", JStr "fine-tune"); ("status", JStr status);
          ("expires_at", JInt 1719188511); ("file", file) ].

Definition reply (history : list request) (rq : request) : result json :=
  match rq_body rq with
  | FormData _ =>
      Returns (JDict [ ("id", JStr ("part_" ++ int_str (Z.of_nat (List.length history))));
                       ("object", JStr "upload.part");
                       ("created_at", JInt 1719185911);
                       ("upload_id", JStr "upload_abc") ])
  | JsonBody (JDict body) =>
      match lookup body "part_ids" with
      | Some _ =>
          Returns (upload_json "completed"
                     (JDict [ ("id", JStr "file-xyz"); ("object", JStr "file");
                              ("bytes", JInt (bytes_sent history));
                              ("created_at", JInt 1719186911);
                              ("filename", JStr "data.bin");
                              ("purpose", JStr "fine-tune") ]))
      | None => Returns (upload_json "pending" JNull)
      end
  | _ => Raises (TransportError "400 Bad Request")
  end.

Definition no_int {A : Type} (_ : A) : result Z :=
  Raises (ValueError "invalid literal for int()").

Definition E : env :=
  {| self_class := MerlinClient;
     fs := fun _ => None;
     post_reply := reply;
     int_of_str := no_int;
     int_of_float := no_int |}.

Definition blob (n : nat) : bytes := repeat x00 n.

(** A transport that completes an upload without its file. *)
Definition reply_no_file (history : list request) (rq : request) : result json :=
  match rq_body rq with
  | JsonBody (JDict body) =>
      match lookup body "part_ids" with
      | Some _ => Returns (upload_json "completed" JNull)
      | None => reply history rq
      end
  | _ => reply history rq
  end.

Definition E_no_file : env :=
  {| self_class := MerlinClient;
     fs := fun _ => None;
     post_reply := reply_no_file;
     int_of_str := no_int;
     int_of_float := no_int |}.

(** [io.BytesIO] over six bytes, two of them read already. *)
Definition consumed : handle := set_pos (BytesIO (blob 6)) 2.

(** An [int] passed as the file. *)
Definition an_int : handle :=
  {| h_class := "int"; h_fileno := None; h_read := None;
     h_deliver := fun _ _ => Fails (AttributeError "'int' object has no attribute 'read'");
     h_seek := None; h_name := None; h_data := []; h_pos := 0%nat |}.

(** A socket: a file descriptor and no [read]. *)
Definition a_socket : handle :=
  {| h_class := "socket.socket"; h_fileno := Some (FilenoInt (Returns 0)); h_read := None;
     h_deliver := fun _ _ => Fails (AttributeError "'socket' object has no attribute 'read'");
     h_seek := None; h_name := None; h_data := []; h_pos := 0%nat |}.

(** The standard input of a process fed by a pipe: [os.fstat] reports
    the size 0 for it, whatever comes through. *)
Definition a_pipe : handle :=
  {| h_class := "_io.BufferedReader"; h_fileno := Some (FilenoInt (Returns 0));
     h_read := Some ReadBytes; h_deliver := reads_of_BufferedReader;
     h_seek := Some (SeekRaises (OSError "Illegal seek")); h_name := Some "<stdin>";
     h_data := blob 6; h_pos := 0%nat |}.

(** A raw stream over a pipe, [io.FileIO]: eight bytes, of which three
    have arrived at the first read; [read(4)] hands out 3, 4 and 1. *)
Definition a_raw_pipe : handle :=
  {| h_class := "_io.FileIO"; h_fileno := Some (FilenoInt (Returns 0));
     h_read := Some ReadBytes;
     h_deliver := fun p _ => Gives (if (p =? 0)%nat then 3 else 4);
     h_seek := Some (SeekRaises (OSError "Illegal seek")); h_name := None;
     h_data := blob 8; h_pos := 0%nat |}.

(** A raw stream of 150 bytes that hands out at most 40 at a time. *)
Definition a_slow_stream : handle :=
  {| h_class := "_io.FileIO"; h_fileno := Some (FilenoInt (Returns 0));
     h_read := Some ReadBytes;
     h_deliver := fun _ _ => Gives 40;
     h_seek := Some (SeekRaises (OSError "Illegal seek")); h_name := None;
     h_data := blob 150; h_pos := 0%nat |}.


(** A file that was closed: every method raises [ValueError]. *)
Definition closed_file : handle :=
  {| h_class := "_io.BufferedReader";
     h_fileno := Some (FilenoRaises (ValueError "I/O operation on closed file"));
     h_read := Some ReadBytes;
     h_deliver := fun _ _ => Fails (ValueError "read of closed file");
     h_seek := Some (SeekRaises (ValueError "seek of closed file"));
     h_name := Some "data.bin"; h_data := []; h_pos := 0%nat |}.

Definition upload_of (E : env) (file : FileLike) (part_size : Z)
    : option (result File.t * trace) :=
  multipart_upload E file "fine-tune" "application/octet-stream" None part_size None None [].

(** Fifteen bytes read six at a time, and scenario A in bytes. *)
Definition run15 : option (result File.t * trace) :=
  Eval vm_compute in upload_of E (FBytes (blob 15)) 6.

Definition run150 : option (result File.t * trace) :=
  Eval vm_compute in upload_of E (FBytes (blob 150)) 64.

Definition run_no_file : option (result File.t * trace) :=
  Eval vm_compute in upload_of E_no_file (FBytes (blob 15)) 6.

Definition result_of (run : option (result File.t * trace)) : result File.t :=
  match run with
  | Some (r, _) => r
  | None => Raises (RuntimeError "the run did not end")
  end.

Definition trace_of (run : option (result File.t * trace)) : trace :=
  match run with
  | Some (_, tr) => tr
  | None => []
  end.

End Demo.

End Uploads.

(* ================================================================== *)
(** * More ways to read a run of the upload coordinator *)
(* ================================================================== *)

Module UploadsViews.
Import Py Uploads.

(** The paths of the requests, in order. *)
Definition request_paths (tr : trace) : list string := map rq_path (requests tr).

(** The path of the parts of an upload, and the path that completes it. *)
Definition parts_path (upload_id : json) : string :=
  "/v1/uploads/" ++ str upload_id ++ "/parts".

Definition complete_path (upload_id : json) : string :=
  "/v1/uploads/" ++ str upload_id ++ "/complete".

Definition cancel_path (upload_id : json) : string :=
  "/v1/uploads/" ++ str upload_id ++ "/cancel".

(** The uploads [create_upload] returned. *)
Fixpoint creations (tr : trace) : list Upload.t :=
  match tr with
  | [] => []
  | RetCreateUpload u :: r => u :: creations r
  | _ :: r => creations r
  end.

(** The bytes of a chunk, and all the bytes passed to
    [add_upload_part] in a run, in order. *)
Definition chunk_bytes (c : FileLike) : bytes :=
  match c with
  | FBytes b => b
  | _ => []
  end.

Definition uploaded (tr : trace) : bytes := List.concat (map chunk_bytes (part_chunks tr)).


(** Whether [fileno] and [os.fstat] give a size for the stream. *)
Definition usable_descriptor (h : handle) : bool :=
  match h_fileno h with
  | Some (FilenoInt (Returns _)) => true
  | _ => false
  end.

(** Whether [_infer_size] comes to read the stream: there is no
    [fileno], or it gives no int, or it or [os.fstat] raises an
    [OSError]. *)
Definition measured_by_reading (h : handle) : bool :=
  match h_fileno h with
  | Some (FilenoInt (Returns _)) => false
  | Some (FilenoInt (Raises e)) | Some (FilenoRaises e) => is_OSError e
  | Some FilenoNotInt | None => true
  end.

(** What [fileno()] or [os.fstat] raises that [except OSError] does not
    catch. *)
Definition escapes (h : handle) : option exn :=
  match h_fileno h with
  | Some (FilenoInt (Raises e)) | Some (FilenoRaises e) =>
      if is_OSError e then None else Some e
  | _ => None
  end.

(** A transport that answers: every part request with a reply
    [UploadPart.from_dict] reads, every request with a JSON object for
    a body with a reply [Upload.from_dict] reads, whose id is one the
    paths of the next requests can be formatted with. *)
Definition answers (E : env) : Prop :=
  forall history rq,
    match rq_body rq with
    | FormData _ =>
        exists j p, post_reply E history rq = Returns j /\ UploadPart.from_dict E j = Returns p
    | JsonBody (JDict _) =>
        exists j u, post_reply E history rq = Returns j /\ Upload.from_dict E j = Returns u /\
                    convertible (Upload.id u) = true
    | _ => True
    end.

(** The [expires_after] that counts: a dict that is not empty. *)
Definition given_expiry (expires_after : option dict) : option dict :=
  match expires_after with
  | Some (kv :: d) => Some (kv :: d)
  | _ => None
  end.

(** An [expires_after] the helper of the client in use returns for:
    [FilesMixin]'s takes the [str] of each value, which raises on an
    int that is too long; [UploadsMixin]'s takes the mapping as it is. *)
Definition expiry_converts (E : env) (expires_after : option dict) : bool :=
  match self_class E, given_expiry expires_after with
  | MerlinClient, Some d => forallb (fun kv => convertible (snd kv)) d
  | _, _ => true
  end.

(** The [str] under [name] of the stream a source is read through. *)
Definition source_name (file : FileLike) : option string :=
  match file with
  | FStr p => Some p
  | FBytes _ => None
  | FObject h => h_name h
  end.

(** ** More transports and sources for the examples *)
Module Demo2.




(** The demo transport with one file on disk. *)
Definition E_disk : env :=
  {| self_class := MerlinClient;
     fs := fun p => if String.eqb p "/tmp/data.bin" then Some (Demo.blob 10) else None;
     post_reply := Demo.reply;
     int_of_str := Demo.no_int;
     int_of_float := Demo.no_int |}.

(** The client of the repository: the adapter over httpx, whose [post]
    declares no [data], in front of the demo transport. *)
Definition E_httpx : env :=
  {| self_class := MerlinClient;
     fs := fun _ => None;
     post_reply := declared_post Demo.reply;
     int_of_str := Demo.no_int;
     int_of_float := Demo.no_int |}.

(** Twenty characters of text. *)
Definition notes : bytes := list_byte_of_string "minutes of the day: ".

(** A text file opened for reading, [open(path)], holding the notes. *)
Definition a_text_file : handle :=
  {| h_class := "_io.TextIOWrapper"; h_fileno := Some (FilenoInt (Returns 20));
     h_read := Some ReadText; h_deliver := whole_reads;
     h_seek := Some SeekOk; h_name := Some "notes.txt";
     h_data := notes; h_pos := 0%nat |}.

(** [io.StringIO]: text, and no file descriptor. *)
Definition a_string_io : handle :=
  {| h_class := "_io.StringIO";
     h_fileno := Some (FilenoRaises (UnsupportedOperation "fileno"));
     h_read := Some ReadText; h_deliver := whole_reads;
     h_seek := Some SeekOk; h_name := None;
     h_data := notes; h_pos := 0%nat |}.

(** [UploadsMixin] used on its own, in front of the demo transport. *)
Definition E_mixin : env :=
  {| self_class := UploadsMixinAlone;
     fs := fun _ => None;
     post_reply := Demo.reply;
     int_of_str := Demo.no_int;
     int_of_float := Demo.no_int |}.

Definition run_of (E : env) (file : FileLike) (part_size : Z) : result File.t * trace :=
  match Demo.upload_of E file part_size with
  | Some rt => rt
  | None => (Raises (RuntimeError "the run did not end"), [])
  end.

End Demo2.

End UploadsViews.

(* ================================================================== *)
(** * More ways to read an event *)
(* ================================================================== *)

Module StreamingViews.
Import Py Streaming.

(** The keys [StreamEvent.from_dict] reads. *)
Definition known_keys : list string := "type" :: map fst optional_fields.

(** An event with another [raw]. *)
Definition with_raw (e : StreamEvent) (r : dict) : StreamEvent :=
  {| type := type e;
     sequence_number := sequence_number e;
     response := response e;
     item_id := item_id e;
     output_index := output_index e;
     content_index := content_index e;
     summary_index := summary_index e;
     delta := delta e;
     text := text e;
     refusal := refusal e;
     arguments := arguments e;
     code := code e;
     partial_image_b64 := partial_image_b64 e;
     partial_image_index := partial_image_index e;
     annotation := annotation e;
     annotation_index := annotation_index e;
     logprobs := logprobs e;
     error_code := error_code e;
     error_message := error_message e;
     error_param := error_param e;
     raw := r |}.

(** Whether a value is a mapping, a list, an int (a [bool] is not one
    here: the decoder turns it into an int), or [None]. *)
Definition is_none (v : json) : bool := match v with JNull => true | _ => false end.
Definition is_mapping (v : json) : bool := match v with JDict _ => true | _ => false end.
Definition is_list (v : json) : bool := match v with JList _ => true | _ => false end.
Definition is_int (v : json) : bool := match v with JInt _ => true | _ => false end.

End StreamingViews.

(* ================================================================== *)
(** * files.py *)
(* ================================================================== *)

Module Files.
Import Py Uploads.
Export FilesHelpers.

Local Open Scope result_scope.

(** [for x in v]: the items of a list, the keys of a dict, the
    characters of a text; nothing else of a decoded value can be
    iterated. *)
Fixpoint chars (s : string) : list json :=
  match s with
  | EmptyString => []
  | String c r => JStr (String c EmptyString) :: chars r
  end.

Definition iterate (v : json) : result (list json) :=
  match v with
  | JList l => Returns l
  | JDict d => Returns (map JStr (keys d))
  | JStr s => Returns (chars s)
  | _ => Raises (TypeError "object is not iterable")
  end.

(** [[f(x) for x in xs]]: the first call that raises ends it. *)
Fixpoint comprehension {A B : Type} (f : A -> result B) (xs : list A) : result (list B) :=
  match xs with
  | [] => Returns []
  | x :: r =>
      y <- f x ;;
      ys <- comprehension f r ;;
      Returns (y :: ys)
  end.

(** A paginated list of File objects. *)
Module FileList.
Record t : Type := {
  object : json;
  data : list File.t;
  first_id : json;
  last_id : json;
  has_more : bool;
  raw : dict
}.

Definition from_dict (E : env) (d : json) : result t :=
  object <- attr_get d "object" (JStr "list") ;;
  items <- attr_get d "data" (JList []) ;;
  xs <- iterate items ;;
  data <- comprehension (File.from_dict E) xs ;;
  first_id <- attr_get d "first_id" JNull ;;
  last_id <- attr_get d "last_id" JNull ;;
  more <- attr_get d "has_more" (JBool false) ;;
  raw <- to_dict d ;;
  Returns {| object := object; data := data; first_id := first_id; last_id := last_id;
             has_more := truthy more; raw := raw |}.
End FileList.

(** Response for DELETE /v1/files/{file_id}. *)
Module FileDeleted.
Record t : Type := {
  id : json;
  object : json;
  deleted : bool;
  raw : dict
}.

Definition from_dict (d : json) : result t :=
  id <- subscript d "id" ;;
  object <- attr_get d "object" (JStr "file") ;;
  gone <- attr_get d "deleted" (JBool false) ;;
  raw <- to_dict d ;;
  Returns {| id := id; object := object; deleted := truthy gone; raw := raw |}.
End FileDeleted.

(** ** The transport of [FilesMixin] *)

Inductive verb : Type := GET | POST | DELETE.

Record call : Type := {
  c_verb : verb;
  c_path : string;
  c_params : option dict;
  c_data : option dict;
  c_files : list (string * (string * handle))
}.

(** The reply of the transport to a call, given the calls before it. *)
Definition http : Type := list call -> call -> result json.

(** A computation of [FilesMixin]: from the calls so far to how it ends
    and the calls then. *)
Definition F (A : Type) : Type := list call -> result A * list call.

Definition request (H : http) (c : call) : F json :=
  fun log => (H log c, (log ++ [c])%list).

(** ** Helpers *)

(** Normalize file input to a binary file-like object. *)
Definition _coerce_file (E : env) (file : FileLike) : result handle :=
  match file with
  | FObject h =>
      match h_read h with
      | Some _ => Returns h
      | None => Raises (TypeError ("Unsupported file type for upload: " ++ type_repr file))
      end
  | FStr p => open_rb E p
  | FBytes b => Returns (BytesIO b)
  end.


(** ** Upload file *)


(** ** List files *)

Definition list_files (E : env) (H : http) (after : option string) (limit : option Z)
    (order purpose : option string) : F FileList.t :=
  fun log =>
    let params : dict := [] in
    let params := match after with Some a => setitem params "after" (JStr a) | None => params end in
    let params := match limit with Some l => setitem params "limit" (JInt l) | None => params end in
    let params := match order with Some o => setitem params "order" (JStr o) | None => params end in
    let params :=
      match purpose with Some p => setitem params "purpose" (JStr p) | None => params end in
    let '(resp, log) :=
      request H {| c_verb := GET; c_path := "/v1/files"; c_params := Some params;
                   c_data := None; c_files := [] |} log in
    (r <- resp ;; FileList.from_dict E r, log).

(** ** Retrieve file *)

Definition retrieve_file (E : env) (H : http) (file_id : string) : F File.t :=
  fun log =>
    let '(resp, log) :=
      request H {| c_verb := GET; c_path := "/v1/files/" ++ file_id; c_params := None;
                   c_data := None; c_files := [] |} log in
    (r <- resp ;; File.from_dict E r, log).

(** ** Delete file *)

Definition delete_file (H : http) (file_id : string) : F FileDeleted.t :=
  fun log =>
    let '(resp, log) :=
      request H {| c_verb := DELETE; c_path := "/v1/files/" ++ file_id; c_params := None;
                   c_data := None; c_files := [] |} log in
    (r <- resp ;; FileDeleted.from_dict r, log).

(** ** A transport for the examples: two files, listed or retrieved. *)
Module Demo.

Definition file_json (id : string) (size : Z) : json :=
  JDict [ ("id", JStr id); ("object", JStr "file"); ("bytes", JInt size);
          ("created_at", JInt 1719186911); ("filename", JStr "data.jsonl");
          ("purpose", JStr "fine-tune") ].

Definition listing : json :=
  JDict [ ("object", JStr "list");
          ("data", JList [file_json "file-1" 120; file_json "file-2" 7]);
          ("first_id", JStr "file-1"); ("last_id", JStr "file-2");
          ("has_more", JBool false) ].

Definition reply : http :=
  fun _ c =>
    match c_verb c with
    | GET => Returns listing
    | POST => Returns (file_json "file-3" 15)
    | DELETE => Returns (JDict [("id", JStr "file-1"); ("deleted", JBool true)])
    end.

Definition thirty_days : dict := [("anchor", JStr "created_at"); ("seconds", JInt 2592000)].

End Demo.

End Files.

(* ================================================================== *)
(** * More ways to read a request of files.py *)
(* ================================================================== *)

Module FilesViews.
Import Py Files.

(** The form field one item of [expires_after] becomes. *)
Definition flat_item (kv : string * json) : string * json :=
  (field_of (fst kv), JStr (str (snd kv))).

(** What a filter adds to the query when it is given. *)
Definition given {A} (k : string) (f : A -> json) (o : option A) : dict :=
  match o with
  | Some x => [(k, f x)]
  | None => []
  end.

End FilesViews.

(* ================================================================== *)
(** * Properties of the Python values *)
(* ================================================================== *)

Module PyFacts.
Import Py.

Lemma dict_wf_NoDup (d : dict) : dict_wf d = true -> NoDup (keys d).
Proof.
  induction d as [|[k v] r IH]; simpl; intros H.
  - constructor.
  - apply andb_true_iff in H as [Hk Hr].
    constructor; [|now apply IH].
    intros Hin. apply negb_true_iff in Hk.
    assert (existsb (String.eqb k) (keys r) = true) as Hex.
    { apply existsb_exists. exists k. split; [exact Hin | apply String.eqb_refl]. }
    congruence.
Qed.

Lemma setitem_fresh (d : dict) (k : string) (v : json) :
  ~ In k (keys d) -> setitem d k v = (d ++ [(k, v)])%list.
Proof.
  induction d as [|[k' v'] r IH]; simpl; intros Hk.
  - reflexivity.
  - destruct (String.eqb_spec k' k) as [->|Hne].
    + exfalso. apply Hk. now left.
    + f_equal. apply IH. intros Hin. apply Hk. now right.
Qed.

Lemma keys_app (a b : dict) : keys (a ++ b)%list = (keys a ++ keys b)%list.
Proof. unfold keys. apply map_app. Qed.

Lemma fill_fresh (m acc : dict) :
  NoDup (keys (acc ++ m)%list) ->
  fold_left (fun a kv => setitem a (fst kv) (snd kv)) m acc = (acc ++ m)%list.
Proof.
  revert acc. induction m as [|[k v] r IH]; intros acc Hnd; simpl.
  - now rewrite app_nil_r.
  - rewrite setitem_fresh.
    + rewrite IH; rewrite <- app_assoc; [reflexivity | exact Hnd].
    + rewrite keys_app in Hnd. simpl in Hnd.
      apply NoDup_remove_2 in Hnd. intros Hin. apply Hnd.
      apply in_or_app. now left.
Qed.

(** [dict(m)] of a well-formed dict has the items of [m], in order. *)
Lemma dict_of_wf (d : dict) : dict_wf d = true -> dict_of d = d.
Proof.
  intros H. unfold dict_of. rewrite fill_fresh; [reflexivity|].
  simpl. now apply dict_wf_NoDup.
Qed.

Lemma digit_char_not_e (d : digit) (s : string) : String (digit_char d) s <> "error".
Proof. destruct d; discriminate. Qed.

Lemma int_str_not_error (z : Z) : int_str z <> "error".
Proof.
  unfold int_str. destruct (Z.to_int z) as [u|u]; simpl.
  - destruct u; simpl; discriminate.
  - discriminate.
Qed.

Lemma float_repr_not_error (f : pyfloat) : float_repr f <> "error".
Proof.
  destruct f as [|neg|neg d ds decpt]; simpl.
  - discriminate.
  - destruct neg; discriminate.
  - destruct neg; [discriminate|].
    destruct ((decpt <=? -4) || (16 <? decpt)); [apply digit_char_not_e|].
    destruct (decpt <=? 0); [discriminate|].
    destruct (Z.to_nat decpt); simpl; apply digit_char_not_e.
Qed.

(** Only the text [error] has [error] as its [str]. *)
Lemma str_error_inv (v : json) : str v = "error" -> v = JStr "error".
Proof.
  destruct v as [|b|z|f|s|l|d]; simpl; intros H.
  - discriminate.
  - destruct b; discriminate.
  - now apply int_str_not_error in H.
  - now apply float_repr_not_error in H.
  - now subst.
  - discriminate.
  - discriminate.
Qed.

End PyFacts.

(* ================================================================== *)
(** * Properties of the form fields of files.py *)
(* ================================================================== *)

Module FilesHelpersFacts.
Import Py FilesHelpers Files FilesViews PyFacts.

Local Open Scope list_scope.
Local Abbreviation length := (@List.length _).

Lemma append_bracket_inj (k k' : string) : (k ++ "]" = k' ++ "]")%string -> k = k'.
Proof.
  revert k'. induction k as [|c k IH]; intros [|c' k'] H; simpl in H.
  - reflexivity.
  - injection H as _ H. destruct k'; discriminate.
  - injection H as _ H. destruct k; discriminate.
  - injection H as -> H. f_equal. now apply IH.
Qed.

Lemma field_of_inj (k k' : string) : field_of k = field_of k' -> k = k'.
Proof. unfold field_of. simpl. intros [= H]. now apply append_bracket_inj. Qed.


Lemma fold_flat (m acc : dict) :
  fold_left (fun flat kv => setitem flat (field_of (fst kv)) (JStr (str (snd kv)))) m acc
  = fold_left (fun a kv => setitem a (fst kv) (snd kv)) (map flat_item m) acc.
Proof. revert acc. induction m as [|kv m IH]; intros acc; simpl; [reflexivity | apply IH]. Qed.

Local Arguments field_of : simpl never.

Lemma keys_flat (d : dict) : keys (map flat_item d) = map field_of (keys d).
Proof. unfold keys. rewrite !map_map. reflexivity. Qed.

Lemma NoDup_fields (l : list string) : NoDup l -> NoDup (map field_of l).
Proof.
  induction 1 as [|k l Hk Hl IH]; simpl; constructor; [|exact IH].
  intros Hin. apply in_map_iff in Hin as (k' & Heq & Hin).
  apply field_of_inj in Heq. now subst.
Qed.



(** For a mapping, whose keys are distinct, the flattening is one
    field per item, in order. *)
Lemma flatten_of_wf (d : dict) :
  dict_wf d = true -> _flatten_expires_after (Some d) = map flat_item d.
Proof.
  intros Hwf. destruct d as [|kv d]; [reflexivity|].
  unfold _flatten_expires_after. rewrite fold_flat.
  rewrite fill_fresh; [reflexivity|].
  cbn [app]. rewrite keys_flat. apply NoDup_fields. now apply dict_wf_NoDup.
Qed.

End FilesHelpersFacts.

(* ================================================================== *)
(** * Properties of the streaming event decoder *)
(* ================================================================== *)

Module StreamingFacts.
Import Py Streaming PyFacts.

(** On a mapping the decoder returns exactly when [str] accepts the
    value under [type]. *)
Lemma from_dict_converts (d : dict) :
  convertible (get_default d "type" (JStr EmptyString)) = true ->
  exists e, from_dict (JDict d) = Returns e /\
    type e = str (get_default d "type" (JStr EmptyString)).
Proof.
  intros H. unfold from_dict, py_str. rewrite H. cbn [bindR].
  eexists. split; reflexivity.
Qed.

Lemma from_dict_returns (d : dict) (e : StreamEvent) :
  from_dict (JDict d) = Returns e ->
  convertible (get_default d "type" (JStr EmptyString)) = true /\
  type e = str (get_default d "type" (JStr EmptyString)).
Proof.
  unfold from_dict, py_str.
  destruct (convertible (get_default d "type" (JStr EmptyString))); cbn [bindR];
    [|discriminate].
  intros [= <-]. split; reflexivity.
Qed.


Lemma text_converts (d : dict) (t : string) :
  lookup d "type" = Some (JStr t) ->
  convertible (get_default d "type" (JStr EmptyString)) = true.
Proof. unfold get_default. now intros ->. Qed.

Lemma event_type_is_error (d : dict) :
  String.eqb (str (get_default d "type" (JStr EmptyString))) EventTypes.ERROR = true
  <-> lookup d "type" = Some (JStr "error").
Proof.
  unfold get_default, EventTypes.ERROR. split.
  - intros H. apply String.eqb_eq in H.
    destruct (lookup d "type") as [v|].
    + apply str_error_inv in H. now subst.
    + discriminate.
  - intros ->. reflexivity.
Qed.

(** What the decoder builds of a mapping once the type is text. *)
Ltac decoded H :=
  unfold from_dict, py_str in H;
  destruct (convertible (get_default _ "type" (JStr EmptyString))); cbn [bindR] in H;
  [|discriminate H]; injection H as <-.

(** C1.  For every mapping [d], the decoded event's [error_code],
    [error_message] and [error_param] are the values under the keys
    [code], [message] and [param] of [d] when the value under [type] is
    the text [error], and all three are [None] when [type] holds any
    other value or is missing, whatever [d] has under [code], [message]
    and [param].  There is a decoded event whenever [str] accepts the
    value under [type]. *)
Theorem error_fields_gated (d : dict) :
  (forall e, from_dict (JDict d) = Returns e ->
     (lookup d "type" = Some (JStr "error") ->
        error_code e = get d "code" /\
        error_message e = get d "message" /\
        error_param e = get d "param") /\
     (lookup d "type" <> Some (JStr "error") ->
        error_code e = JNull /\ error_message e = JNull /\ error_param e = JNull)) /\
  (convertible (get_default d "type" (JStr EmptyString)) = true ->
     exists e, from_dict (JDict d) = Returns e).
Proof.
  split.
  - intros e He. decoded He. cbn.
    destruct (String.eqb _ EventTypes.ERROR) eqn:Hty.
    + split; [now intros _|].
      intros Hne. apply event_type_is_error in Hty. contradiction.
    + split; [|now intros _].
      intros Heq. apply event_type_is_error in Heq. congruence.
  - intros H. destruct (from_dict_converts d H) as (e & He & _). now exists e.
Qed.

(** C2.  For every mapping [d] with a text [t] under [type], whatever
    else it holds, [parse_stream_event] and [StreamEvent.from_dict]
    return an event and do not raise; its type is [t], and every
    optional attribute whose key is missing from [d] is [None]. *)
Theorem decoder_total (d : dict) (t : string) :
  lookup d "type" = Some (JStr t) ->
  exists e,
    parse_stream_event (JDict d) = Returns e /\
    from_dict (JDict d) = Returns e /\
    type e = t /\
    Forall (fun kf => lookup d (fst kf) = None -> snd kf e = JNull) optional_fields.
Proof.
  intros Ht. unfold parse_stream_event, from_dict, py_str.
  rewrite (text_converts d t Ht). cbn [bindR].
  eexists. split; [reflexivity|]. split; [reflexivity|]. split.
  - simpl. unfold get_default. now rewrite Ht.
  - unfold optional_fields.
    repeat (apply Forall_cons; [
      simpl; unfold get, get_default; intros ->;
      try destruct (String.eqb _ EventTypes.ERROR); reflexivity |]).
    apply Forall_nil.
Qed.

Lemma is_terminal_iff (e : StreamEvent) :
  is_terminal e = true <-> In (type e) terminal_types.
Proof.
  unfold is_terminal. rewrite existsb_exists. split.
  - intros [x [Hin Heq]]. apply String.eqb_eq in Heq. now subst.
  - intros Hin. exists (type e). split; [exact Hin | apply String.eqb_refl].
Qed.

(** C3.  An event is terminal exactly when its type is one of
    [response.completed], [response.failed], [response.incomplete] and
    [error]; it is not terminal for any other registered type, such as
    [response.output_text.delta] and [response.queued]. *)
Theorem is_terminal_correct :
  (forall e : StreamEvent,
     is_terminal e = true <->
     In (type e) ["response.completed"; "response.failed"; "response.incomplete"; "error"]) /\
  (forall e : StreamEvent,
     In (type e) EventTypes.registered ->
     ~ In (type e) ["response.completed"; "response.failed"; "response.incomplete"; "error"] ->
     is_terminal e = false) /\
  (forall e : StreamEvent, type e = "response.output_text.delta" -> is_terminal e = false) /\
  (forall e : StreamEvent, type e = "response.queued" -> is_terminal e = false) /\
  In "response.output_text.delta" EventTypes.registered /\
  In "response.queued" EventTypes.registered.
Proof.
  split; [exact is_terminal_iff|].
  split.
  { intros e _ Hn. destruct (is_terminal e) eqn:H; [|reflexivity].
    apply is_terminal_iff in H. contradiction. }
  split; [intros e H; unfold is_terminal; now rewrite H|].
  split; [intros e H; unfold is_terminal; now rewrite H|].
  split; unfold EventTypes.registered; simpl; tauto.
Qed.

(** C4.  For every mapping [d] (a dict: no key twice), the decoded
    event's [raw] is [d]: the same items in the same order, hence the
    same value under every key, whatever the type of the event and
    whichever attributes are filled.  There is a decoded event
    whenever [str] accepts the value under [type]. *)
Theorem raw_preserved (d : dict) :
  dict_wf d = true ->
  (forall e, from_dict (JDict d) = Returns e ->
     raw e = d /\ (forall k, lookup (raw e) k = lookup d k)) /\
  (convertible (get_default d "type" (JStr EmptyString)) = true ->
     exists e, from_dict (JDict d) = Returns e).
Proof.
  intros Hwf. split.
  - intros e He. decoded He. cbn. rewrite (dict_of_wf d Hwf). split; reflexivity.
  - intros H. destruct (from_dict_converts d H) as (e & He & _). now exists e.
Qed.

(** ** The text of a value *)




(** ** The theorems at the scenarios of the specification *)

Lemma error_fields_gated_witness :
  (exists e, from_dict (JDict Scenarios.rate_limited) = Returns e /\
     error_code e = JStr "rate_limited" /\
     error_message e = JStr "too many requests" /\
     error_param e = JNull) /\
  (exists e, from_dict (JDict Scenarios.code_delta) = Returns e /\
     error_code e = JNull /\ error_message e = JNull /\ error_param e = JNull).
Proof.
  split.
  - destruct (error_fields_gated Scenarios.rate_limited) as [Hgate Hthere].
    destruct (Hthere eq_refl) as [e He].
    exists e. split; [exact He|]. exact (proj1 (Hgate e He) eq_refl).
  - destruct (error_fields_gated Scenarios.code_delta) as [Hgate Hthere].
    destruct (Hthere eq_refl) as [e He].
    exists e. split; [exact He|]. apply (proj2 (Hgate e He)). discriminate.
Defined.

Lemma decoder_total_witness :
  exists e,
    parse_stream_event (JDict Scenarios.text_delta) = Returns e /\
    from_dict (JDict Scenarios.text_delta) = Returns e /\
    type e = "response.output_text.delta" /\
    Forall (fun kf => lookup Scenarios.text_delta (fst kf) = None -> snd kf e = JNull)
      optional_fields.
Proof.
  apply (decoder_total Scenarios.text_delta "response.output_text.delta"). reflexivity.
Defined.

Lemma is_terminal_correct_witness :
  is_terminal (Scenarios.bare "response.output_text.delta") = false /\
  is_terminal (Scenarios.bare "response.queued") = false /\
  is_terminal (Scenarios.bare "response.mcp_call.failed") = false.
Proof.
  destruct is_terminal_correct as (_ & Hreg & Hdelta & Hqueued & _).
  split; [exact (Hdelta (Scenarios.bare "response.output_text.delta") eq_refl)|].
  split; [exact (Hqueued (Scenarios.bare "response.queued") eq_refl)|].
  apply Hreg.
  - unfold EventTypes.registered. simpl. tauto.
  - simpl. intuition discriminate.
Defined.

Lemma raw_preserved_witness :
  exists e, from_dict (JDict Scenarios.rate_limited) = Returns e /\
    raw e = Scenarios.rate_limited /\
    (forall k, lookup (raw e) k = lookup Scenarios.rate_limited k).
Proof.
  destruct (raw_preserved Scenarios.rate_limited eq_refl) as [Hraw Hthere].
  destruct (Hthere eq_refl) as [e He].
  exists e. split; [exact He | exact (Hraw e He)].
Defined.


(** End-to-end scenario B. *)
Example scenario_B :
  exists e, parse_stream_event (JDict Scenarios.text_delta) = Returns e /\
    delta e = JStr "Hello" /\ item_id e = JStr "item_1" /\ sequence_number e = JInt 4 /\
    is_terminal e = false /\ is_error e = false.
Proof. eexists. split; [reflexivity|]. now compute. Qed.

(** End-to-end scenario C. *)
Example scenario_C :
  exists e, parse_stream_event (JDict Scenarios.rate_limited) = Returns e /\
    error_code e = JStr "rate_limited" /\ error_message e = JStr "too many requests" /\
    is_error e = true /\ is_terminal e = true.
Proof. eexists. split; [reflexivity|]. now compute. Qed.

(** What is not a mapping has no [get]. *)
Example not_a_mapping : from_dict (JList [JInt 1]) = Raises (AttributeError "object has no attribute 'get'").
Proof. reflexivity. Qed.

(** The type of an event whose [type] is not text. *)
Example type_of_other_values :
  (exists e, from_dict (JDict [("type", JInt 7)]) = Returns e /\ type e = "7") /\
  (exists e, from_dict (JDict [("type", JNull)]) = Returns e /\ type e = "None") /\
  (exists e, from_dict (JDict [("type", JList [JStr "a"; JBool true])]) = Returns e /\
     type e = "['a', True]") /\
  (exists e, from_dict (JDict [("delta", JStr "x")]) = Returns e /\ type e = EmptyString).
Proof. repeat split; eexists; (split; [reflexivity|]); reflexivity. Qed.

End StreamingFacts.

(* ================================================================== *)
(** * Properties of the upload coordinator *)
(* ================================================================== *)

Module UploadsFacts.
Import Py Uploads UploadsViews.

Local Open Scope list_scope.
Local Abbreviation length := (@List.length _).

(** ** Traces *)

Lemma calls_app (a b : trace) : calls (a ++ b) = calls a ++ calls b.
Proof.
  induction a as [|ev a IH]; simpl; [reflexivity|].
  destruct ev; simpl; now rewrite IH.
Qed.

Lemma parts_returned_app (a b : trace) :
  parts_returned (a ++ b) = parts_returned a ++ parts_returned b.
Proof.
  induction a as [|ev a IH]; simpl; [reflexivity|].
  destruct ev; simpl; now rewrite IH.
Qed.

Lemma completions_app (a b : trace) : completions (a ++ b) = completions a ++ completions b.
Proof.
  induction a as [|ev a IH]; simpl; [reflexivity|].
  destruct ev; simpl; now rewrite IH.
Qed.

Lemma requests_app (a b : trace) : requests (a ++ b) = requests a ++ requests b.
Proof.
  induction a as [|ev a IH]; simpl; [reflexivity|].
  destruct ev; simpl; now rewrite IH.
Qed.

Lemma part_chunks_calls (tr : trace) : part_chunks tr = part_chunks (calls tr).
Proof.
  induction tr as [|ev tr IH]; simpl; [reflexivity|].
  destruct ev; simpl; now rewrite IH.
Qed.

Lemma declared_sizes_calls (tr : trace) : declared_sizes tr = declared_sizes (calls tr).
Proof.
  induction tr as [|ev tr IH]; simpl; [reflexivity|].
  destruct ev; simpl; now rewrite IH.
Qed.

Lemma part_chunks_add (uid : json) (cs : list FileLike) :
  part_chunks (map (CallAddUploadPart uid) cs) = cs.
Proof. induction cs as [|c cs IH]; simpl; [reflexivity | now rewrite IH]. Qed.

Lemma part_chunks_app (a b : trace) : part_chunks (a ++ b) = part_chunks a ++ part_chunks b.
Proof.
  induction a as [|ev a IH]; simpl; [reflexivity|].
  destruct ev; simpl; now rewrite IH.
Qed.

Lemma footprint_app evs1 evs2 cs1 cs2 ps1 ps2 us1 us2 :
  footprint evs1 cs1 ps1 us1 -> footprint evs2 cs2 ps2 us2 ->
  footprint (evs1 ++ evs2) (cs1 ++ cs2) (ps1 ++ ps2) (us1 ++ us2).
Proof.
  intros (Hc1 & Hp1 & Hu1) (Hc2 & Hp2 & Hu2). unfold footprint.
  rewrite calls_app, parts_returned_app, completions_app. now subst.
Qed.

(** ** The monad *)

Lemma bind_returns {A B} (m : M A) (k : A -> M B) tr a tr' :
  m tr = Some (Returns a, tr') -> bind m k tr = k a tr'.
Proof. unfold bind. now intros ->. Qed.

Lemma bind_raises {A B} (m : M A) (k : A -> M B) tr e tr' :
  m tr = Some (Raises e, tr') -> bind m k tr = Some (Raises e, tr').
Proof. unfold bind. now intros ->. Qed.

Lemma bind_lift {A B} (r : result A) (k : A -> M B) tr :
  bind (lift r) k tr =
  match r with
  | Returns a => k a tr
  | Raises e => Some (Raises e, tr)
  end.
Proof. unfold bind, lift. now destruct r. Qed.

(** ** The endpoints *)

Lemma create_upload_footprint E size filename mime_type purpose expires_after tr :
  exists r evs,
    create_upload E size filename mime_type purpose expires_after tr = Some (r, tr ++ evs) /\
    footprint evs [CallCreateUpload size filename mime_type purpose expires_after] [] [].
Proof.
  unfold create_upload, bind, emit, post, lift, ret.
  destruct (post_reply E _ _) as [resp|e].
  - destruct (Upload.from_dict E resp) as [u|e].
    + eexists _, _. split; [rewrite <- !app_assoc; reflexivity|]. now compute.
    + eexists _, _. split; [rewrite <- !app_assoc; reflexivity|]. now compute.
  - eexists _, _. split; [rewrite <- !app_assoc; reflexivity|]. now compute.
Qed.

Lemma add_upload_part_footprint E uid data tr :
  exists r evs,
    add_upload_part E uid data tr = Some (r, tr ++ evs) /\
    footprint evs [CallAddUploadPart uid data]
      (match r with Returns p => [p] | Raises _ => [] end) [].
Proof.
  unfold add_upload_part, bind, emit, post, lift, ret.
  destruct (_coerce_file E data) as [fobj|e].
  - destruct (post_reply E _ _) as [resp|e].
    + destruct (UploadPart.from_dict E resp) as [p|e].
      * eexists _, _. split; [rewrite <- !app_assoc; reflexivity|]. now compute.
      * eexists _, _. split; [rewrite <- !app_assoc; reflexivity|]. now compute.
    + eexists _, _. split; [rewrite <- !app_assoc; reflexivity|]. now compute.
  - eexists _, _. split; [reflexivity|]. now compute.
Qed.

Lemma complete_upload_footprint E uid part_ids md5 tr :
  exists r evs,
    complete_upload E uid part_ids md5 tr = Some (r, tr ++ evs) /\
    footprint evs [CallCompleteUpload uid part_ids md5] []
      (match r with Returns u => [u] | Raises _ => [] end).
Proof.
  unfold complete_upload, bind, emit, post, lift, ret.
  destruct (post_reply E _ _) as [resp|e].
  - destruct (Upload.from_dict E resp) as [u|e].
    + eexists _, _. split; [rewrite <- !app_assoc; reflexivity|]. now compute.
    + eexists _, _. split; [rewrite <- !app_assoc; reflexivity|]. now compute.
  - eexists _, _. split; [rewrite <- !app_assoc; reflexivity|]. now compute.
Qed.

(** ** Reading in chunks *)

Lemma take_nil size : take size [] = [].
Proof. unfold take. destruct (size <? 0); [reflexivity | apply firstn_nil]. Qed.

Lemma take_length size rest : (length (take size rest) <= length rest)%nat.
Proof.
  unfold take. destruct (size <? 0); [lia|].
  rewrite length_firstn. lia.
Qed.





Lemma granted_full n size : 0 <= size -> size <= Z.of_nat n -> granted n size = size.
Proof. intros H Hn. unfold granted. destruct (Z.ltb_spec size 0); lia. Qed.

Lemma chunks_upto_enough size : forall f1 f2 rest,
  (length rest <= f1)%nat -> (length rest <= f2)%nat ->
  chunks_upto f1 size rest = chunks_upto f2 size rest.
Proof.
  induction f1 as [|f1 IH]; intros f2 rest H1 H2.
  - destruct rest; [|simpl in H1; lia].
    destruct f2; simpl; [reflexivity | now rewrite take_nil].
  - destruct f2 as [|f2].
    + destruct rest; [|simpl in H2; lia]. simpl. now rewrite take_nil.
    + cbn [chunks_upto]. destruct (take size rest) as [|b c] eqn:Ht; [reflexivity|].
      f_equal. pose proof (take_length size rest) as Hl. rewrite Ht in Hl.
      apply IH; rewrite length_skipn; simpl in *; lia.
Qed.

Lemma chunks_nil size rest : take size rest = [] -> chunks size rest = [].
Proof.
  intros Ht. unfold chunks. destruct (length rest); simpl; [reflexivity | now rewrite Ht].
Qed.

Lemma chunks_cons size rest b c :
  take size rest = b :: c ->
  chunks size rest = (b :: c) :: chunks size (skipn (length (b :: c)) rest).
Proof.
  intros Ht. unfold chunks.
  pose proof (take_length size rest) as Hl. rewrite Ht in Hl.
  destruct (length rest) as [|n] eqn:Hn; [simpl in Hl; lia|].
  cbn [chunks_upto]. rewrite Ht. f_equal.
  apply chunks_upto_enough; rewrite length_skipn; simpl in *; lia.
Qed.

Lemma remaining_advance h n :
  remaining (set_pos h (h_pos h + n)) = skipn n (remaining h).
Proof.
  unfold remaining. simpl. rewrite skipn_skipn. f_equal. lia.
Qed.

Lemma is_empty_chunk m t :
  is_empty (chunk_of m t) = match t with [] => true | _ :: _ => false end.
Proof. destruct m, t; reflexivity. Qed.


(** ** What a stream hands out *)

Lemma in_full_set_pos h p : in_full h -> in_full (set_pos h p).
Proof. intros H q s Hs. exact (H q s Hs). Qed.


(** A stream that reads in full is cut the way its bytes are cut by
    the size, and its reads end at an empty one. *)
Lemma reads_upto_in_full size : 0 <= size -> forall fuel h,
  in_full h ->
  reads_upto fuel size h = chunks_upto fuel size (remaining h) /\
  reads_end_upto fuel size h = None.
Proof.
  intros Hsize. induction fuel as [|fuel IH]; intros h Hfull;
    cbn [reads_upto reads_end_upto chunks_upto]; [now split|].
  destruct (Hfull (h_pos h) size Hsize) as (n & -> & Hn).
  rewrite (granted_full n size Hsize Hn).
  destruct (take size (remaining h)) as [|b c] eqn:Ht; [now split|].
  destruct (IH (set_pos h (h_pos h + length (b :: c))) (in_full_set_pos _ _ Hfull))
    as [IH1 IH2].
  rewrite IH1, IH2, remaining_advance. now split.
Qed.

Lemma reads_in_full_chunks size h :
  0 <= size -> in_full h ->
  reads size h = chunks size (remaining h) /\ reads_end size h = None.
Proof.
  intros Hsize Hfull. unfold reads, reads_end, chunks, enough_fuel.
  destruct (reads_upto_in_full size Hsize (S (length (remaining h))) h Hfull) as [-> ->].
  split; [|reflexivity]. apply chunks_upto_enough; lia.
Qed.

(** The loop: it ends; it calls [add_upload_part] with the chunks the
    stream hands out, in order, up to the first call that raises; when
    it returns, no read and no call has raised, it has called
    [add_upload_part] with all of them and returns the ids of the parts
    in that order. *)
Lemma add_parts_footprint E uid size m : forall fuel fobj ids tr,
  h_read fobj = Some m ->
  (length (remaining fobj) < fuel)%nat ->
  exists r evs cs,
    add_parts E fuel uid size fobj ids tr = Some (r, tr ++ evs) /\
    footprint evs (map (CallAddUploadPart uid) cs) (parts_returned evs) [] /\
    (exists rest, map (chunk_of m) (reads_upto fuel size fobj) = cs ++ rest) /\
    match r with
    | Returns ids' =>
        cs = map (chunk_of m) (reads_upto fuel size fobj) /\
        ids' = ids ++ map UploadPart.id (parts_returned evs) /\
        length (parts_returned evs) = length cs /\
        reads_end_upto fuel size fobj = None
    | Raises _ => True
    end.
Proof.
  induction fuel as [|fuel IH]; intros fobj ids tr Hread Hfuel; [lia|].
  cbn [add_parts reads_upto reads_end_upto]. rewrite bind_lift. unfold read. rewrite Hread.
  destruct (h_deliver fobj (h_pos fobj) (Some size)) as [n|e].
  2:{ exists (Raises e), [], []. rewrite app_nil_r. repeat split. now exists []. }
  cbn iota beta zeta. rewrite is_empty_chunk.
  destruct (take (granted n size) (remaining fobj)) as [|b c] eqn:Ht.
  - exists (Returns ids), [], []. rewrite !app_nil_r.
    repeat split. exists []. reflexivity.
  - destruct (add_upload_part_footprint E uid (chunk_of m (b :: c)) tr)
      as (r1 & evs1 & Hrun & Hc1 & Hp1 & Hu1).
    cbn [map].
    destruct r1 as [p|e].
    + rewrite (bind_returns _ _ _ _ _ Hrun).
      pose proof (take_length (granted n size) (remaining fobj)) as Hl. rewrite Ht in Hl.
      destruct (IH (set_pos fobj (h_pos fobj + length (b :: c)))
                   (ids ++ [UploadPart.id p]) (tr ++ evs1))
        as (r & evs2 & cs2 & Hrun2 & (Hc2 & _ & Hu2) & [rest Hrest] & Hr).
      { exact Hread. }
      { rewrite remaining_advance, length_skipn. simpl in *. lia. }
      exists r, (evs1 ++ evs2), (chunk_of m (b :: c) :: cs2).
      split; [now rewrite app_assoc|].
      split.
      { unfold footprint. rewrite calls_app, completions_app, Hc1, Hc2, Hu1, Hu2.
        repeat split. }
      split.
      { exists rest. rewrite Hrest. reflexivity. }
      destruct r as [ids'|e]; [|exact I].
      destruct Hr as (Hcs & Hids & Hlen & Hend).
      rewrite parts_returned_app, Hp1. cbn [app map length].
      repeat split.
      * now rewrite Hcs.
      * rewrite Hids, <- app_assoc. reflexivity.
      * now rewrite Hlen.
      * exact Hend.
    + rewrite (bind_raises _ _ _ _ _ Hrun).
      exists (Raises e), evs1, [chunk_of m (b :: c)].
      split; [reflexivity|].
      split; [unfold footprint; rewrite Hc1, Hu1; repeat split|].
      split; [|exact I].
      eexists. reflexivity.
Qed.

(** ** The helpers *)

Lemma coerce_readable E file fobj :
  _coerce_file E file = Returns fobj -> exists m, h_read fobj = Some m.
Proof.
  destruct file as [p|b|h]; simpl.
  - unfold open_rb. destruct (embedded_null p); [discriminate|].
    destruct (fs E p); [|discriminate].
    intros [= <-]. now exists ReadBytes.
  - intros [= <-]. now exists ReadBytes.
  - destruct (h_read h) as [m|] eqn:Hr; [|discriminate].
    intros [= <-]. now exists m.
Qed.

(** ** The whole run

    [multipart_upload] ends, whatever the transport replies.  It stops
    before any call when the size or the stream cannot be had; else it
    calls [create_upload] with that size, then [add_upload_part] with
    the chunks the stream hands out, in order, then, when the reads
    have ended at an empty one, [complete_upload] with the ids of the
    parts returned, in that order, and it stops at the first read or
    call that raises; at the end it returns the file of the completed
    upload, or raises when there is none. *)
Lemma multipart_upload_run E file purpose mime_type filename part_size expires_after md5 tr :
  exists r evs,
    multipart_upload E file purpose mime_type filename part_size expires_after md5 tr
      = Some (r, tr ++ evs) /\
    match prepare E file with
    | Raises e => r = Raises e /\ evs = []
    | Returns (size, fobj) =>
        exists m, h_read fobj = Some m /\
        let all := map (chunk_of m) (reads part_size fobj) in
        let create :=
          CallCreateUpload size (upload_name filename fobj) mime_type purpose expires_after in
        (exists e, r = Raises e /\ footprint evs [create] [] []) \/
        (exists upload cs rest,
           all = cs ++ rest /\
           let add := CallAddUploadPart (Upload.id upload) in
           ((exists e, r = Raises e /\
               footprint evs (create :: map add cs) (parts_returned evs) []) \/
            (cs = all /\
             length (parts_returned evs) = length all /\
             calls evs =
               create :: map add all ++
                 [CallCompleteUpload (Upload.id upload)
                    (map UploadPart.id (parts_returned evs)) md5] /\
             reads_end part_size fobj = None /\
             ((exists e, r = Raises e /\ completions evs = []) \/
              (exists u, completions evs = [u] /\
                 r = match Upload.file u with
                     | Some f => Returns f
                     | None => Raises (no_file_error u)
                     end)))))
    end.
Proof.
  unfold multipart_upload, prepare. rewrite bind_lift.
  destruct (_infer_size E file) as [[size file1]|e]; cbn [bindR];
    [|exists (Raises e), []; now rewrite app_nil_r].
  rewrite bind_lift.
  destruct (_coerce_file E file1) as [fobj|e] eqn:Hco; cbn [bindR];
    [|exists (Raises e), []; now rewrite app_nil_r].
  destruct (coerce_readable _ _ _ Hco) as [m Hm].
  fold (upload_name filename fobj).
  destruct (create_upload_footprint E size (upload_name filename fobj) mime_type purpose
              expires_after tr) as (r1 & evs1 & Hrun1 & Hc1 & Hp1 & Hu1).
  destruct r1 as [upload|e].
  2:{ rewrite (bind_raises _ _ _ _ _ Hrun1). exists (Raises e), evs1.
      split; [reflexivity|]. exists m. split; [exact Hm|]. left. exists e.
      now repeat split. }
  rewrite (bind_returns _ _ _ _ _ Hrun1).
  destruct (add_parts_footprint E (Upload.id upload) part_size m (enough_fuel fobj) fobj []
              (tr ++ evs1) Hm) as (r2 & evs2 & cs & Hrun2 & (Hc2 & _ & Hu2) & [rest Hrest] & Hr2).
  { unfold enough_fuel. lia. }
  fold (reads part_size fobj) in Hrest, Hr2. fold (reads_end part_size fobj) in Hr2.
  destruct r2 as [ids|e].
  2:{ rewrite (bind_raises _ _ _ _ _ Hrun2). exists (Raises e), (evs1 ++ evs2).
      split; [now rewrite app_assoc|]. exists m. split; [exact Hm|]. right.
      exists upload, cs, rest. split; [exact Hrest|]. left. exists e.
      split; [reflexivity|]. unfold footprint.
      rewrite calls_app, completions_app, Hc1, Hc2, Hu1, Hu2. now repeat split. }
  rewrite (bind_returns _ _ _ _ _ Hrun2).
  destruct Hr2 as (Hcs & Hids & Hlen & Hend). cbn [app] in Hids.
  destruct (complete_upload_footprint E (Upload.id upload) ids md5 ((tr ++ evs1) ++ evs2))
    as (r3 & evs3 & Hrun3 & Hc3 & Hp3 & Hu3).
  assert (parts_returned (evs1 ++ evs2 ++ evs3) = parts_returned evs2) as Hparts.
  { rewrite !parts_returned_app, Hp1, Hp3. cbn [app]. now rewrite app_nil_r. }
  assert (calls (evs1 ++ evs2 ++ evs3) =
            CallCreateUpload size (upload_name filename fobj) mime_type purpose expires_after
              :: map (CallAddUploadPart (Upload.id upload)) cs
                 ++ [CallCompleteUpload (Upload.id upload) ids md5]) as Hcalls.
  { rewrite !calls_app, Hc1, Hc2, Hc3. reflexivity. }
  destruct r3 as [u|e].
  2:{ rewrite (bind_raises _ _ _ _ _ Hrun3). exists (Raises e), (evs1 ++ evs2 ++ evs3).
      split; [now rewrite !app_assoc|]. exists m. split; [exact Hm|]. right.
      exists upload, cs, rest. split; [exact Hrest|]. right.
      rewrite Hparts, Hcalls, <- Hcs, <- Hids.
      split; [reflexivity|]. split; [exact Hlen|]. split; [reflexivity|].
      split; [exact Hend|].
      left. exists e. split; [reflexivity|].
      rewrite !completions_app, Hu1, Hu2, Hu3. reflexivity. }
  rewrite (bind_returns _ _ _ _ _ Hrun3).
  exists (match Upload.file u with Some f => Returns f | None => Raises (no_file_error u) end),
         (evs1 ++ evs2 ++ evs3).
  split.
  { rewrite !app_assoc. now destruct (Upload.file u). }
  exists m. split; [exact Hm|]. right.
  exists upload, cs, rest. split; [exact Hrest|]. right.
  rewrite Hparts, Hcalls, <- Hcs, <- Hids.
  split; [reflexivity|]. split; [exact Hlen|]. split; [reflexivity|].
  split; [exact Hend|].
  right. exists u. split; [|reflexivity].
  rewrite !completions_app, Hu1, Hu2, Hu3. reflexivity.
Qed.

(** What [_infer_size] returns for an object: the size its descriptor
    reports, with the object as it was, or the number of bytes it read
    from the position of the stream to its end, with the stream
    rewound. *)
Lemma infer_size_object E h size file1 :
  _infer_size E (FObject h) = Returns (size, file1) ->
  (h_fileno h = Some (FilenoInt (Returns size)) /\ file1 = FObject h) \/
  (usable_descriptor h = false /\ h_read h = Some ReadBytes /\ h_seekable h = true /\
   size = Z.of_nat (length (remaining h)) /\ file1 = FObject (set_pos h 0)).
Proof.
  assert (measure_by_reading (FObject h) h = Returns (size, file1) ->
          h_read h = Some ReadBytes /\ h_seekable h = true /\
          size = Z.of_nat (length (remaining h)) /\ file1 = FObject (set_pos h 0)) as Hm.
  { unfold measure_by_reading, read, seek0, h_seekable.
    destruct (h_read h) as [[|]|]; try discriminate;
      (destruct (h_deliver h (h_pos h) None) as [n|e]; [|discriminate]); cbn;
      try discriminate.
    destruct (h_seek h) as [[|e]|]; cbn; try discriminate.
    intros [= <- <-]. repeat split. }
  cbn [_infer_size]. unfold usable_descriptor.
  destruct (h_fileno h) as [[[st|e]| |e]|].
  - intros [= <- <-]. now left.
  - destruct (is_OSError e); [|discriminate]. intros H. right. split; [reflexivity | now apply Hm].
  - intros H. right. split; [reflexivity | now apply Hm].
  - destruct (is_OSError e); [|discriminate]. intros H. right. split; [reflexivity | now apply Hm].
  - intros H. right. split; [reflexivity | now apply Hm].
Qed.

(** The stream [multipart_upload] goes on with, for an object: the
    object itself, at the position it had or rewound. *)
Lemma prepare_object E h size fobj :
  prepare E (FObject h) = Returns (size, fobj) ->
  (h_fileno h = Some (FilenoInt (Returns size)) /\ fobj = h) \/
  (usable_descriptor h = false /\ h_read h = Some ReadBytes /\ h_seekable h = true /\
   size = Z.of_nat (length (remaining h)) /\ fobj = set_pos h 0).
Proof.
  unfold prepare.
  destruct (_infer_size E (FObject h)) as [[size1 file1]|e] eqn:Hinf; cbn [bindR];
    [|discriminate].
  destruct (infer_size_object _ _ _ _ Hinf) as [(Hf & ->) | (Hu & Hr & Hs & -> & ->)].
  - cbn. destruct (h_read h); cbn; [|discriminate]. intros [= <- <-]. now left.
  - cbn. rewrite Hr. cbn. intros [= <- <-]. right. repeat split; assumption.
Qed.

(** And for a path: the reader over the file, with the length of the
    file for a size. *)
Lemma prepare_path E p :
  prepare E (FStr p) =
    if embedded_null p then Raises (ValueError "embedded null byte")
    else match fs E p with
         | Some content => Returns (Z.of_nat (length content), BufferedReader p content)
         | None => Raises (OSError "No such file or directory")
         end.
Proof.
  unfold prepare, _infer_size, getsize.
  destruct (embedded_null p) eqn:Hnul; cbn [bindR]; [reflexivity|].
  destruct (fs E p) eqn:Hfs; cbn [bindR]; [|reflexivity].
  cbn [_coerce_file]. unfold open_rb. now rewrite Hnul, Hfs.
Qed.

Lemma prepare_in_full E file size fobj :
  reads_in_full file -> prepare E file = Returns (size, fobj) -> in_full fobj.
Proof.
  destruct file as [p|b|h].
  - intros _. rewrite prepare_path.
    destruct (embedded_null p); [discriminate|].
    destruct (fs E p); [|discriminate]. intros [= _ <-].
    intros q s Hs. cbn. unfold reads_of_BufferedReader. exists (Z.to_nat s).
    destruct (Z.ltb_spec s (-1)); [lia|]. split; [reflexivity | lia].
  - intros _ [= _ <-]. intros q s Hs. exists (Z.to_nat s). split; [reflexivity | lia].
  - intros Hfull Hprep.
    destruct (prepare_object _ _ _ _ Hprep) as [(_ & ->) | (_ & _ & _ & _ & ->)].
    + exact Hfull.
    + now apply in_full_set_pos.
Qed.

(** ** Sizes of the chunks *)






(** The chunks a run passes to [add_upload_part] are the first chunks
    the stream it reads hands out, [part_size] at a time. *)
Lemma part_chunks_prefix E file purpose mime_type filename part_size expires_after md5 tr :
  exists r evs,
    multipart_upload E file purpose mime_type filename part_size expires_after md5 tr
      = Some (r, tr ++ evs) /\
    (part_chunks evs = [] \/
     exists size fobj m rest,
       prepare E file = Returns (size, fobj) /\ h_read fobj = Some m /\
       map (chunk_of m) (reads part_size fobj) = part_chunks evs ++ rest).
Proof.
  destruct (multipart_upload_run E file purpose mime_type filename part_size expires_after md5 tr)
    as (r & evs & Hrun & Hshape).
  exists r, evs. split; [exact Hrun|].
  destruct (prepare E file) as [[size fobj]|e].
  - destruct Hshape as (m & Hm & Hshape). cbv zeta in Hshape. right.
    exists size, fobj, m.
    destruct Hshape as [(e & _ & Hc & _) | (upload & cs & rest & Hall & Hrest)].
    + rewrite part_chunks_calls, Hc. cbn. eexists. repeat split. exact Hm.
    + destruct Hrest as [(e & _ & Hc & _) | (Hcs & _ & Hc & _)].
      * rewrite part_chunks_calls, Hc. cbn [part_chunks]. rewrite part_chunks_add.
        exists rest. repeat split; assumption.
      * rewrite part_chunks_calls, Hc. cbn [part_chunks].
        rewrite part_chunks_app, part_chunks_add. cbn [part_chunks].
        exists []. rewrite !app_nil_r. repeat split. exact Hm.
  - destruct Hshape as [_ ->]. now left.
Qed.



(** ** The complete call *)

Lemma in_complete_call uid ids md5 (tr : trace) :
  In (CallCompleteUpload uid ids md5) tr -> In (CallCompleteUpload uid ids md5) (calls tr).
Proof.
  induction tr as [|ev tr IH]; simpl; [tauto|].
  intros [->|H].
  - now left.
  - destruct ev; simpl; try right; now apply IH.
Qed.

Lemma in_calls (ev : event) (tr : trace) : In ev (calls tr) -> In ev tr.
Proof.
  induction tr as [|ev' tr IH]; simpl; [tauto|].
  destruct ev'; simpl; intros H; try (right; now apply IH);
    (destruct H as [H|H]; [now left | right; now apply IH]).
Qed.

Lemma in_completions (u : Upload.t) (tr : trace) :
  In (RetCompleteUpload u) tr <-> In u (completions tr).
Proof.
  induction tr as [|ev tr IH]; simpl; [tauto|].
  destruct IH as [IH1 IH2].
  destruct ev; simpl; intuition congruence.
Qed.

Lemma not_in_add_calls uid ids md5 uid' (cs : list FileLike) :
  ~ In (CallCompleteUpload uid ids md5) (map (CallAddUploadPart uid') cs).
Proof. intros H. apply in_map_iff in H as (x & Hx & _). discriminate. Qed.

(** When a run calls [complete_upload], it has prepared the stream and
    created the upload, passed every chunk the stream handed out to
    [add_upload_part], up to an empty read, got a part back for each,
    and it completes with the ids of those parts, in order. *)
Lemma complete_call_shape E file purpose mime_type filename part_size expires_after md5
    r tr uid ids md5' :
  multipart_upload E file purpose mime_type filename part_size expires_after md5 []
    = Some (r, tr) ->
  In (CallCompleteUpload uid ids md5') tr ->
  exists size fobj m,
    prepare E file = Returns (size, fobj) /\ h_read fobj = Some m /\
    part_chunks tr = map (chunk_of m) (reads part_size fobj) /\
    reads_end part_size fobj = None /\
    length (parts_returned tr) = length (part_chunks tr) /\
    ids = map UploadPart.id (parts_returned tr) /\
    md5' = md5 /\
    calls tr =
      CallCreateUpload size (upload_name filename fobj) mime_type purpose expires_after
        :: map (CallAddUploadPart uid) (part_chunks tr)
        ++ [CallCompleteUpload uid ids md5].
Proof.
  intros Hrun Hin. apply in_complete_call in Hin.
  destruct (multipart_upload_run E file purpose mime_type filename part_size expires_after md5 [])
    as (r' & evs & Hrun' & Hshape).
  rewrite Hrun in Hrun'. cbn [app] in Hrun'. injection Hrun' as <- <-.
  destruct (prepare E file) as [[size fobj]|e].
  2:{ destruct Hshape as [_ ->]. contradiction. }
  destruct Hshape as (m & Hm & Hshape). cbv zeta in Hshape.
  exists size, fobj, m. split; [reflexivity|]. split; [exact Hm|].
  destruct Hshape as [(e & _ & Hc & _) | (upload & cs & rest & Hall & Hrest)].
  { rewrite Hc in Hin. destruct Hin as [Hin|[]]. discriminate. }
  destruct Hrest as [(e & _ & Hc & _) | (Hcs & Hlen & Hc & Hend & _)].
  { rewrite Hc in Hin. destruct Hin as [Hin|Hin]; [discriminate|].
    now apply not_in_add_calls in Hin. }
  assert (part_chunks tr = map (chunk_of m) (reads part_size fobj)) as Hpc.
  { rewrite part_chunks_calls, Hc. cbn [part_chunks].
    rewrite part_chunks_app, part_chunks_add. cbn [part_chunks]. apply app_nil_r. }
  rewrite Hc in Hin. destruct Hin as [Hin|Hin]; [discriminate|].
  apply in_app_or in Hin as [Hin|[Hin|[]]]; [now apply not_in_add_calls in Hin|].
  injection Hin as <- <- <-.
  rewrite Hpc. repeat split; assumption.
Qed.

(** ** Fresh sources *)

Lemma prepare_fresh E file data size fobj :
  fresh_source E file data ->
  prepare E file = Returns (size, fobj) ->
  h_read fobj = Some ReadBytes /\ remaining fobj = data.
Proof.
  destruct file as [p|b|h]; cbn [fresh_source].
  - intros [Hnul Hfs]. rewrite prepare_path, Hnul, Hfs. intros [= _ <-]. now split.
  - intros -> [= _ <-]. now split.
  - intros (Hread & Hdata & Hpos) Hprep.
    assert (remaining h = data) as Hrem by (unfold remaining; now rewrite Hpos, Hdata).
    destruct (prepare_object _ _ _ _ Hprep) as [(_ & ->) | (_ & _ & _ & _ & ->)].
    + now split.
    + split; [exact Hread|]. unfold remaining. cbn. exact Hdata.
Qed.

Lemma chunks_full size rest :
  0 < size -> (Z.to_nat size < length rest)%nat ->
  chunks size rest =
    firstn (Z.to_nat size) rest :: chunks size (skipn (Z.to_nat size) rest).
Proof.
  intros Hsize Hlt.
  assert (take size rest = firstn (Z.to_nat size) rest) as Ht
    by (unfold take; now destruct (Z.ltb_spec size 0); [lia|]).
  assert (length (take size rest) = Z.to_nat size) as Hl
    by (rewrite Ht, length_firstn; lia).
  destruct (take size rest) as [|b c] eqn:Hbc; [simpl in Hl; lia|].
  rewrite (chunks_cons _ _ _ _ Hbc), Hl, Ht. reflexivity.
Qed.

Lemma chunks_last size rest :
  0 < size -> rest <> [] -> (length rest <= Z.to_nat size)%nat ->
  chunks size rest = [rest].
Proof.
  intros Hsize Hne Hle.
  assert (take size rest = rest) as Ht.
  { unfold take. destruct (Z.ltb_spec size 0); [lia|]. now apply firstn_all2. }
  destruct rest as [|b c]; [contradiction|].
  rewrite (chunks_cons _ _ _ _ Ht), skipn_all.
  rewrite (chunks_nil size [] (take_nil size)). reflexivity.
Qed.

(** Scenario A, for any unit [u] of size (a byte, a MiB): 150 units
    read 64 units at a time come as 64, 64 and 22 units. *)
Lemma chunks_150_by_64 (u : Z) (data : bytes) :
  0 < u -> Z.of_nat (length data) = 150 * u ->
  exists c1 c2 c3,
    chunks (64 * u) data = [c1; c2; c3] /\
    data = c1 ++ c2 ++ c3 /\
    Z.of_nat (length c1) = 64 * u /\
    Z.of_nat (length c2) = 64 * u /\
    Z.of_nat (length c3) = 22 * u.
Proof.
  intros Hu Hlen.
  set (n := Z.to_nat (64 * u)).
  exists (firstn n data), (firstn n (skipn n data)), (skipn n (skipn n data)).
  assert (length data = (150 * Z.to_nat u)%nat) as Hd by lia.
  assert (n = (64 * Z.to_nat u)%nat) as Hn by (unfold n; lia).
  assert (0 < Z.to_nat u)%nat as Hu' by lia.
  split.
  - rewrite chunks_full by (fold n; lia). fold n.
    rewrite chunks_full by (fold n; rewrite ?length_skipn; lia). fold n.
    rewrite chunks_last; [reflexivity | lia | |].
    + intros Hnil. apply (f_equal (@List.length byte)) in Hnil.
      rewrite !length_skipn in Hnil. simpl in Hnil. lia.
    + fold n. rewrite !length_skipn. lia.
  - rewrite !length_firstn, !length_skipn.
    split; [now rewrite !firstn_skipn|]. lia.
Qed.

(** ** A transport that answers *)

Lemma create_upload_answers E size filename mime_type purpose expires_after tr :
  answers E ->
  exists u evs,
    create_upload E size filename mime_type purpose expires_after tr
      = Some (Returns u, tr ++ evs).
Proof.
  intros Hans. unfold create_upload, bind, emit, post, lift, ret.
  destruct (post_reply E _ _) as [resp|e] eqn:Hp;
    match type of Hp with
    | post_reply E ?h ?rq = _ => destruct (Hans h rq) as (j & u & Hj & Hu & _)
    end; rewrite Hj in Hp; [|discriminate].
  injection Hp as <-. rewrite Hu.
  eexists _, _. rewrite <- !app_assoc. reflexivity.
Qed.

Lemma add_upload_part_answers E uid (b : bytes) tr :
  answers E ->
  exists p evs, add_upload_part E uid (FBytes b) tr = Some (Returns p, tr ++ evs).
Proof.
  intros Hans. unfold add_upload_part, bind, emit, post, lift, ret. cbn [_coerce_file].
  destruct (post_reply E _ _) as [resp|e] eqn:Hp;
    match type of Hp with
    | post_reply E ?h ?rq = _ => destruct (Hans h rq) as (j & p & Hj & Hpart)
    end; rewrite Hj in Hp; [|discriminate].
  injection Hp as <-. rewrite Hpart.
  eexists _, _. rewrite <- !app_assoc. reflexivity.
Qed.

(** On a transport that answers, the loop over a binary stream whose
    reads do not raise returns. *)
Lemma add_parts_answers E uid size : forall fuel fobj ids tr,
  answers E ->
  h_read fobj = Some ReadBytes ->
  (length (remaining fobj) < fuel)%nat ->
  reads_end_upto fuel size fobj = None ->
  exists ids' evs, add_parts E fuel uid size fobj ids tr = Some (Returns ids', tr ++ evs).
Proof.
  induction fuel as [|fuel IH]; intros fobj ids tr Hans Hread Hfuel Hend; [lia|].
  cbn [add_parts reads_end_upto] in *. rewrite bind_lift. unfold read. rewrite Hread.
  destruct (h_deliver fobj (h_pos fobj) (Some size)) as [n|e]; [|discriminate].
  cbn iota beta zeta. rewrite is_empty_chunk.
  destruct (take (granted n size) (remaining fobj)) as [|b c] eqn:Ht.
  - exists ids, []. now rewrite app_nil_r.
  - cbn [chunk_of].
    destruct (add_upload_part_answers E uid (b :: c) tr Hans) as (p & evs1 & Hrun).
    rewrite (bind_returns _ _ _ _ _ Hrun).
    pose proof (take_length (granted n size) (remaining fobj)) as Hl. rewrite Ht in Hl.
    destruct (IH (set_pos fobj (h_pos fobj + length (b :: c)))
                 (ids ++ [UploadPart.id p]) (tr ++ evs1) Hans Hread)
      as (ids' & evs2 & Hrun2).
    { rewrite remaining_advance, length_skipn. simpl in *. lia. }
    { exact Hend. }
    exists ids', (evs1 ++ evs2). now rewrite app_assoc.
Qed.

(** On a transport that answers, a run over a binary stream whose reads
    do not raise gets to [complete_upload]. *)
Lemma run_reaches_complete E file purpose mime_type filename part_size expires_after md5
    size fobj :
  answers E ->
  prepare E file = Returns (size, fobj) ->
  h_read fobj = Some ReadBytes ->
  reads_end part_size fobj = None ->
  exists r tr uid ids,
    multipart_upload E file purpose mime_type filename part_size expires_after md5 []
      = Some (r, tr) /\
    In (CallCompleteUpload uid ids md5) tr.
Proof.
  intros Hans Hprep Hread Hend.
  unfold multipart_upload. unfold prepare in Hprep. rewrite bind_lift.
  destruct (_infer_size E file) as [[size1 file1]|e]; cbn [bindR] in Hprep;
    [|discriminate].
  rewrite bind_lift.
  destruct (_coerce_file E file1) as [fobj1|e]; cbn [bindR] in Hprep; [|discriminate].
  injection Hprep as -> ->.
  fold (upload_name filename fobj).
  destruct (create_upload_answers E size (upload_name filename fobj) mime_type purpose
              expires_after [] Hans) as (upload & evs1 & Hrun1).
  rewrite (bind_returns _ _ _ _ _ Hrun1).
  destruct (add_parts_answers E (Upload.id upload) part_size (enough_fuel fobj) fobj []
              ([] ++ evs1) Hans Hread) as (ids & evs2 & Hrun2).
  { unfold enough_fuel. lia. }
  { exact Hend. }
  rewrite (bind_returns _ _ _ _ _ Hrun2).
  destruct (complete_upload_footprint E (Upload.id upload) ids md5 (([] ++ evs1) ++ evs2))
    as (r3 & evs3 & Hrun3 & Hc3 & _).
  assert (In (CallCompleteUpload (Upload.id upload) ids md5) ((([] ++ evs1) ++ evs2) ++ evs3))
    as Hin.
  { apply in_or_app. right. apply in_calls. rewrite Hc3. now left. }
  destruct r3 as [u|e].
  - rewrite (bind_returns _ _ _ _ _ Hrun3).
    destruct (Upload.file u); eexists _, _, _, _; (split; [reflexivity | exact Hin]).
  - rewrite (bind_raises _ _ _ _ _ Hrun3).
    eexists _, _, _, _. split; [reflexivity | exact Hin].
Qed.

(** C6, as the code has it.  Whenever [multipart_upload] calls
    [complete_upload], it does so once, after [create_upload] and the
    [add_upload_part] calls, with the ids of the parts those calls
    returned, one per chunk, in the order of the calls, which is the
    order the chunks were read.  For a source of 150 units that is
    read in full (bytes, a path, a stream whose reads are not short),
    read 64 units at a time (150 MiB and 64 MiB for the unit 1048576):
    on a transport that answers, the run gets to [complete_upload];
    and when it does, the calls are exactly three [add_upload_part]
    calls, with chunks of 64, 64 and 22 units that make up the source,
    then the one [complete_upload] call with the three part ids in that
    order. *)
Theorem part_ids_in_order E file purpose mime_type filename part_size expires_after md5
    r tr :
  multipart_upload E file purpose mime_type filename part_size expires_after md5 []
    = Some (r, tr) ->
  (forall uid ids md5',
     In (CallCompleteUpload uid ids md5') tr ->
     ids = map UploadPart.id (parts_returned tr) /\
     length (parts_returned tr) = length (part_chunks tr) /\
     md5' = md5 /\
     exists size name,
       calls tr =
         CallCreateUpload size name mime_type purpose expires_after
           :: map (CallAddUploadPart uid) (part_chunks tr)
           ++ [CallCompleteUpload uid ids md5]) /\
  (forall (data : bytes) (u : Z),
     fresh_source E file data -> reads_in_full file ->
     0 < u -> Z.of_nat (length data) = 150 * u -> part_size = 64 * u ->
     (answers E -> expiry_converts E expires_after = true -> measurable E file ->
      exists uid ids, In (CallCompleteUpload uid ids md5) tr) /\
     (forall uid ids md5',
        In (CallCompleteUpload uid ids md5') tr ->
        exists c1 c2 c3 p1 p2 p3,
          data = c1 ++ c2 ++ c3 /\
          Z.of_nat (length c1) = 64 * u /\
          Z.of_nat (length c2) = 64 * u /\
          Z.of_nat (length c3) = 22 * u /\
          parts_returned tr = [p1; p2; p3] /\
          ids = [UploadPart.id p1; UploadPart.id p2; UploadPart.id p3] /\
          exists size name,
            calls tr =
              [ CallCreateUpload size name mime_type purpose expires_after;
                CallAddUploadPart uid (FBytes c1);
                CallAddUploadPart uid (FBytes c2);
                CallAddUploadPart uid (FBytes c3);
                CallCompleteUpload uid ids md5 ])).
Proof.
  intros Hrun. split.
  { intros uid ids md5' Hin.
    destruct (complete_call_shape _ _ _ _ _ _ _ _ _ _ _ _ _ Hrun Hin)
      as (size & fobj & m & Hprep & Hm & Hpc & _ & Hlen & Hids & Hmd5 & Hcalls).
    repeat split; try assumption. now exists size, (upload_name filename fobj). }
  intros data u Hfresh Hfull Hu Hdata Hsize. split.
  { intros Hans _ (size & fobj & Hprep).
    destruct (prepare_fresh _ _ _ _ _ Hfresh Hprep) as [Hread Hrem].
    destruct (reads_in_full_chunks part_size fobj ltac:(lia)
                (prepare_in_full _ _ _ _ Hfull Hprep)) as [_ Hend].
    destruct (run_reaches_complete E file purpose mime_type filename part_size expires_after
                md5 size fobj Hans Hprep Hread Hend) as (r' & tr' & uid & ids & Hrun' & Hin).
    rewrite Hrun in Hrun'. injection Hrun' as <- <-. now exists uid, ids. }
  intros uid ids md5' Hin.
  destruct (complete_call_shape _ _ _ _ _ _ _ _ _ _ _ _ _ Hrun Hin)
    as (size & fobj & m & Hprep & Hm & Hpc & _ & Hlen & Hids & Hmd5 & Hcalls).
  destruct (prepare_fresh _ _ _ _ _ Hfresh Hprep) as [Hread Hrem].
  rewrite Hm in Hread. injection Hread as ->.
  destruct (reads_in_full_chunks part_size fobj ltac:(lia)
              (prepare_in_full _ _ _ _ Hfull Hprep)) as [Heq _].
  destruct (chunks_150_by_64 u data Hu Hdata) as (c1 & c2 & c3 & Hch & Hcat & H1 & H2 & H3).
  rewrite Heq, Hrem, Hsize, Hch in Hpc. cbn [map chunk_of] in Hpc.
  rewrite Hpc in Hlen, Hcalls. cbn [List.length] in Hlen.
  destruct (parts_returned tr) as [|p1 [|p2 [|p3 [|p4 l]]]]; try discriminate.
  exists c1, c2, c3, p1, p2, p3.
  repeat split; try assumption.
  exists size, (upload_name filename fobj). exact Hcalls.
Qed.

(** The claim as it was stated fails at a raw stream that hands out at
    most 40 bytes at a time: its 150 bytes, read 64 at a time, go to
    [add_upload_part] in four calls, and the upload is completed with
    four part ids. *)
Lemma slow_stream_takes_four_parts :
  exists r tr ids,
    Demo.upload_of Demo.E (FObject Demo.a_slow_stream) 64 = Some (r, tr) /\
    map len (part_chunks tr) = [40; 40; 40; 30] /\
    In (CallCompleteUpload (JStr "upload_abc") ids None) tr /\
    length ids = 4%nat.
Proof.
  eexists _, _, _. split; [vm_compute; reflexivity|].
  split; [now vm_compute|].
  split; [vm_compute; repeat (first [left; reflexivity | right]) | reflexivity].
Qed.

(** C7.  When [complete_upload] returns an upload without its nested
    file, [multipart_upload] raises [RuntimeError]; when the file is
    there, [multipart_upload] returns that file.  It returns no file
    but the one of an upload that [complete_upload] returned. *)
Theorem completed_upload_file E file purpose mime_type filename part_size expires_after md5
    r tr :
  multipart_upload E file purpose mime_type filename part_size expires_after md5 []
    = Some (r, tr) ->
  (forall u, In (RetCompleteUpload u) tr ->
     match Upload.file u with
     | None =>
         r = Raises (RuntimeError ("Upload " ++ str (Upload.id u)
                                     ++ " completed but no file was returned."))
     | Some f => r = Returns f
     end) /\
  (forall f, r = Returns f ->
     exists u, In (RetCompleteUpload u) tr /\ Upload.file u = Some f).
Proof.
  intros Hrun.
  destruct (multipart_upload_run E file purpose mime_type filename part_size expires_after md5 [])
    as (r' & evs & Hrun' & Hshape).
  rewrite Hrun in Hrun'. cbn [app] in Hrun'. injection Hrun' as <- <-.
  assert (forall u, In u (completions tr) ->
            completions tr = [u] /\
            r = match Upload.file u with
                | Some f => Returns f
                | None => Raises (no_file_error u)
                end) as Hcompl.
  { intros u Hin. destruct (prepare E file) as [[size fobj]|e].
    2:{ destruct Hshape as [_ ->]. contradiction. }
    destruct Hshape as (m & _ & Hshape). cbv zeta in Hshape.
    destruct Hshape as [(e & _ & _ & _ & Hu) | (upload & cs & rest & _ & Hrest)].
    { rewrite Hu in Hin. contradiction. }
    destruct Hrest as [(e & _ & _ & _ & Hu) | (_ & _ & _ & _ & Hend)].
    { rewrite Hu in Hin. contradiction. }
    destruct Hend as [(e & _ & Hu) | (u' & Hu & Hr)].
    { rewrite Hu in Hin. contradiction. }
    rewrite Hu in Hin. destruct Hin as [->|[]]. now split. }
  split.
  - intros u Hin. apply in_completions in Hin.
    destruct (Hcompl u Hin) as [_ Hr].
    unfold no_file_error in Hr. now destruct (Upload.file u).
  - intros f ->.
    destruct (prepare E file) as [[size fobj]|e].
    2:{ destruct Hshape as [Hr _]. discriminate. }
    destruct Hshape as (m & _ & Hshape). cbv zeta in Hshape.
    destruct Hshape as [(e & Hr & _) | (upload & cs & rest & _ & Hrest)]; [discriminate|].
    destruct Hrest as [(e & Hr & _) | (_ & _ & _ & _ & Hend)]; [discriminate|].
    destruct Hend as [(e & Hr & _) | (u & Hu & Hr)]; [discriminate|].
    exists u. split.
    + apply in_completions. rewrite Hu. now left.
    + destruct (Upload.file u); [now injection Hr as -> | discriminate].
Qed.

(** What stops a run before any call stops it with the trace as it
    was. *)
Lemma prepare_failure E file purpose mime_type filename part_size expires_after md5 tr e :
  prepare E file = Raises e ->
  multipart_upload E file purpose mime_type filename part_size expires_after md5 tr
    = Some (Raises e, tr).
Proof.
  intros Hprep.
  destruct (multipart_upload_run E file purpose mime_type filename part_size expires_after md5 tr)
    as (r & evs & Hrun & Hshape).
  rewrite Hprep in Hshape. destruct Hshape as [-> ->].
  now rewrite app_nil_r in Hrun.
Qed.




(** ** The declared size *)

(** For a path, for bytes, and for a binary stream at its start whose
    file descriptor, when it has one, reports the length of its data,
    the size [multipart_upload] goes on with is the number of bytes of
    the source. *)
Lemma prepare_fresh_size E file data size fobj :
  fresh_source E file data ->
  (forall h st, file = FObject h -> h_fileno h = Some (FilenoInt (Returns st)) ->
     st = Z.of_nat (length data)) ->
  prepare E file = Returns (size, fobj) ->
  size = Z.of_nat (length data).
Proof.
  destruct file as [p|b|h]; cbn [fresh_source].
  - intros [Hnul Hfs] _. rewrite prepare_path, Hnul, Hfs. now intros [= <- _].
  - intros -> _. now intros [= <- _].
  - intros (Hread & Hdata & Hpos) Hst Hprep.
    assert (remaining h = data) as Hrem by (unfold remaining; now rewrite Hpos, Hdata).
    destruct (prepare_object _ _ _ _ Hprep) as [(Hf & _) | (_ & _ & _ & -> & _)].
    + now apply (Hst h size).
    + now rewrite Hrem.
Qed.

Lemma declared_sizes_of_run E file purpose mime_type filename part_size expires_after md5
    r tr :
  multipart_upload E file purpose mime_type filename part_size expires_after md5 []
    = Some (r, tr) ->
  match prepare E file with
  | Returns (size, _) => declared_sizes tr = [size]
  | Raises _ => declared_sizes tr = []
  end.
Proof.
  intros Hrun.
  destruct (multipart_upload_run E file purpose mime_type filename part_size expires_after md5 [])
    as (r' & evs & Hrun' & Hshape).
  rewrite Hrun in Hrun'. cbn [app] in Hrun'. injection Hrun' as <- <-.
  destruct (prepare E file) as [[size fobj]|e] eqn:Hprep.
  2:{ destruct Hshape as [_ ->]. reflexivity. }
  destruct Hshape as (m & _ & Hshape). cbv zeta in Hshape.
  rewrite declared_sizes_calls.
  destruct Hshape as [(e & _ & Hc & _) | (upload & cs & rest & _ & Hrest)].
  { now rewrite Hc. }
  assert (forall uid l tail, declared_sizes (map (CallAddUploadPart uid) l ++ tail)
                             = declared_sizes tail) as Hskip.
  { intros uid l tail. induction l as [|c l IH]; [reflexivity | exact IH]. }
  destruct Hrest as [(e & _ & Hc & _) | (_ & _ & Hc & _)]; rewrite Hc; cbn [declared_sizes].
  - f_equal. rewrite <- (app_nil_r (map _ cs)). apply Hskip.
  - f_equal. apply Hskip.
Qed.

Lemma declared_size_of_fresh_source E file purpose mime_type filename part_size
    expires_after md5 r tr data :
  fresh_source E file data ->
  (forall h st, file = FObject h -> h_fileno h = Some (FilenoInt (Returns st)) ->
     st = Z.of_nat (length data)) ->
  multipart_upload E file purpose mime_type filename part_size expires_after md5 []
    = Some (r, tr) ->
  declared_sizes tr = [] \/ declared_sizes tr = [Z.of_nat (length data)].
Proof.
  intros Hfresh Hst Hrun.
  pose proof (declared_sizes_of_run _ _ _ _ _ _ _ _ _ _ Hrun) as Hd.
  destruct (prepare E file) as [[size fobj]|e] eqn:Hprep; [|now left].
  right. now rewrite <- (prepare_fresh_size _ _ _ _ _ Hfresh Hst Hprep).
Qed.

(** C9, at a stream that is not at its start: [io.BytesIO] over six
    bytes of which two were read.  The size passed to [create_upload]
    is 4, the bytes left, while the stream is then read from its start
    and all six bytes of the source are uploaded, as chunks of 4 and 2. *)
Theorem partly_read_stream_declares_remainder :
  exists r tr,
    Demo.upload_of Demo.E (FObject Demo.consumed) 4 = Some (r, tr) /\
    Z.of_nat (length (h_data Demo.consumed)) = 6 /\
    declared_sizes tr = [4] /\
    map len (part_chunks tr) = [4; 2].
Proof. eexists _, _. split; [vm_compute; reflexivity|]. now vm_compute. Qed.

(** The same gap on the other path of [_infer_size]: the size of a
    pipe is declared as 0, and its six bytes are uploaded. *)
Example pipe_declares_zero :
  exists r tr,
    Demo.upload_of Demo.E (FObject Demo.a_pipe) 4 = Some (r, tr) /\
    declared_sizes tr = [0] /\
    map len (part_chunks tr) = [4; 2].
Proof. eexists _, _. split; [vm_compute; reflexivity|]. now vm_compute. Qed.

(** Every run of [multipart_upload] ends. *)
Lemma multipart_upload_terminates E file purpose mime_type filename part_size
    expires_after md5 tr :
  exists r tr',
    multipart_upload E file purpose mime_type filename part_size expires_after md5 tr
      = Some (r, tr').
Proof.
  destruct (multipart_upload_run E file purpose mime_type filename part_size expires_after md5 tr)
    as (r & evs & Hrun & _).
  now exists r, (tr ++ evs).
Qed.

(** ** The theorems at the runs of the examples *)

Lemma run15_eq : Demo.upload_of Demo.E (FBytes (Demo.blob 15)) 6 = Demo.run15.
Proof. vm_compute. reflexivity. Qed.

Lemma run150_eq :
  Demo.upload_of Demo.E (FBytes (Demo.blob 150)) 64
    = Some (Demo.result_of Demo.run150, Demo.trace_of Demo.run150).
Proof. vm_compute. reflexivity. Qed.

Lemma run_no_file_eq :
  Demo.upload_of Demo.E_no_file (FBytes (Demo.blob 15)) 6
    = Some (Demo.result_of Demo.run_no_file, Demo.trace_of Demo.run_no_file).
Proof. vm_compute. reflexivity. Qed.

Lemma demo_answers : answers Demo.E.
Proof.
  intros history rq. destruct (rq_body rq) as [|[| | | | | |body]|fields] eqn:Hbody;
    try exact I.
  - cbn. unfold Demo.reply. rewrite Hbody.
    destruct (lookup body "part_ids"); eexists _, _; repeat split; reflexivity.
  - cbn. unfold Demo.reply. rewrite Hbody. eexists _, _. split; reflexivity.
Qed.


(** The last chunk may be smaller. *)
Example last_chunk_smaller :
  map len (part_chunks (Demo.trace_of Demo.run15)) = [6; 6; 3].
Proof. vm_compute. reflexivity. Qed.

Lemma part_ids_in_order_witness :
  (exists uid ids, In (CallCompleteUpload uid ids None) (Demo.trace_of Demo.run150)) /\
  [JStr "part_1"; JStr "part_2"; JStr "part_3"]
    = map UploadPart.id (parts_returned (Demo.trace_of Demo.run150)) /\
  exists c1 c2 c3 p1 p2 p3,
    Demo.blob 150 = c1 ++ c2 ++ c3 /\
    Z.of_nat (length c1) = 64 /\ Z.of_nat (length c2) = 64 /\ Z.of_nat (length c3) = 22 /\
    parts_returned (Demo.trace_of Demo.run150) = [p1; p2; p3] /\
    [JStr "part_1"; JStr "part_2"; JStr "part_3"]
      = [UploadPart.id p1; UploadPart.id p2; UploadPart.id p3] /\
    exists size name,
      calls (Demo.trace_of Demo.run150) =
        [ CallCreateUpload size name "application/octet-stream" "fine-tune" None;
          CallAddUploadPart (JStr "upload_abc") (FBytes c1);
          CallAddUploadPart (JStr "upload_abc") (FBytes c2);
          CallAddUploadPart (JStr "upload_abc") (FBytes c3);
          CallCompleteUpload (JStr "upload_abc")
            [JStr "part_1"; JStr "part_2"; JStr "part_3"] None ].
Proof.
  assert (In (CallCompleteUpload (JStr "upload_abc")
                [JStr "part_1"; JStr "part_2"; JStr "part_3"] None)
             (Demo.trace_of Demo.run150)) as Hin.
  { vm_compute. repeat (first [left; reflexivity | right]). }
  destruct (part_ids_in_order Demo.E (FBytes (Demo.blob 150)) "fine-tune"
              "application/octet-stream" None 64 None None _ _ run150_eq)
    as [Horder Hscenario].
  destruct (Hscenario (Demo.blob 150) 1 eq_refl I eq_refl eq_refl eq_refl)
    as [Hreached Hcalls].
  split.
  { apply Hreached; [exact demo_answers | reflexivity |]. eexists _, _. reflexivity. }
  split; [exact (proj1 (Horder _ _ _ Hin))|].
  exact (Hcalls _ _ _ Hin).
Defined.

Lemma completed_upload_file_witness :
  (forall u, In (RetCompleteUpload u) (Demo.trace_of Demo.run_no_file) ->
     match Upload.file u with
     | None =>
         Demo.result_of Demo.run_no_file
           = Raises (RuntimeError ("Upload " ++ str (Upload.id u)
                                     ++ " completed but no file was returned."))
     | Some f => Demo.result_of Demo.run_no_file = Returns f
     end) /\
  (forall f, Demo.result_of Demo.run_no_file = Returns f ->
     exists u, In (RetCompleteUpload u) (Demo.trace_of Demo.run_no_file)
               /\ Upload.file u = Some f).
Proof.
  exact (completed_upload_file Demo.E_no_file (FBytes (Demo.blob 15)) "fine-tune"
           "application/octet-stream" None 6 None None _ _ run_no_file_eq).
Defined.

(** Completion without a file, and with one. *)
Example missing_file_raises :
  Demo.result_of Demo.run_no_file
    = Raises (RuntimeError "Upload upload_abc completed but no file was returned.").
Proof. vm_compute. reflexivity. Qed.

Example scenario_A_file :
  exists f, Demo.result_of Demo.run150 = Returns f /\ File.bytes f = 150.
Proof. eexists. split; [vm_compute; reflexivity|]. reflexivity. Qed.


(** The two messages, and a closed file, whose [fileno()] raises
    [ValueError]. *)
Example unsupported_messages :
  Demo.upload_of Demo.E (FObject Demo.an_int) 6
    = Some (Raises (TypeError "Unable to infer size for: <class 'int'>"), []) /\
  Demo.upload_of Demo.E (FObject Demo.a_socket) 6
    = Some (Raises (TypeError "Unsupported file type for upload: <class 'socket.socket'>"), []) /\
  Demo.upload_of Demo.E (FObject Demo.closed_file) 6
    = Some (Raises (ValueError "I/O operation on closed file"), []).
Proof. repeat split; vm_compute; reflexivity. Qed.

(** With the client of the repository, whose [post] does not take
    [data], no part is ever added: the run stops at the first chunk
    with [TypeError], after the request that created the upload. *)
Example repository_client_stops_at_the_first_part :
  exists tr,
    Demo.upload_of Demo2.E_httpx (FBytes (Demo.blob 150)) 64
      = Some (Raises (TypeError "post() got an unexpected keyword argument 'data'"), tr) /\
    map len (part_chunks tr) = [64] /\
    parts_returned tr = [] /\
    completions tr = [].
Proof. eexists. split; [vm_compute; reflexivity|]. now vm_compute. Qed.

(** Scenario A in MiB: 150 MiB read 64 MiB at a time. *)
Corollary scenario_A_MiB (data : bytes) :
  Z.of_nat (length data) = 150 * 1024 * 1024 ->
  exists c1 c2 c3,
    chunks default_part_size data = [c1; c2; c3] /\
    data = c1 ++ c2 ++ c3 /\
    Z.of_nat (length c1) = 64 * 1024 * 1024 /\
    Z.of_nat (length c2) = 64 * 1024 * 1024 /\
    Z.of_nat (length c3) = 22 * 1024 * 1024.
Proof.
  intros Hlen.
  destruct (chunks_150_by_64 (1024 * 1024) data) as (c1 & c2 & c3 & H); [lia | lia |].
  exists c1, c2, c3. unfold default_part_size.
  replace (64 * 1024 * 1024) with (64 * (1024 * 1024)) by lia.
  replace (22 * 1024 * 1024) with (22 * (1024 * 1024)) by lia.
  exact H.
Qed.

End UploadsFacts.

(* ================================================================== *)
(** * More properties of the upload coordinator *)
(* ================================================================== *)

Module UploadsMore.
Import Py Uploads UploadsViews UploadsFacts.
Import StreamingViews.

Local Open Scope list_scope.
Local Abbreviation length := (@List.length _).

(** ** Chunks *)

Lemma take_skip size rest :
  take size rest ++ skipn (length (take size rest)) rest = rest.
Proof.
  unfold take. destruct (size <? 0).
  - rewrite skipn_all. apply app_nil_r.
  - rewrite length_firstn.
    destruct (Nat.le_ge_cases (Z.to_nat size) (length rest)) as [H|H].
    + rewrite Nat.min_l by exact H. apply firstn_skipn.
    + rewrite Nat.min_r by exact H. rewrite firstn_all2 by exact H.
      rewrite skipn_all. apply app_nil_r.
Qed.

Lemma take_nil_inv size rest : size <> 0 -> take size rest = [] -> rest = [].
Proof.
  unfold take. intros Hs. destruct (Z.ltb_spec size 0); [easy|].
  destruct rest as [|b c]; [reflexivity|].
  destruct (Z.to_nat size) eqn:Hn; [lia | discriminate].
Qed.

Lemma concat_chunks_upto size : size <> 0 -> forall fuel rest,
  (length rest <= fuel)%nat -> List.concat (chunks_upto fuel size rest) = rest.
Proof.
  intros Hs. induction fuel as [|fuel IH]; intros rest Hf.
  - destruct rest; [reflexivity | simpl in Hf; lia].
  - cbn [chunks_upto]. destruct (take size rest) as [|b c] eqn:Ht.
    + symmetry. now apply (take_nil_inv size).
    + cbn [List.concat]. pose proof (take_length size rest) as Hl. rewrite Ht in Hl.
      rewrite IH by (rewrite length_skipn; simpl in *; lia).
      rewrite <- Ht at 1. rewrite <- Ht. apply take_skip.
Qed.

(** The chunks of some bytes, put end to end, are those bytes. *)
Lemma concat_chunks size rest : size <> 0 -> List.concat (chunks size rest) = rest.
Proof. intros Hs. apply concat_chunks_upto; [exact Hs | lia]. Qed.

Lemma chunks_zero rest : chunks 0 rest = [].
Proof. apply chunks_nil. reflexivity. Qed.

Lemma chunks_of_nil size : chunks size [] = [].
Proof. apply chunks_nil, take_nil. Qed.

Lemma chunks_whole size rest : size < 0 -> rest <> [] -> chunks size rest = [rest].
Proof.
  intros Hs Hne.
  assert (take size rest = rest) as Ht
    by (unfold take; now destruct (Z.ltb_spec size 0); [|lia]).
  destruct rest as [|b c]; [contradiction|].
  rewrite (chunks_cons _ _ _ _ Ht), skipn_all, chunks_of_nil. reflexivity.
Qed.

(** The number of chunks: the length over the size, rounded up. *)
Lemma length_chunks size : 0 < size -> forall n rest,
  length rest = n ->
  Z.of_nat (length (chunks size rest)) = (Z.of_nat n + size - 1) / size.
Proof.
  intros Hs. induction n as [n IH] using lt_wf_ind. intros rest Hn.
  destruct rest as [|b c] eqn:Hrest.
  - subst n. rewrite chunks_of_nil. cbn [List.length].
    symmetry. apply Z.div_small. lia.
  - rewrite <- Hrest in *. assert (rest <> []) as Hne by (rewrite Hrest; discriminate).
    destruct (Nat.le_gt_cases (length rest) (Z.to_nat size)) as [Hle|Hgt].
    + rewrite chunks_last by (assumption || lia). cbn [List.length].
      assert (0 < Z.of_nat n) by (subst n rest; cbn [List.length]; lia).
      apply Z.div_unique with (r := Z.of_nat n - 1); lia.
    + rewrite chunks_full by (assumption || lia). cbn [List.length].
      rewrite Nat2Z.inj_succ.
      rewrite (IH (n - Z.to_nat size)%nat) by (try rewrite length_skipn; lia).
      replace (Z.of_nat n + size - 1)
        with (Z.of_nat (n - Z.to_nat size) + size - 1 + 1 * size) by lia.
      rewrite Z.div_add by lia. lia.
Qed.

(** ** What a stream hands out, put end to end *)

Lemma granted_nonzero n size : size <> 0 -> granted n size <> 0.
Proof. intros H. unfold granted. destruct (Z.ltb_spec size 0); lia. Qed.

Lemma reads_upto_nil fuel size h : remaining h = [] -> reads_upto fuel size h = [].
Proof.
  intros Hnil. destruct fuel; cbn [reads_upto]; [reflexivity|].
  destruct (h_deliver h (h_pos h) (Some size)); [|reflexivity].
  now rewrite Hnil, take_nil.
Qed.


(** They are all of its bytes when the reads end at an empty read. *)
Lemma concat_reads_upto_all size : size <> 0 -> forall fuel h,
  (length (remaining h) < fuel)%nat ->
  reads_end_upto fuel size h = None ->
  List.concat (reads_upto fuel size h) = remaining h.
Proof.
  intros Hsize. induction fuel as [|fuel IH]; intros h Hfuel Hend; [lia|].
  cbn [reads_upto reads_end_upto] in *.
  destruct (h_deliver h (h_pos h) (Some size)) as [n|e]; [|discriminate].
  destruct (take (granted n size) (remaining h)) as [|b c] eqn:Ht.
  - symmetry. apply (take_nil_inv (granted n size)); [now apply granted_nonzero | exact Ht].
  - pose proof (take_length (granted n size) (remaining h)) as Hl. rewrite Ht in Hl.
    cbn [List.concat]. rewrite IH.
    + rewrite remaining_advance, <- Ht. apply take_skip.
    + rewrite remaining_advance, length_skipn. simpl in *. lia.
    + exact Hend.
Qed.

Lemma reads_zero h : reads 0 h = [].
Proof.
  unfold reads, enough_fuel. cbn [reads_upto].
  destruct (h_deliver h (h_pos h) (Some 0)) as [n|e]; [|reflexivity].
  now rewrite (granted_full n 0) by lia.
Qed.

Lemma reads_of_nothing size h : remaining h = [] -> reads size h = [].
Proof. apply reads_upto_nil. Qed.


Lemma concat_map_FBytes (l : list bytes) : List.concat (map chunk_bytes (map FBytes l)) = List.concat l.
Proof. induction l as [|b l IH]; simpl; [reflexivity | now rewrite IH]. Qed.

(** ** The chunks of a run *)

(** The chunks passed in a run are the first chunks of the stream the
    run prepared. *)
Lemma run_part_chunks E file purpose mime_type filename part_size expires_after md5 r tr :
  multipart_upload E file purpose mime_type filename part_size expires_after md5 []
    = Some (r, tr) ->
  part_chunks tr = [] \/
  exists size fobj m rest,
    prepare E file = Returns (size, fobj) /\ h_read fobj = Some m /\
    map (chunk_of m) (reads part_size fobj) = part_chunks tr ++ rest.
Proof.
  intros Hrun.
  destruct (part_chunks_prefix E file purpose mime_type filename part_size expires_after md5 [])
    as (r' & evs & Hrun' & Hpre).
  rewrite Hrun in Hrun'. cbn [app] in Hrun'. injection Hrun' as <- <-. exact Hpre.
Qed.

(** For a fresh source they are the first chunks its stream hands out;
    they are all of them, up to an empty read, when the run gets to
    complete. *)
Lemma fresh_part_chunks E file purpose mime_type filename part_size expires_after md5 r tr data :
  multipart_upload E file purpose mime_type filename part_size expires_after md5 []
    = Some (r, tr) ->
  fresh_source E file data ->
  (part_chunks tr = [] \/
   exists size fobj rest,
     prepare E file = Returns (size, fobj) /\ remaining fobj = data /\
     map FBytes (reads part_size fobj) = part_chunks tr ++ rest) /\
  (forall uid ids md5', In (CallCompleteUpload uid ids md5') tr ->
     exists size fobj,
       prepare E file = Returns (size, fobj) /\ remaining fobj = data /\
       part_chunks tr = map FBytes (reads part_size fobj) /\
       reads_end part_size fobj = None /\
       length ids = length (part_chunks tr)).
Proof.
  intros Hrun Hfresh. split.
  - destruct (run_part_chunks _ _ _ _ _ _ _ _ _ _ Hrun)
      as [Hnil | (size & fobj & m & rest & Hprep & Hm & Hpre)]; [now left|].
    destruct (prepare_fresh _ _ _ _ _ Hfresh Hprep) as [Hread Hrem].
    rewrite Hm in Hread. injection Hread as ->.
    right. now exists size, fobj, rest.
  - intros uid ids md5' Hin.
    destruct (complete_call_shape _ _ _ _ _ _ _ _ _ _ _ _ _ Hrun Hin)
      as (size & fobj & m & Hprep & Hm & Hpc & Hend & Hlen & Hids & _).
    destruct (prepare_fresh _ _ _ _ _ Hfresh Hprep) as [Hread Hrem].
    rewrite Hm in Hread. injection Hread as ->.
    exists size, fobj. repeat split; try assumption.
    rewrite Hids, length_map. exact Hlen.
Qed.


(** X2.  For a source that is read in full, a run that gets to
    [complete_upload] has passed as many chunks as the size of the
    source over [part_size], rounded up, and completes with as many
    part ids. *)
Theorem number_of_parts E file purpose mime_type filename part_size expires_after md5
    r tr data uid ids md5' :
  0 < part_size ->
  fresh_source E file data ->
  reads_in_full file ->
  multipart_upload E file purpose mime_type filename part_size expires_after md5 []
    = Some (r, tr) ->
  In (CallCompleteUpload uid ids md5') tr ->
  Z.of_nat (length (part_chunks tr)) = (Z.of_nat (length data) + part_size - 1) / part_size /\
  length ids = length (part_chunks tr).
Proof.
  intros Hsize Hfresh Hfull Hrun Hin.
  destruct (fresh_part_chunks _ _ _ _ _ _ _ _ _ _ _ Hrun Hfresh) as [_ Hall].
  destruct (Hall _ _ _ Hin) as (size & fobj & Hprep & Hrem & Hpc & _ & Hlen).
  split; [|exact Hlen].
  destruct (reads_in_full_chunks part_size fobj ltac:(lia)
              (prepare_in_full _ _ _ _ Hfull Hprep)) as [Heq _].
  rewrite Hpc, length_map, Heq, Hrem. now apply length_chunks.
Qed.

(** A raw stream makes more of them: eight bytes read four at a time
    come in three chunks. *)
Example short_reads_make_more_parts :
  exists r tr,
    Demo.upload_of Demo.E (FObject Demo.a_raw_pipe) 4 = Some (r, tr) /\
    length (part_chunks tr) = 3%nat.
Proof. eexists _, _. split; [vm_compute; reflexivity|]. reflexivity. Qed.

(** X3.  With [part_size = 0] no chunk is ever passed to
    [add_upload_part], whatever the source holds: the first read is
    empty and ends the loop, and [complete_upload], when it is called,
    gets an empty list of parts. *)
Theorem part_size_zero_uploads_nothing E file purpose mime_type filename expires_after md5 :
  exists r tr,
    multipart_upload E file purpose mime_type filename 0 expires_after md5 [] = Some (r, tr) /\
    part_chunks tr = [] /\
    (forall uid ids md5', In (CallCompleteUpload uid ids md5') tr -> ids = []).
Proof.
  destruct (multipart_upload_terminates E file purpose mime_type filename 0 expires_after md5 [])
    as (r & tr & Hrun).
  exists r, tr. split; [exact Hrun|].
  assert (part_chunks tr = []) as Hnil.
  { destruct (run_part_chunks _ _ _ _ _ _ _ _ _ _ Hrun)
      as [Hnil | (size & fobj & m & rest & _ & _ & Hpre)]; [exact Hnil|].
    rewrite reads_zero in Hpre. cbn [map] in Hpre.
    symmetry in Hpre. now apply app_eq_nil in Hpre. }
  split; [exact Hnil|].
  intros uid ids md5' Hin.
  destruct (complete_call_shape _ _ _ _ _ _ _ _ _ _ _ _ _ Hrun Hin)
    as (_ & _ & _ & _ & _ & _ & _ & Hlen & Hids & _).
  rewrite Hnil in Hlen. cbn [List.length] in Hlen.
  destruct (parts_returned tr); [exact Hids | discriminate].
Qed.

(** X4.  For an empty source no chunk is passed to [add_upload_part],
    whatever [part_size] is, and [complete_upload], when it is called,
    gets an empty list of parts. *)
Theorem empty_source_has_no_parts E file purpose mime_type filename part_size expires_after
    md5 r tr :
  fresh_source E file [] ->
  multipart_upload E file purpose mime_type filename part_size expires_after md5 []
    = Some (r, tr) ->
  part_chunks tr = [] /\
  (forall uid ids md5', In (CallCompleteUpload uid ids md5') tr -> ids = []).
Proof.
  intros Hfresh Hrun.
  destruct (fresh_part_chunks _ _ _ _ _ _ _ _ _ _ _ Hrun Hfresh) as [Hpre Hall].
  assert (part_chunks tr = []) as Hnil.
  { destruct Hpre as [Hnil | (size & fobj & rest & _ & Hrem & Hpre)]; [exact Hnil|].
    rewrite (reads_of_nothing part_size fobj Hrem) in Hpre. cbn [map] in Hpre.
    symmetry in Hpre. now apply app_eq_nil in Hpre. }
  split; [exact Hnil|].
  intros uid ids md5' Hin. destruct (Hall _ _ _ Hin) as (_ & _ & _ & _ & _ & _ & Hlen).
  rewrite Hnil in Hlen. now destruct ids.
Qed.


(** ** The endpoints, request by request *)

Lemma creations_app (a b : trace) : creations (a ++ b) = creations a ++ creations b.
Proof.
  induction a as [|ev a IH]; simpl; [reflexivity|].
  destruct ev; simpl; now rewrite IH.
Qed.

Lemma request_paths_app (a b : trace) :
  request_paths (a ++ b) = request_paths a ++ request_paths b.
Proof. unfold request_paths. now rewrite requests_app, map_app. Qed.

Lemma requests_after_call (tr : trace) (ev : event) :
  requests [ev] = [] -> requests (tr ++ [ev]) = requests tr.
Proof. intros H. now rewrite requests_app, H, app_nil_r. Qed.

(** [create_upload] makes one request, to [/v1/uploads], with a JSON
    body of the four fields and of [expires_after] when it is given and
    not empty, and returns the reply read as an upload. *)
Lemma create_upload_exact E size filename mime_type purpose expires_after tr :
  exists body,
    let rq := {| rq_path := "/v1/uploads"; rq_body := JsonBody (JDict body) |} in
    let call := CallCreateUpload size filename mime_type purpose expires_after in
    (lookup body "purpose" = Some (JStr purpose) /\
     lookup body "filename" = Some (JStr filename) /\
     lookup body "bytes" = Some (JInt size) /\
     lookup body "mime_type" = Some (JStr mime_type) /\
     lookup body "expires_after"
       = option_map (fun d => JDict (self_flatten_expires_after E (Some d)))
           (given_expiry expires_after) /\
     keys body = ["purpose"; "filename"; "bytes"; "mime_type"]
                   ++ match given_expiry expires_after with
                      | Some _ => ["expires_after"]
                      | None => []
                      end) /\
    create_upload E size filename mime_type purpose expires_after tr =
      match post_reply E (requests tr) rq with
      | Raises e => Some (Raises e, tr ++ [call; Post rq])
      | Returns resp =>
          match Upload.from_dict E resp with
          | Raises e => Some (Raises e, tr ++ [call; Post rq])
          | Returns u => Some (Returns u, tr ++ [call; Post rq; RetCreateUpload u])
          end
      end.
Proof.
  exists (let body := [ ("purpose", JStr purpose); ("filename", JStr filename);
                        ("bytes", JInt size); ("mime_type", JStr mime_type) ] in
          match expires_after with
          | Some (_ :: _) =>
              setitem body "expires_after" (JDict (self_flatten_expires_after E expires_after))
          | _ => body
          end).
  cbv zeta. split.
  2:{ unfold create_upload, bind, emit, post, lift, ret.
      rewrite requests_after_call by reflexivity.
      destruct (post_reply E _ _) as [resp|e];
        [destruct (Upload.from_dict E resp) as [u|e]|];
        rewrite <- ?app_assoc; reflexivity. }
  destruct expires_after as [[|kv d]|]; repeat split.
Qed.

(** [add_upload_part] turns the data into a stream first, and makes no
    request when that fails; else it makes one request, to the parts of
    the upload, with the stream as the form field [data]. *)
Lemma add_upload_part_exact E uid data tr :
  add_upload_part E uid data tr =
    let call := CallAddUploadPart uid data in
    match _coerce_file E data with
    | Raises e => Some (Raises e, tr ++ [call])
    | Returns fobj =>
        let rq := {| rq_path := parts_path uid; rq_body := FormData [("data", fobj)] |} in
        match post_reply E (requests tr) rq with
        | Raises e => Some (Raises e, tr ++ [call; Post rq])
        | Returns resp =>
            match UploadPart.from_dict E resp with
            | Raises e => Some (Raises e, tr ++ [call; Post rq])
            | Returns p => Some (Returns p, tr ++ [call; Post rq; RetAddUploadPart p])
            end
        end
    end.
Proof.
  unfold add_upload_part, bind, emit, post, lift, ret, parts_path. cbv zeta.
  rewrite requests_after_call by reflexivity.
  destruct (_coerce_file E data) as [fobj|e]; [|reflexivity].
  destruct (post_reply E _ _) as [resp|e];
    [destruct (UploadPart.from_dict E resp) as [p|e]|];
    rewrite <- ?app_assoc; reflexivity.
Qed.

(** [complete_upload] makes one request, to the completion of the
    upload, with the part ids as given and [md5] when there is one. *)
Lemma complete_upload_exact E uid part_ids md5 tr :
  exists body,
    let rq := {| rq_path := complete_path uid; rq_body := JsonBody (JDict body) |} in
    let call := CallCompleteUpload uid part_ids md5 in
    (lookup body "part_ids" = Some (JList part_ids) /\
     lookup body "md5" = option_map JStr md5 /\
     keys body = "part_ids" :: match md5 with Some _ => ["md5"] | None => [] end) /\
    complete_upload E uid part_ids md5 tr =
      match post_reply E (requests tr) rq with
      | Raises e => Some (Raises e, tr ++ [call; Post rq])
      | Returns resp =>
          match Upload.from_dict E resp with
          | Raises e => Some (Raises e, tr ++ [call; Post rq])
          | Returns u => Some (Returns u, tr ++ [call; Post rq; RetCompleteUpload u])
          end
      end.
Proof.
  exists (match md5 with
          | Some m => setitem [("part_ids", JList part_ids)] "md5" (JStr m)
          | None => [("part_ids", JList part_ids)]
          end).
  cbv zeta. split.
  2:{ unfold complete_upload, bind, emit, post, lift, ret, complete_path.
      rewrite requests_after_call by reflexivity.
      destruct (post_reply E _ _) as [resp|e];
        [destruct (Upload.from_dict E resp) as [u|e]|];
        rewrite <- ?app_assoc; reflexivity. }
  destruct md5; repeat split.
Qed.

(** The trace of the endpoints: what each adds to the calls, the
    creations and the paths. *)
Lemma create_upload_wire E size filename mime_type purpose expires_after tr r tr' :
  create_upload E size filename mime_type purpose expires_after tr = Some (r, tr') ->
  exists evs, tr' = tr ++ evs /\
    calls evs = [CallCreateUpload size filename mime_type purpose expires_after] /\
    request_paths evs = ["/v1/uploads"] /\
    part_chunks evs = [] /\ parts_returned evs = [] /\
    creations evs = match r with Returns u => [u] | Raises _ => [] end.
Proof.
  destruct (create_upload_exact E size filename mime_type purpose expires_after tr)
    as (body & _ & ->).
  destruct (post_reply E _ _) as [resp|e];
    [destruct (Upload.from_dict E resp) as [u|e]|];
    intros [= <- <-]; eexists; (split; [reflexivity|]); now repeat split.
Qed.

Lemma add_upload_part_wire E uid data tr r tr' :
  add_upload_part E uid data tr = Some (r, tr') ->
  exists evs, tr' = tr ++ evs /\
    calls evs = [CallAddUploadPart uid data] /\
    part_chunks evs = [data] /\
    creations evs = [] /\ completions evs = [] /\
    match r with
    | Returns p => request_paths evs = [parts_path uid] /\ parts_returned evs = [p]
    | Raises _ =>
        parts_returned evs = [] /\
        (request_paths evs = [] \/ request_paths evs = [parts_path uid])
    end.
Proof.
  rewrite add_upload_part_exact. cbv zeta.
  destruct (_coerce_file E data) as [fobj|e].
  - destruct (post_reply E _ _) as [resp|e];
      [destruct (UploadPart.from_dict E resp) as [p|e]|];
      intros [= <- <-]; eexists; (split; [reflexivity|]); repeat split; now right.
  - intros [= <- <-]. eexists. split; [reflexivity|]. repeat split. now left.
Qed.

(** The loop: one [add_upload_part] call per chunk and nothing else;
    when it returns, one request and one id per chunk. *)
Lemma add_parts_wire E uid size : forall fuel fobj ids tr r tr',
  add_parts E fuel uid size fobj ids tr = Some (r, tr') ->
  exists evs, tr' = tr ++ evs /\
    calls evs = map (CallAddUploadPart uid) (part_chunks evs) /\
    creations evs = [] /\ completions evs = [] /\
    match r with
    | Returns ids' =>
        request_paths evs = repeat (parts_path uid) (length (part_chunks evs)) /\
        ids' = ids ++ map UploadPart.id (parts_returned evs) /\
        length (parts_returned evs) = length (part_chunks evs)
    | Raises _ =>
        exists n, request_paths evs = repeat (parts_path uid) n /\
                  (n <= length (part_chunks evs))%nat
    end.
Proof.
  induction fuel as [|fuel IH]; intros fobj ids tr r tr'; [discriminate|].
  cbn [add_parts]. rewrite bind_lift.
  destruct (read fobj (Some size)) as [[chunk fobj']|e].
  2:{ intros [= <- <-]. exists []. rewrite app_nil_r. repeat split.
      exists 0%nat. now split. }
  destruct (is_empty chunk).
  { intros [= <- <-]. exists []. rewrite !app_nil_r. now repeat split. }
  destruct (add_upload_part E uid chunk tr) as [[r1 tr1]|] eqn:Hpart.
  2:{ unfold bind. now rewrite Hpart. }
  destruct (add_upload_part_wire _ _ _ _ _ _ Hpart)
    as (evs1 & -> & Hc1 & Hk1 & Hn1 & Hu1 & Hr1).
  destruct r1 as [p|e].
  - rewrite (bind_returns _ _ _ _ _ Hpart). intros Hrest.
    destruct (IH _ _ _ _ _ Hrest) as (evs2 & -> & Hc2 & Hn2 & Hu2 & Hr2).
    destruct Hr1 as [Hq1 Hp1].
    exists (evs1 ++ evs2). split; [now rewrite app_assoc|].
    rewrite calls_app, part_chunks_app, creations_app, completions_app,
      request_paths_app, parts_returned_app, Hc1, Hc2, Hk1, Hn1, Hn2, Hu1, Hu2, Hq1, Hp1.
    repeat split.
    destruct r as [ids'|e'].
    + destruct Hr2 as (Hq2 & Hids & Hlen). cbn [app length repeat map].
      rewrite Hq2, Hids, Hlen, <- app_assoc. now repeat split.
    + destruct Hr2 as (n & Hq2 & Hle). exists (S n). rewrite Hq2.
      cbn [app length repeat]. split; [reflexivity | lia].
  - rewrite (bind_raises _ _ _ _ _ Hpart). intros [= <- <-].
    exists evs1. split; [reflexivity|].
    rewrite Hc1, Hk1, Hn1, Hu1. repeat split.
    destruct Hr1 as [_ [Hq|Hq]]; rewrite Hq.
    + exists 0%nat. split; [reflexivity | cbn; lia].
    + exists 1%nat. split; [reflexivity | cbn; lia].
Qed.

Lemma in_call (ev : event) (tr : trace) : calls [ev] = [ev] -> In ev tr -> In ev (calls tr).
Proof.
  intros Hev. induction tr as [|ev' tr IH]; [easy|].
  intros [->|Hin].
  - change (ev :: tr) with ([ev] ++ tr). rewrite calls_app, Hev. now left.
  - change (ev' :: tr) with ([ev'] ++ tr). rewrite calls_app.
    apply in_or_app. right. now apply IH.
Qed.

Lemma not_part_call uid cs ev :
  In ev (map (CallAddUploadPart uid) cs) -> exists c, ev = CallAddUploadPart uid c.
Proof. intros H. apply in_map_iff in H as (c & <- & _). now exists c. Qed.

(** X6.  A run that gets to [complete_upload] has made one request to
    create the upload, then one request per part, then the request
    that completes it, and no other; the part and completion requests
    go to paths built from the id the create reply gave. *)
Theorem requests_of_a_completed_run E file purpose mime_type filename part_size expires_after
    md5 r tr uid ids md5' :
  multipart_upload E file purpose mime_type filename part_size expires_after md5 []
    = Some (r, tr) ->
  In (CallCompleteUpload uid ids md5') tr ->
  exists u,
    creations tr = [u] /\ uid = Upload.id u /\
    length ids = length (part_chunks tr) /\
    request_paths tr =
      "/v1/uploads" :: repeat (parts_path uid) (length ids) ++ [complete_path uid].
Proof.
  intros Hrun Hin. apply in_call in Hin; [|reflexivity].
  unfold multipart_upload in Hrun. rewrite bind_lift in Hrun.
  destruct (_infer_size E file) as [[size file1]|e]; [|now injection Hrun as <- <-].
  rewrite bind_lift in Hrun.
  destruct (_coerce_file E file1) as [fobj|e]; [|now injection Hrun as <- <-].
  match type of Hrun with bind (create_upload ?E ?s ?n ?m ?p ?x) _ _ = _ =>
    destruct (create_upload E s n m p x []) as [[r1 tr1]|] eqn:Hcreate;
      [|unfold bind in Hrun; now rewrite Hcreate in Hrun] end.
  destruct (create_upload_wire _ _ _ _ _ _ _ _ _ Hcreate)
    as (evs1 & -> & Hc1 & Hq1 & Hk1 & Hp1 & Hn1). cbn [app] in *.
  destruct r1 as [upload|e].
  2:{ rewrite (bind_raises _ _ _ _ _ Hcreate) in Hrun. injection Hrun as <- <-.
      rewrite Hc1 in Hin. destruct Hin as [Hin|[]]. discriminate. }
  rewrite (bind_returns _ _ _ _ _ Hcreate) in Hrun.
  match type of Hrun with bind (add_parts ?E ?f ?u ?s ?h ?i) _ _ = _ =>
    destruct (add_parts E f u s h i evs1) as [[r2 tr2]|] eqn:Hparts;
      [|unfold bind in Hrun; now rewrite Hparts in Hrun] end.
  destruct (add_parts_wire _ _ _ _ _ _ _ _ _ Hparts) as (evs2 & -> & Hc2 & Hn2 & Hu2 & Hr2).
  destruct r2 as [ids2|e].
  2:{ rewrite (bind_raises _ _ _ _ _ Hparts) in Hrun. injection Hrun as <- <-.
      rewrite calls_app, Hc1, Hc2 in Hin. destruct Hin as [Hin|Hin]; [discriminate|].
      apply not_part_call in Hin as [c Hc]. discriminate. }
  rewrite (bind_returns _ _ _ _ _ Hparts) in Hrun.
  destruct Hr2 as (Hq2 & Hids2 & Hlen2). cbn [app] in Hids2.
  destruct (complete_upload_exact E (Upload.id upload) ids2 md5 (evs1 ++ evs2))
    as (body & _ & Hcomplete). cbv zeta in Hcomplete.
  assert (exists r3 evs3,
            complete_upload E (Upload.id upload) ids2 md5 (evs1 ++ evs2)
              = Some (r3, (evs1 ++ evs2) ++ evs3) /\
            calls evs3 = [CallCompleteUpload (Upload.id upload) ids2 md5] /\
            request_paths evs3 = [complete_path (Upload.id upload)] /\
            part_chunks evs3 = [] /\ creations evs3 = []) as (r3 & evs3 & Hc & Hc3 & Hq3 & Hk3 & Hn3).
  { rewrite Hcomplete.
    destruct (post_reply E _ _) as [resp|e];
      [destruct (Upload.from_dict E resp) as [u|e]|];
      eexists _, _; (split; [reflexivity|]); now repeat split. }
  assert (tr = (evs1 ++ evs2) ++ evs3) as ->.
  { destruct r3 as [u|e].
    - rewrite (bind_returns _ _ _ _ _ Hc) in Hrun.
      destruct (Upload.file u); now injection Hrun as <- <-.
    - rewrite (bind_raises _ _ _ _ _ Hc) in Hrun. now injection Hrun as <- <-. }
  rewrite !calls_app, Hc1, Hc2, Hc3 in Hin.
  destruct Hin as [Hin|Hin]; [discriminate|].
  apply in_app_or in Hin as [Hin|[Hin|[]]];
    [apply not_part_call in Hin as [c Hc']; discriminate|].
  injection Hin as <- <- <-.
  exists upload.
  rewrite !creations_app, !part_chunks_app, !request_paths_app,
    Hn1, Hn2, Hn3, Hk1, Hk3, Hq1, Hq2, Hq3, !app_nil_r.
  cbn [app]. rewrite Hids2, length_map, Hlen2. now repeat split.
Qed.


(** ** Runs that stop early *)




(** ** The name of the upload *)

Lemma prepare_name E file size fobj :
  prepare E file = Returns (size, fobj) -> h_name fobj = source_name file.
Proof.
  destruct file as [p|b|h].
  - rewrite prepare_path. destruct (embedded_null p); [discriminate|].
    destruct (fs E p); [|discriminate]. now intros [= _ <-].
  - now intros [= _ <-].
  - intros Hprep.
    now destruct (prepare_object _ _ _ _ Hprep) as [(_ & ->) | (_ & _ & _ & _ & ->)].
Qed.

(** X9.  The upload is created under the file name given; without one,
    under the [name] of the stream when it is text, which for a path is
    the whole path as it was passed, and under [upload.bin] otherwise,
    as for bytes.  The MIME type, the purpose and the expiry are passed
    on as given. *)
Theorem upload_name_of_source E file purpose mime_type filename part_size expires_after md5
    r tr size name mime_type' purpose' expires_after' :
  multipart_upload E file purpose mime_type filename part_size expires_after md5 []
    = Some (r, tr) ->
  In (CallCreateUpload size name mime_type' purpose' expires_after') tr ->
  name = match filename, source_name file with
         | Some given, _ => given
         | None, Some of_stream => of_stream
         | None, None => "upload.bin"
         end /\
  mime_type' = mime_type /\ purpose' = purpose /\ expires_after' = expires_after.
Proof.
  intros Hrun Hin. apply in_call in Hin; [|reflexivity].
  destruct (multipart_upload_run E file purpose mime_type filename part_size expires_after md5 [])
    as (r' & evs & Hrun' & Hshape).
  rewrite Hrun in Hrun'. cbn [app] in Hrun'. injection Hrun' as <- <-.
  destruct (prepare E file) as [[size0 fobj]|e] eqn:Hprep.
  2:{ destruct Hshape as [_ ->]. contradiction. }
  apply prepare_name in Hprep.
  destruct Hshape as (m & _ & Hshape). cbv zeta in Hshape.
  assert (In (CallCreateUpload size name mime_type' purpose' expires_after')
             [CallCreateUpload size0 (upload_name filename fobj) mime_type purpose
                expires_after]) as Hhead.
  { destruct Hshape as [(e & _ & Hc & _) | (upload & cs & rest & _ & Hrest)].
    { now rewrite Hc in Hin. }
    destruct Hrest as [(e & _ & Hc & _) | (_ & _ & Hc & _)]; rewrite Hc in Hin;
      (destruct Hin as [Hin|Hin]; [now left|]).
    - apply not_part_call in Hin as [c Hc']. discriminate.
    - apply in_app_or in Hin as [Hin|[Hin|[]]]; [|discriminate].
      apply not_part_call in Hin as [c Hc']. discriminate. }
  destruct Hhead as [[= <- <- <- <- <-]|[]].
  unfold upload_name. rewrite Hprep. repeat split.
Qed.

(** ** Failures before any call *)

(** What [_infer_size] does with an object it has to read. *)
Lemma prepare_measured E h m :
  measured_by_reading h = true -> h_read h = Some m ->
  prepare E (FObject h) =
    match h_deliver h (h_pos h) None with
    | Fails e => Raises e
    | Gives _ =>
        match m with
        | ReadText => Raises (TypeError "File-like object did not return bytes.")
        | ReadBytes =>
            match h_seek h with
            | Some SeekOk => Returns (Z.of_nat (length (remaining h)), set_pos h 0)
            | Some (SeekRaises e) => Raises e
            | None => Raises (AttributeError "object has no attribute 'seek'")
            end
        end
    end.
Proof.
  intros Hmeasured Hread.
  assert (_infer_size E (FObject h) = measure_by_reading (FObject h) h) as Hinf.
  { unfold measured_by_reading in Hmeasured. cbn [_infer_size].
    destruct (h_fileno h) as [[[st|e]| |e]|]; try discriminate;
      try rewrite Hmeasured; reflexivity. }
  unfold prepare. rewrite Hinf. unfold measure_by_reading, read, seek0. rewrite Hread.
  destruct (h_deliver h (h_pos h) None) as [n|e]; [|reflexivity].
  destruct m; [|reflexivity]. cbn.
  destruct (h_seek h) as [[|e]|]; cbn; try reflexivity.
  now rewrite Hread.
Qed.

(** X10.  [multipart_upload] raises before it calls an endpoint, the
    trace as it was and no request made, in each of these cases: a
    path to no file ([OSError]) and a path with a NUL character
    ([ValueError]); an object whose [fileno()] or [os.fstat] raises
    something other than an [OSError], a closed file for one (what they
    raise); and, for a stream that is measured by reading it, a read
    that raises (what it raises), a text stream ([TypeError]: the read
    did not return bytes), a binary stream whose [seek] raises (what it
    raises) and one that has no [seek] ([AttributeError]). *)
Theorem failures_before_any_call E purpose mime_type filename part_size expires_after md5 tr :
  (forall p, embedded_null p = false -> fs E p = None ->
     multipart_upload E (FStr p) purpose mime_type filename part_size expires_after md5 tr
       = Some (Raises (OSError "No such file or directory"), tr)) /\
  (forall p, embedded_null p = true ->
     multipart_upload E (FStr p) purpose mime_type filename part_size expires_after md5 tr
       = Some (Raises (ValueError "embedded null byte"), tr)) /\
  (forall h e, escapes h = Some e ->
     multipart_upload E (FObject h) purpose mime_type filename part_size expires_after md5 tr
       = Some (Raises e, tr)) /\
  (forall h m e, measured_by_reading h = true -> h_read h = Some m ->
     h_deliver h (h_pos h) None = Fails e ->
     multipart_upload E (FObject h) purpose mime_type filename part_size expires_after md5 tr
       = Some (Raises e, tr)) /\
  (forall h n, measured_by_reading h = true -> h_read h = Some ReadText ->
     h_deliver h (h_pos h) None = Gives n ->
     multipart_upload E (FObject h) purpose mime_type filename part_size expires_after md5 tr
       = Some (Raises (TypeError "File-like object did not return bytes."), tr)) /\
  (forall h n e, measured_by_reading h = true -> h_read h = Some ReadBytes ->
     h_deliver h (h_pos h) None = Gives n -> h_seek h = Some (SeekRaises e) ->
     multipart_upload E (FObject h) purpose mime_type filename part_size expires_after md5 tr
       = Some (Raises e, tr)) /\
  (forall h n, measured_by_reading h = true -> h_read h = Some ReadBytes ->
     h_deliver h (h_pos h) None = Gives n -> h_seek h = None ->
     multipart_upload E (FObject h) purpose mime_type filename part_size expires_after md5 tr
       = Some (Raises (AttributeError "object has no attribute 'seek'"), tr)).
Proof.
  repeat split.
  - intros p Hnul Hfs. apply prepare_failure. now rewrite prepare_path, Hnul, Hfs.
  - intros p Hnul. apply prepare_failure. now rewrite prepare_path, Hnul.
  - intros h e Hesc. apply prepare_failure. unfold prepare, escapes in *.
    cbn [_infer_size].
    destruct (h_fileno h) as [[[st|e0]| |e0]|]; try discriminate;
      (destruct (is_OSError e0); [discriminate|]); now injection Hesc as ->.
  - intros h m e Hmeasured Hread Hfails. apply prepare_failure.
    now rewrite (prepare_measured E h m Hmeasured Hread), Hfails.
  - intros h n Hmeasured Hread Hgives. apply prepare_failure.
    now rewrite (prepare_measured E h _ Hmeasured Hread), Hgives.
  - intros h n e Hmeasured Hread Hgives Hseek. apply prepare_failure.
    now rewrite (prepare_measured E h _ Hmeasured Hread), Hgives, Hseek.
  - intros h n Hmeasured Hread Hgives Hseek. apply prepare_failure.
    now rewrite (prepare_measured E h _ Hmeasured Hread), Hgives, Hseek.
Qed.

(** The cases at hand: a closed file, [io.StringIO], the standard
    input fed by a pipe once its descriptor is gone. *)
Example failures_at_hand :
  Demo.upload_of Demo.E (FObject Demo.closed_file) 6
    = Some (Raises (ValueError "I/O operation on closed file"), []) /\
  Demo.upload_of Demo.E (FObject Demo2.a_string_io) 6
    = Some (Raises (TypeError "File-like object did not return bytes."), []) /\
  Demo.upload_of Demo.E (FStr "no/such/file") 6
    = Some (Raises (OSError "No such file or directory"), []).
Proof. repeat split; vm_compute; reflexivity. Qed.

(** ** Streams the size check lets through *)

(** X11.  A text stream with a usable file descriptor passes the size
    check, which does not read it.  The run creates the upload and
    reads a first chunk of text, which [add_upload_part] takes for a
    path and opens: the run raises what [open] raises, [OSError] when
    no file has that name and [ValueError] when the text holds a NUL
    character, and no part request has been made. *)
Theorem text_chunk_taken_for_a_path E h purpose mime_type filename part_size expires_after md5
    r tr name h' e :
  h_read h = Some ReadText -> usable_descriptor h = true ->
  read h (Some part_size) = Returns (FStr name, h') -> name <> EmptyString ->
  open_rb E name = Raises e ->
  multipart_upload E (FObject h) purpose mime_type filename part_size expires_after md5 []
    = Some (r, tr) ->
  creations tr <> [] ->
  r = Raises e /\
  part_chunks tr = [FStr name] /\
  request_paths tr = ["/v1/uploads"] /\
  (e = OSError "No such file or directory" \/ e = ValueError "embedded null byte").
Proof.
  intros Hread Hdesc Hfirst Hname Hopen Hrun Hcreated.
  unfold multipart_upload in Hrun. rewrite bind_lift in Hrun.
  unfold usable_descriptor in Hdesc. cbn [_infer_size] in Hrun.
  destruct (h_fileno h) as [[[st|e0]| |e0]|]; try discriminate.
  rewrite bind_lift in Hrun. cbn [_coerce_file] in Hrun. rewrite Hread in Hrun.
  match type of Hrun with bind (create_upload ?E ?s ?n ?m ?p ?x) _ _ = _ =>
    destruct (create_upload E s n m p x []) as [[r1 tr1]|] eqn:Hcreate;
      [|unfold bind in Hrun; now rewrite Hcreate in Hrun] end.
  destruct (create_upload_wire _ _ _ _ _ _ _ _ _ Hcreate)
    as (evs1 & -> & Hc1 & Hq1 & Hk1 & Hp1 & Hn1). cbn [app] in *.
  destruct r1 as [upload|e0].
  2:{ rewrite (bind_raises _ _ _ _ _ Hcreate) in Hrun. injection Hrun as <- <-.
      now rewrite Hn1 in Hcreated. }
  rewrite (bind_returns _ _ _ _ _ Hcreate) in Hrun.
  unfold enough_fuel in Hrun. cbn [add_parts] in Hrun.
  match type of Hrun with bind ?m _ _ = _ =>
    assert (m evs1 = Some (Raises e,
                           evs1 ++ [CallAddUploadPart (Upload.id upload) (FStr name)]))
      as Hparts
  end.
  { rewrite bind_lift, Hfirst. cbn [is_empty].
    destruct (String.eqb_spec name EmptyString) as [Heq|_]; [contradiction|].
    erewrite bind_raises; [reflexivity|].
    rewrite add_upload_part_exact. cbv zeta. cbn [_coerce_file]. now rewrite Hopen. }
  rewrite (bind_raises _ _ _ _ _ Hparts) in Hrun. injection Hrun as <- <-.
  rewrite part_chunks_app, request_paths_app, Hk1, Hq1.
  repeat split.
  unfold open_rb in Hopen. destruct (embedded_null name); [right; congruence|].
  destruct (fs E name); [discriminate | left; congruence].
Qed.

(** X12.  A binary stream that has to be measured by reading it is
    measured from where it stands and then rewound: the size passed to
    [create_upload] is the number of bytes after its position, and a
    run that gets to [complete_upload] has uploaded the stream from its
    first byte, all of it. *)
Theorem stream_measured_from_its_position E h purpose mime_type filename part_size
    expires_after md5 r tr :
  h_read h = Some ReadBytes -> usable_descriptor h = false -> h_seekable h = true ->
  (h_pos h <= length (h_data h))%nat ->
  0 < part_size ->
  multipart_upload E (FObject h) purpose mime_type filename part_size expires_after md5 []
    = Some (r, tr) ->
  (declared_sizes tr = [] \/
   declared_sizes tr = [Z.of_nat (length (h_data h)) - Z.of_nat (h_pos h)]) /\
  (forall uid ids md5', In (CallCompleteUpload uid ids md5') tr ->
     declared_sizes tr = [Z.of_nat (length (h_data h)) - Z.of_nat (h_pos h)] /\
     uploaded tr = h_data h).
Proof.
  intros Hread Hdesc Hseek Hpos Hsize Hrun.
  assert (Z.of_nat (length (remaining h))
          = Z.of_nat (length (h_data h)) - Z.of_nat (h_pos h)) as Hleft
    by (unfold remaining; rewrite length_skipn; lia).
  assert (forall size fobj, prepare E (FObject h) = Returns (size, fobj) ->
            size = Z.of_nat (length (h_data h)) - Z.of_nat (h_pos h) /\ fobj = set_pos h 0)
    as Hmeasured.
  { intros size fobj Hprep.
    destruct (prepare_object _ _ _ _ Hprep) as [(Hf & _) | (_ & _ & _ & -> & ->)].
    - unfold usable_descriptor in Hdesc. now rewrite Hf in Hdesc.
    - now split. }
  pose proof (declared_sizes_of_run _ _ _ _ _ _ _ _ _ _ Hrun) as Hd.
  assert (declared_sizes tr = [] \/
          declared_sizes tr = [Z.of_nat (length (h_data h)) - Z.of_nat (h_pos h)]) as Hdecl.
  { destruct (prepare E (FObject h)) as [[size fobj]|e] eqn:Hprep; [|now left].
    right. destruct (Hmeasured _ _ eq_refl) as [<- _]. exact Hd. }
  split; [exact Hdecl|].
  intros uid ids md5' Hin.
  destruct (complete_call_shape _ _ _ _ _ _ _ _ _ _ _ _ _ Hrun Hin)
    as (size & fobj & m & Hprep & Hm & Hpc & Hend & _ & _ & _ & Hcalls).
  destruct (Hmeasured _ _ Hprep) as [-> ->].
  cbn in Hm. rewrite Hread in Hm. injection Hm as <-.
  split.
  - destruct Hdecl as [Hnil|Hdone]; [|exact Hdone].
    rewrite declared_sizes_calls, Hcalls in Hnil. discriminate.
  - unfold uploaded. rewrite Hpc, concat_map_FBytes.
    unfold reads, reads_end in *.
    rewrite (concat_reads_upto_all part_size ltac:(lia) (enough_fuel (set_pos h 0))
               (set_pos h 0)); [reflexivity | unfold enough_fuel; lia | exact Hend].
Qed.

(** ** Replies read as records *)

Ltac read_reply H :=
  repeat match type of H with
    | context [match lookup ?d ?k with _ => _ end] =>
        destruct (lookup d k) eqn:?; cbn [bindR] in H; try discriminate H
    | context [bindR (py_int ?E ?v) _] =>
        destruct (py_int E v) eqn:?; cbn [bindR] in H; try discriminate H
    end.

(** X18.  [File.from_dict] returns a file only for a mapping that has
    the keys [id], [bytes], [created_at], [filename] and [purpose],
    with [bytes] and [created_at] that [int] accepts; the file holds
    the values under these keys, [None] for the optional keys that are
    missing, [file] as the default [object], and the mapping itself as
    [raw].  Without [id] it raises [KeyError], and on a value that is
    not a mapping [TypeError]. *)
Theorem file_from_dict_reads E :
  (forall d f, File.from_dict E d = Returns f ->
     exists items, d = JDict items /\
       lookup items "id" = Some (File.id f) /\
       File.object f = get_default items "object" (JStr "file") /\
       (exists v, lookup items "bytes" = Some v /\ py_int E v = Returns (File.bytes f)) /\
       (exists v, lookup items "created_at" = Some v /\
                  py_int E v = Returns (File.created_at f)) /\
       File.expires_at f = get items "expires_at" /\
       lookup items "filename" = Some (File.filename f) /\
       lookup items "purpose" = Some (File.purpose f) /\
       File.status f = get items "status" /\
       File.status_details f = get items "status_details" /\
       File.raw f = dict_of items) /\
  (forall d, is_mapping d = false -> exists msg, File.from_dict E d = Raises (TypeError msg)) /\
  (forall items, lookup items "id" = None ->
     File.from_dict E (JDict items) = Raises (KeyError "id")).
Proof.
  split; [|split].
  - intros d f H. destruct d as [| | | | | |items]; try discriminate H.
    exists items. split; [reflexivity|].
    unfold File.from_dict, subscript, attr_get, to_dict in H. cbn [bindR] in H.
    read_reply H. injection H as <-. cbn.
    repeat split; eauto.
  - intros d Hd. destruct d; try discriminate Hd; eexists; reflexivity.
  - intros items Hid. unfold File.from_dict, subscript. now rewrite Hid.
Qed.

(** X19.  [Upload.from_dict] returns an upload only for a mapping that
    has the seven keys [id], [bytes], [created_at], [filename],
    [purpose], [status] and [expires_at], with numbers that [int]
    accepts.  Its nested file is [None] when the value under [file] is
    missing or falsy ([None], an empty mapping), and the value read by
    [File.from_dict] otherwise, whose failure is the failure of the
    whole.  Without [id] it raises [KeyError], and on a value that is
    not a mapping [AttributeError]. *)
Theorem upload_from_dict_reads E :
  (forall d u, Upload.from_dict E d = Returns u ->
     exists items, d = JDict items /\
       lookup items "id" = Some (Upload.id u) /\
       Upload.object u = get_default items "object" (JStr "upload") /\
       (exists v, lookup items "bytes" = Some v /\ py_int E v = Returns (Upload.bytes u)) /\
       (exists v, lookup items "created_at" = Some v /\
                  py_int E v = Returns (Upload.created_at u)) /\
       lookup items "filename" = Some (Upload.filename u) /\
       lookup items "purpose" = Some (Upload.purpose u) /\
       lookup items "status" = Some (Upload.status u) /\
       (exists v, lookup items "expires_at" = Some v /\
                  py_int E v = Returns (Upload.expires_at u)) /\
       Upload.raw u = dict_of items /\
       (if truthy (get items "file")
        then exists f, File.from_dict E (get items "file") = Returns f /\
                       Upload.file u = Some f
        else Upload.file u = None)) /\
  (forall d, is_mapping d = false ->
     exists msg, Upload.from_dict E d = Raises (AttributeError msg)) /\
  (forall items, lookup items "id" = None ->
     Upload.from_dict E (JDict items) = Raises (KeyError "id")) /\
  (forall items e, truthy (get items "file") = true ->
     File.from_dict E (get items "file") = Raises e ->
     exists e', Upload.from_dict E (JDict items) = Raises e').
Proof.
  split; [|split; [|split]].
  - intros d u H. destruct d as [| | | | | |items]; try discriminate H.
    exists items. split; [reflexivity|].
    unfold Upload.from_dict, subscript, attr_get, to_dict in H. cbn [bindR] in H.
    fold (get items "file") in H.
    read_reply H.
    destruct (truthy (get items "file")) eqn:Hfile; cbn [bindR] in H.
    + destruct (File.from_dict E (get items "file")) as [f|e] eqn:Hf; cbn [bindR] in H;
        [|discriminate H].
      injection H as <-. cbn. repeat split; eauto.
    + injection H as <-. cbn. repeat split; eauto.
  - intros d Hd. destruct d; try discriminate Hd; eexists; reflexivity.
  - intros items Hid. unfold Upload.from_dict, subscript, attr_get. cbn [bindR].
    now rewrite Hid.
  - intros items e Htruthy Hfile.
    destruct (Upload.from_dict E (JDict items)) as [u|e'] eqn:H; [|now exists e'].
    exfalso. unfold Upload.from_dict, subscript, attr_get, to_dict in H. cbn [bindR] in H.
    fold (get items "file") in H. read_reply H.
    rewrite Htruthy, Hfile in H. discriminate H.
Qed.

(** X20.  [UploadPart.from_dict] returns a part only for a mapping
    that has the keys [id], [created_at] and [upload_id]; the part
    holds the values under them, [upload.part] as the default
    [object], and the mapping as [raw].  Without [id] it raises
    [KeyError], and on a value that is not a mapping [TypeError]. *)
Theorem upload_part_from_dict_reads E :
  (forall d p, UploadPart.from_dict E d = Returns p ->
     exists items, d = JDict items /\
       lookup items "id" = Some (UploadPart.id p) /\
       UploadPart.object p = get_default items "object" (JStr "upload.part") /\
       (exists v, lookup items "created_at" = Some v /\
                  py_int E v = Returns (UploadPart.created_at p)) /\
       lookup items "upload_id" = Some (UploadPart.upload_id p) /\
       UploadPart.raw p = dict_of items) /\
  (forall d, is_mapping d = false ->
     exists msg, UploadPart.from_dict E d = Raises (TypeError msg)) /\
  (forall items, lookup items "id" = None ->
     UploadPart.from_dict E (JDict items) = Raises (KeyError "id")).
Proof.
  split; [|split].
  - intros d p H. destruct d as [| | | | | |items]; try discriminate H.
    exists items. split; [reflexivity|].
    unfold UploadPart.from_dict, subscript, attr_get, to_dict in H. cbn [bindR] in H.
    read_reply H. injection H as <-. cbn.
    repeat split; eauto.
  - intros d Hd. destruct d; try discriminate Hd; eexists; reflexivity.
  - intros items Hid. unfold UploadPart.from_dict, subscript. now rewrite Hid.
Qed.

(** ** The requests of the endpoints *)

(** X21.  With an [expires_after] its helper returns for,
    [create_upload] makes exactly one request, a POST to [/v1/uploads]
    with a JSON body that holds [purpose], [filename], [bytes] and
    [mime_type], and [expires_after] only when it is given and not
    empty.  Under [expires_after] goes what
    [self._flatten_expires_after] returns, and which helper that is
    depends on the class: in [MerlinClient], where [FilesMixin] comes
    before [UploadsMixin], it is the one of [files.py], so that the
    body holds the form fields, [expires_after[key]] with the [str] of
    the value for each key; with [UploadsMixin] alone it is the mapping
    as given.  What the call returns or raises is what the transport
    replied, read by [Upload.from_dict]. *)
Theorem create_upload_request E size filename mime_type purpose expires_after tr :
  expiry_converts E expires_after = true ->
  exists r evs body,
    create_upload E size filename mime_type purpose expires_after tr = Some (r, tr ++ evs) /\
    requests evs = [{| rq_path := "/v1/uploads"; rq_body := JsonBody (JDict body) |}] /\
    keys body = ["purpose"; "filename"; "bytes"; "mime_type"]
                  ++ match given_expiry expires_after with
                     | Some _ => ["expires_after"]
                     | None => []
                     end /\
    lookup body "purpose" = Some (JStr purpose) /\
    lookup body "filename" = Some (JStr filename) /\
    lookup body "bytes" = Some (JInt size) /\
    lookup body "mime_type" = Some (JStr mime_type) /\
    lookup body "expires_after"
      = option_map (fun d => JDict (match self_class E with
                                    | MerlinClient =>
                                        FilesHelpers._flatten_expires_after (Some d)
                                    | UploadsMixinAlone => d
                                    end)) (given_expiry expires_after) /\
    (forall d, dict_wf d = true ->
       FilesHelpers._flatten_expires_after (Some d)
       = map (fun kv => (FilesHelpers.field_of (fst kv), JStr (str (snd kv)))) d) /\
    r = (resp <- post_reply E (requests tr)
                   {| rq_path := "/v1/uploads"; rq_body := JsonBody (JDict body) |} ;;
         Upload.from_dict E resp)%result.
Proof.
  intros _.
  destruct (create_upload_exact E size filename mime_type purpose expires_after tr)
    as (body & (H1 & H2 & H3 & H4 & H5 & H6) & Hrun). cbv zeta in Hrun.
  assert (lookup body "expires_after"
          = option_map (fun d => JDict (match self_class E with
                                        | MerlinClient =>
                                            FilesHelpers._flatten_expires_after (Some d)
                                        | UploadsMixinAlone => d
                                        end)) (given_expiry expires_after)) as H5'.
  { rewrite H5. unfold self_flatten_expires_after.
    destruct expires_after as [[|kv d]|]; cbn [given_expiry option_map]; try reflexivity.
    now destruct (self_class E). }
  pose proof FilesHelpersFacts.flatten_of_wf as Hflat.
  destruct (post_reply E _ _) as [resp|e] eqn:Hreply;
    [destruct (Upload.from_dict E resp) as [u|e] eqn:Hread|];
    eexists _, _, body; (split; [exact Hrun|]);
    rewrite Hreply; cbn [bindR]; rewrite ?Hread; now repeat split.
Qed.

(** X22.  [add_upload_part] turns its data into a stream before it
    asks the transport for anything: when that fails (an object
    without [read], a path to no file) it raises and has made no
    request.  Otherwise it makes exactly one request, a POST to the
    parts of the upload with the stream as the form field [data];
    bytes go as a new [io.BytesIO] over them. *)
Theorem add_upload_part_request E uid data tr :
  exists r evs,
    add_upload_part E uid data tr = Some (r, tr ++ evs) /\
    match _coerce_file E data with
    | Raises e => r = Raises e /\ requests evs = []
    | Returns fobj =>
        let rq := {| rq_path := "/v1/uploads/" ++ str uid ++ "/parts";
                     rq_body := FormData [("data", fobj)] |} in
        requests evs = [rq] /\
        (forall b, data = FBytes b -> fobj = BytesIO b) /\
        r = (resp <- post_reply E (requests tr) rq ;; UploadPart.from_dict E resp)%result
    end.
Proof.
  rewrite add_upload_part_exact. cbv zeta. unfold parts_path.
  destruct (_coerce_file E data) as [fobj|e] eqn:Hco.
  - assert (forall b, data = FBytes b -> fobj = BytesIO b) as Hb
      by (intros b ->; now injection Hco as <-).
    destruct (post_reply E _ _) as [resp|e] eqn:Hreply;
      [destruct (UploadPart.from_dict E resp) as [p|e] eqn:Hread|];
      eexists _, _; (split; [reflexivity|]); rewrite ?Hreply; cbn [bindR]; rewrite ?Hread;
      now repeat split.
  - eexists _, _. split; [reflexivity|]. now split.
Qed.

(** X23.  [complete_upload] makes exactly one request, a POST to the
    completion of the upload with a JSON body that holds the part ids
    in the order given, and [md5] only when there is one; what it
    returns or raises is the reply read by [Upload.from_dict]. *)
Theorem complete_upload_request E uid part_ids md5 tr :
  exists r evs body,
    complete_upload E uid part_ids md5 tr = Some (r, tr ++ evs) /\
    requests evs =
      [{| rq_path := "/v1/uploads/" ++ str uid ++ "/complete";
          rq_body := JsonBody (JDict body) |}] /\
    keys body = "part_ids" :: match md5 with Some _ => ["md5"] | None => [] end /\
    lookup body "part_ids" = Some (JList part_ids) /\
    lookup body "md5" = option_map JStr md5 /\
    r = (resp <- post_reply E (requests tr)
                   {| rq_path := "/v1/uploads/" ++ str uid ++ "/complete";
                      rq_body := JsonBody (JDict body) |} ;;
         Upload.from_dict E resp)%result.
Proof.
  destruct (complete_upload_exact E uid part_ids md5 tr) as (body & (H1 & H2 & H3) & Hrun).
  cbv zeta in Hrun. unfold complete_path in Hrun.
  destruct (post_reply E _ _) as [resp|e] eqn:Hreply;
    [destruct (Upload.from_dict E resp) as [u|e] eqn:Hread|];
    eexists _, _, body; (split; [exact Hrun|]);
    rewrite Hreply; cbn [bindR]; rewrite ?Hread; now repeat split.
Qed.

(** X24.  [cancel_upload] makes exactly one request, a POST without a
    body to the cancellation of the upload, and returns the reply read
    by [Upload.from_dict]; cancelling an upload that was just created
    comes to two requests, the second to a path built from the id of
    the first reply. *)
Theorem cancel_after_create E size filename mime_type purpose expires_after tr u tr1 :
  create_upload E size filename mime_type purpose expires_after tr = Some (Returns u, tr1) ->
  exists r tr2,
    cancel_upload E (Upload.id u) tr1 = Some (r, tr2) /\
    request_paths tr2 =
      request_paths tr ++ ["/v1/uploads"; cancel_path (Upload.id u)] /\
    (exists rq, requests tr2 = requests tr1 ++ [rq] /\ rq_body rq = NoBody /\
       r = (resp <- post_reply E (requests tr1) rq ;; Upload.from_dict E resp)%result).
Proof.
  intros Hcreate.
  destruct (create_upload_wire _ _ _ _ _ _ _ _ _ Hcreate) as (evs1 & -> & _ & Hq1 & _).
  unfold cancel_upload, bind, post, lift. fold (cancel_path (Upload.id u)).
  set (rq := {| rq_path := cancel_path (Upload.id u); rq_body := NoBody |}).
  exists (resp <- post_reply E (requests (tr ++ evs1)) rq ;; Upload.from_dict E resp)%result,
         ((tr ++ evs1) ++ [Post rq]).
  split.
  { destruct (post_reply E (requests (tr ++ evs1)) rq) as [resp|e]; cbn [bindR];
      [now destruct (Upload.from_dict E resp) | reflexivity]. }
  split.
  { rewrite !request_paths_app, Hq1, <- app_assoc. reflexivity. }
  exists rq. rewrite requests_app. now repeat split.
Qed.

(** ** The theorems at the runs of the examples *)

Ltac in_trace := vm_compute; repeat (first [left; reflexivity | right]).


Lemma number_of_parts_witness :
  Z.of_nat (length (part_chunks (Demo.trace_of Demo.run15)))
    = (Z.of_nat (length (Demo.blob 15)) + 6 - 1) / 6 /\
  length [JStr "part_1"; JStr "part_2"; JStr "part_3"]
    = length (part_chunks (Demo.trace_of Demo.run15)).
Proof.
  apply (number_of_parts Demo.E (FBytes (Demo.blob 15)) "fine-tune"
           "application/octet-stream" None 6 None None (Demo.result_of Demo.run15)
           (Demo.trace_of Demo.run15) (Demo.blob 15) (JStr "upload_abc")
           [JStr "part_1"; JStr "part_2"; JStr "part_3"] None).
  - lia.
  - reflexivity.
  - exact I.
  - vm_compute. reflexivity.
  - in_trace.
Defined.

Lemma empty_source_has_no_parts_witness :
  part_chunks (snd (Demo2.run_of Demo.E (FBytes []) 6)) = [] /\
  (forall uid ids md5',
     In (CallCompleteUpload uid ids md5') (snd (Demo2.run_of Demo.E (FBytes []) 6)) ->
     ids = []).
Proof.
  apply (empty_source_has_no_parts Demo.E (FBytes []) "fine-tune"
           "application/octet-stream" None 6 None None
           (fst (Demo2.run_of Demo.E (FBytes []) 6))).
  - reflexivity.
  - vm_compute. reflexivity.
Defined.


Lemma requests_of_a_completed_run_witness :
  exists u,
    creations (Demo.trace_of Demo.run15) = [u] /\ JStr "upload_abc" = Upload.id u /\
    length [JStr "part_1"; JStr "part_2"; JStr "part_3"]
      = length (part_chunks (Demo.trace_of Demo.run15)) /\
    request_paths (Demo.trace_of Demo.run15) =
      "/v1/uploads"
        :: repeat (parts_path (JStr "upload_abc"))
             (length [JStr "part_1"; JStr "part_2"; JStr "part_3"])
        ++ [complete_path (JStr "upload_abc")].
Proof.
  apply (requests_of_a_completed_run Demo.E (FBytes (Demo.blob 15)) "fine-tune"
           "application/octet-stream" None 6 None None (Demo.result_of Demo.run15)
           (Demo.trace_of Demo.run15) (JStr "upload_abc")
           [JStr "part_1"; JStr "part_2"; JStr "part_3"] None).
  - vm_compute. reflexivity.
  - in_trace.
Defined.



Lemma upload_name_of_source_witness :
  "/tmp/data.bin"%string
    = match @None string, source_name (FStr "/tmp/data.bin") with
      | Some given, _ => given
      | None, Some of_stream => of_stream
      | None, None => "upload.bin"%string
      end /\
  "application/octet-stream"%string = "application/octet-stream"%string /\
  "fine-tune"%string = "fine-tune"%string /\ @None dict = None.
Proof.
  apply (upload_name_of_source Demo2.E_disk (FStr "/tmp/data.bin") "fine-tune"
           "application/octet-stream" None 6 None None
           (fst (Demo2.run_of Demo2.E_disk (FStr "/tmp/data.bin") 6))
           (snd (Demo2.run_of Demo2.E_disk (FStr "/tmp/data.bin") 6)) 10).
  - vm_compute. reflexivity.
  - in_trace.
Defined.

Lemma text_chunk_taken_for_a_path_witness :
  fst (Demo2.run_of Demo.E (FObject Demo2.a_text_file) 8)
    = Raises (OSError "No such file or directory") /\
  part_chunks (snd (Demo2.run_of Demo.E (FObject Demo2.a_text_file) 8))
    = [FStr "minutes "] /\
  request_paths (snd (Demo2.run_of Demo.E (FObject Demo2.a_text_file) 8))
    = ["/v1/uploads"] /\
  (OSError "No such file or directory" = OSError "No such file or directory" \/
   OSError "No such file or directory" = ValueError "embedded null byte").
Proof.
  apply (text_chunk_taken_for_a_path Demo.E Demo2.a_text_file "fine-tune"
           "application/octet-stream" None 8 None None
           (fst (Demo2.run_of Demo.E (FObject Demo2.a_text_file) 8))
           (snd (Demo2.run_of Demo.E (FObject Demo2.a_text_file) 8))
           "minutes " (set_pos Demo2.a_text_file 8)
           (OSError "No such file or directory")).
  - reflexivity.
  - reflexivity.
  - vm_compute. reflexivity.
  - discriminate.
  - reflexivity.
  - vm_compute. reflexivity.
  - vm_compute. discriminate.
Defined.

Lemma stream_measured_from_its_position_witness :
  (declared_sizes (snd (Demo2.run_of Demo.E (FObject Demo.consumed) 6)) = [] \/
   declared_sizes (snd (Demo2.run_of Demo.E (FObject Demo.consumed) 6))
     = [Z.of_nat (length (h_data Demo.consumed)) - Z.of_nat (h_pos Demo.consumed)]) /\
  (forall uid ids md5',
     In (CallCompleteUpload uid ids md5')
       (snd (Demo2.run_of Demo.E (FObject Demo.consumed) 6)) ->
     declared_sizes (snd (Demo2.run_of Demo.E (FObject Demo.consumed) 6))
       = [Z.of_nat (length (h_data Demo.consumed)) - Z.of_nat (h_pos Demo.consumed)] /\
     uploaded (snd (Demo2.run_of Demo.E (FObject Demo.consumed) 6)) = h_data Demo.consumed).
Proof.
  apply (stream_measured_from_its_position Demo.E Demo.consumed "fine-tune"
           "application/octet-stream" None 6 None None
           (fst (Demo2.run_of Demo.E (FObject Demo.consumed) 6))).
  - reflexivity.
  - reflexivity.
  - reflexivity.
  - vm_compute. lia.
  - lia.
  - vm_compute. reflexivity.
Defined.

Lemma create_upload_request_witness :
  exists r evs body,
    create_upload Demo.E 15 "data.bin" "application/octet-stream" "fine-tune"
      (Some [("anchor", JStr "created_at"); ("seconds", JInt 2592000)]) []
      = Some (r, [] ++ evs) /\
    requests evs = [{| rq_path := "/v1/uploads"; rq_body := JsonBody (JDict body) |}] /\
    keys body = ["purpose"; "filename"; "bytes"; "mime_type"]
                  ++ match given_expiry
                             (Some [("anchor", JStr "created_at"); ("seconds", JInt 2592000)])
                     with
                     | Some _ => ["expires_after"]
                     | None => []
                     end /\
    lookup body "purpose" = Some (JStr "fine-tune") /\
    lookup body "filename" = Some (JStr "data.bin") /\
    lookup body "bytes" = Some (JInt 15) /\
    lookup body "mime_type" = Some (JStr "application/octet-stream") /\
    lookup body "expires_after"
      = option_map (fun d => JDict (match self_class Demo.E with
                                    | MerlinClient =>
                                        FilesHelpers._flatten_expires_after (Some d)
                                    | UploadsMixinAlone => d
                                    end))
          (given_expiry (Some [("anchor", JStr "created_at"); ("seconds", JInt 2592000)])) /\
    (forall d, dict_wf d = true ->
       FilesHelpers._flatten_expires_after (Some d)
       = map (fun kv => (FilesHelpers.field_of (fst kv), JStr (str (snd kv)))) d) /\
    r = (resp <- post_reply Demo.E (requests [])
                   {| rq_path := "/v1/uploads"; rq_body := JsonBody (JDict body) |} ;;
         Upload.from_dict Demo.E resp)%result.
Proof.
  apply (create_upload_request Demo.E 15 "data.bin" "application/octet-stream" "fine-tune"
           (Some [("anchor", JStr "created_at"); ("seconds", JInt 2592000)]) []).
  reflexivity.
Defined.

(** In [MerlinClient] an expiry of thirty days goes out as two texts
    under the names of form fields; with [UploadsMixin] alone it goes
    out as the mapping it is. *)
Example expiry_in_the_body :
  option_map (fun rq => match rq_body rq with
                        | JsonBody (JDict body) => lookup body "expires_after"
                        | _ => None
                        end)
    (option_map (fun rt => hd {| rq_path := EmptyString; rq_body := NoBody |}
                             (requests (snd rt)))
       (create_upload Demo.E 15 "data.bin" "application/octet-stream" "fine-tune"
          (Some [("anchor", JStr "created_at"); ("seconds", JInt 2592000)]) []))
  = Some (Some (JDict [("expires_after[anchor]", JStr "created_at");
                       ("expires_after[seconds]", JStr "2592000")])) /\
  option_map (fun rq => match rq_body rq with
                        | JsonBody (JDict body) => lookup body "expires_after"
                        | _ => None
                        end)
    (option_map (fun rt => hd {| rq_path := EmptyString; rq_body := NoBody |}
                             (requests (snd rt)))
       (create_upload Demo2.E_mixin 15 "data.bin" "application/octet-stream" "fine-tune"
          (Some [("anchor", JStr "created_at"); ("seconds", JInt 2592000)]) []))
  = Some (Some (JDict [("anchor", JStr "created_at"); ("seconds", JInt 2592000)])).
Proof. split; vm_compute; reflexivity. Qed.

Lemma cancel_after_create_witness :
  exists u tr1,
    create_upload Demo.E 15 "data.bin" "application/octet-stream" "fine-tune" None []
      = Some (Returns u, tr1) /\
    exists r tr2,
      cancel_upload Demo.E (Upload.id u) tr1 = Some (r, tr2) /\
      request_paths tr2 = request_paths [] ++ ["/v1/uploads"; cancel_path (Upload.id u)] /\
      (exists rq, requests tr2 = requests tr1 ++ [rq] /\ rq_body rq = NoBody /\
         r = (resp <- post_reply Demo.E (requests tr1) rq ;; Upload.from_dict Demo.E resp)%result).
Proof.
  eexists _, _. split; [vm_compute; reflexivity|].
  apply (cancel_after_create Demo.E 15 "data.bin" "application/octet-stream" "fine-tune"
           None []).
  reflexivity.
Defined.

End UploadsMore.

(* ================================================================== *)
(** * More properties of the streaming event decoder *)
(* ================================================================== *)

Module StreamingMore.
Import Py Streaming StreamingViews PyFacts StreamingFacts.

Lemma lookup_setitem_other (d : dict) (k k' : string) (v : json) :
  k' <> k -> lookup (setitem d k v) k' = lookup d k'.
Proof.
  intros Hne. induction d as [|[k0 v0] r IH]; simpl.
  - destruct (String.eqb_spec k k'); [congruence | reflexivity].
  - destruct (String.eqb_spec k0 k) as [->|Hk]; simpl.
    + destruct (String.eqb_spec k k'); [congruence | reflexivity].
    + destruct (String.eqb_spec k0 k'); [reflexivity | exact IH].
Qed.

Lemma get_default_setitem_other (d : dict) (k k' : string) (v x : json) :
  k' <> k -> get_default (setitem d k v) k' x = get_default d k' x.
Proof. intros H. unfold get_default. now rewrite lookup_setitem_other. Qed.

Lemma get_setitem_other (d : dict) (k k' : string) (v : json) :
  k' <> k -> get (setitem d k v) k' = get d k'.
Proof. apply get_default_setitem_other. Qed.

(** X13.  An error event is a terminal event.  A decoded event is an
    error event exactly when the value under [type] is the text
    [error]; then its [error_code] is its [code], both read from the
    key [code]; and an event with any of the three error attributes
    set is an error event. *)
Theorem error_events_are_terminal :
  (forall e : StreamEvent, is_error e = true -> is_terminal e = true) /\
  (forall (d : dict) (e : StreamEvent),
     from_dict (JDict d) = Returns e ->
     (is_error e = true <-> lookup d "type" = Some (JStr "error")) /\
     code e = get d "code" /\
     (is_error e = true -> error_code e = code e) /\
     (is_error e = false ->
        error_code e = JNull /\ error_message e = JNull /\ error_param e = JNull)).
Proof.
  split.
  - intros e H. unfold is_error in H. apply String.eqb_eq in H.
    apply is_terminal_iff. rewrite H. unfold terminal_types, EventTypes.ERROR. simpl. tauto.
  - intros d e H. decoded H.
    unfold is_error. cbn [type code error_code error_message error_param].
    split; [apply event_type_is_error|]. split; [reflexivity|].
    split; intros ->; repeat split.
Qed.

(** X14.  Whatever the mapping holds, the decoded [sequence_number] is
    [None] or an int, [response] and [annotation] are [None] or a
    mapping, and [logprobs] is [None] or a list: a value of another
    type under these keys is dropped, not passed on.  A [bool] under
    [sequence_number] counts as the int 1 or 0. *)
Theorem typed_attributes (d : dict) (e : StreamEvent) :
  from_dict (JDict d) = Returns e ->
  (is_none (sequence_number e) || is_int (sequence_number e) = true) /\
  (is_none (response e) || is_mapping (response e) = true) /\
  (is_none (annotation e) || is_mapping (annotation e) = true) /\
  (is_none (logprobs e) || is_list (logprobs e) = true) /\
  (forall z, get d "sequence_number" = JInt z -> sequence_number e = JInt z) /\
  (forall b, get d "sequence_number" = JBool b ->
     sequence_number e = JInt (if b then 1 else 0)) /\
  (is_int (get d "sequence_number") = false ->
   (forall b, get d "sequence_number" <> JBool b) ->
   sequence_number e = JNull) /\
  (is_mapping (get d "response") = false -> response e = JNull) /\
  (is_list (get d "logprobs") = false -> logprobs e = JNull).
Proof.
  intros H. decoded H. cbn [sequence_number response annotation logprobs].
  repeat split.
  - now destruct (get d "sequence_number").
  - now destruct (get d "response").
  - now destruct (get d "annotation").
  - now destruct (get d "logprobs").
  - now intros z ->.
  - now intros b ->.
  - intros Hint Hbool. destruct (get d "sequence_number"); try reflexivity;
      [now contradiction (Hbool b) | discriminate].
  - intros H. now destruct (get d "response").
  - intros H. now destruct (get d "logprobs").
Qed.

(** X15.  A key the decoder does not read changes nothing but [raw]:
    setting it in the mapping, to any value, gives the same event with
    the new mapping as its [raw]. *)
Theorem unknown_keys_are_ignored (d : dict) (k : string) (v : json) (e : StreamEvent) :
  ~ In k known_keys ->
  from_dict (JDict d) = Returns e ->
  from_dict (JDict (setitem d k v)) = Returns (with_raw e (dict_of (setitem d k v))).
Proof.
  intros Hk H.
  assert (forall k', In k' known_keys -> k' <> k) as Hne by (intros k' Hin ->; now apply Hk).
  destruct (from_dict_returns d e H) as [Hconv _].
  unfold from_dict, py_str in *.
  rewrite get_default_setitem_other by (apply Hne; simpl; tauto).
  rewrite Hconv in *. cbn [bindR] in *. injection H as <-. unfold with_raw.
  cbn [type sequence_number response item_id output_index content_index summary_index
       delta text refusal arguments code partial_image_b64 partial_image_index
       annotation annotation_index logprobs error_code error_message error_param].
  rewrite !get_setitem_other by (apply Hne; simpl; tauto).
  reflexivity.
Qed.

(** X16.  Decoding the [raw] of a decoded event gives the event back. *)
Theorem decoding_raw_again (d : dict) (e : StreamEvent) :
  dict_wf d = true ->
  from_dict (JDict d) = Returns e ->
  parse_stream_event (JDict (raw e)) = Returns e.
Proof.
  intros Hwf H. destruct (from_dict_returns d e H) as [Hconv _].
  unfold parse_stream_event, from_dict, py_str in *.
  rewrite Hconv in *. cbn [bindR] in *. injection H as <-. cbn [raw].
  rewrite !(dict_of_wf d Hwf). rewrite Hconv. reflexivity.
Qed.


(** An int of 4301 digits under [type] is refused, one of three
    digits gives its digits as the type. *)
Example type_of_many_digits :
  (exists msg, parse_stream_event (JDict Scenarios.huge_type) = Raises (ValueError msg)) /\
  option_map type (match parse_stream_event (JDict Scenarios.numeric_type) with
                   | Returns e => Some e
                   | Raises _ => None
                   end) = Some "404"%string.
Proof. split; [eexists|]; vm_compute; reflexivity. Qed.

(** ** The theorems at the events of the examples *)

Lemma typed_attributes_witness :
  exists e, from_dict (JDict Scenarios.text_delta) = Returns e /\
    sequence_number e = JInt 4 /\ response e = JNull /\ logprobs e = JNull.
Proof.
  eexists. split; [reflexivity|].
  destruct (typed_attributes Scenarios.text_delta _ eq_refl)
    as (_ & _ & _ & _ & Hseq & _ & _ & Hresp & Hlog).
  split; [apply Hseq; reflexivity|]. split; [apply Hresp | apply Hlog]; reflexivity.
Defined.

Lemma unknown_keys_are_ignored_witness :
  exists e, from_dict (JDict Scenarios.text_delta) = Returns e /\
    from_dict (JDict (setitem Scenarios.text_delta "obfuscation" (JStr "x7")))
      = Returns (with_raw e (dict_of (setitem Scenarios.text_delta "obfuscation" (JStr "x7")))).
Proof.
  eexists. split; [reflexivity|].
  apply (unknown_keys_are_ignored Scenarios.text_delta "obfuscation" (JStr "x7")).
  - vm_compute. intros H. repeat (destruct H as [H|H]; [discriminate H|]). exact H.
  - reflexivity.
Defined.

Lemma decoding_raw_again_witness :
  exists e, from_dict (JDict Scenarios.rate_limited) = Returns e /\
    parse_stream_event (JDict (raw e)) = Returns e.
Proof.
  eexists. split; [reflexivity|].
  apply (decoding_raw_again Scenarios.rate_limited); reflexivity.
Defined.

(** The marker that ends a stream of server-sent events is text. *)
Example end_of_stream_marker_raises :
  exists msg, parse_stream_event (JStr "[DONE]") = Raises (AttributeError msg).
Proof. eexists. reflexivity. Qed.

End StreamingMore.

(* ================================================================== *)
(** * Properties of files.py *)
(* ================================================================== *)

Module FilesMore.
Import Py Uploads Files FilesViews PyFacts FilesHelpersFacts StreamingViews.

Local Open Scope list_scope.
Local Abbreviation length := (@List.length _).

Local Arguments field_of : simpl never.

(** ** Form fields of [expires_after] *)


(** ** Lists of files *)

Lemma comprehension_Forall2 {A B} (f : A -> result B) (xs : list A) (ys : list B) :
  comprehension f xs = Returns ys <-> Forall2 (fun x y => f x = Returns y) xs ys.
Proof.
  revert ys. induction xs as [|x xs IH]; intros ys; simpl.
  - split; [intros [= <-]; constructor | intros H; now inversion H].
  - split.
    + destruct (f x) as [y|e] eqn:Hx; simpl; [|discriminate].
      destruct (comprehension f xs) as [ys'|e] eqn:Hxs; simpl; [|discriminate].
      intros [= <-]. constructor; [exact Hx | now apply IH].
    + intros H. inversion H as [|x' y xs' ys' Hx Hxs]; subst.
      rewrite Hx. simpl. apply IH in Hxs. now rewrite Hxs.
Qed.

Lemma comprehension_raises {A B} (f : A -> result B) (xs : list A) x e :
  In x xs -> f x = Raises e -> exists e', comprehension f xs = Raises e'.
Proof.
  induction xs as [|x0 xs IH]; [easy|]. intros [->|Hin] Hx; simpl.
  - rewrite Hx. now exists e.
  - destruct (f x0); simpl; [|eauto].
    destruct (IH Hin Hx) as [e' ->]. simpl. eauto.
Qed.

(** X26.  [FileList.from_dict] reads every item under [data] with
    [File.from_dict], in order: the list it returns has one file per
    item, and one item that cannot be read makes the whole list fail.
    A mapping without [data] gives an empty list, and [has_more] is
    the truth value of what is under that key, [False] when there is
    nothing. *)
Theorem file_list_from_dict_reads E :
  (forall d fl, FileList.from_dict E d = Returns fl ->
     exists items xs, d = JDict items /\
       iterate (get_default items "data" (JList [])) = Returns xs /\
       Forall2 (fun x f => File.from_dict E x = Returns f) xs (FileList.data fl) /\
       FileList.has_more fl = truthy (get_default items "has_more" (JBool false)) /\
       FileList.object fl = get_default items "object" (JStr "list") /\
       FileList.first_id fl = get items "first_id" /\
       FileList.last_id fl = get items "last_id" /\
       FileList.raw fl = dict_of items) /\
  (forall items, lookup items "data" = None ->
     exists fl, FileList.from_dict E (JDict items) = Returns fl /\
       FileList.data fl = [] /\
       (lookup items "has_more" = None -> FileList.has_more fl = false)) /\
  (forall items xs x e,
     iterate (get_default items "data" (JList [])) = Returns xs ->
     In x xs -> File.from_dict E x = Raises e ->
     exists e', FileList.from_dict E (JDict items) = Raises e').
Proof.
  split; [|split].
  - intros d fl H. destruct d as [| | | | | |items]; try discriminate H.
    exists items. unfold FileList.from_dict, attr_get, to_dict in H. cbn [bindR] in H.
    destruct (iterate (get_default items "data" (JList []))) as [xs|e]; cbn [bindR] in H;
      [|discriminate H].
    destruct (comprehension (File.from_dict E) xs) as [fs|e] eqn:Hfs; cbn [bindR] in H;
      [|discriminate H].
    injection H as <-. exists xs. cbn. repeat split.
    now apply comprehension_Forall2.
  - intros items Hdata. unfold FileList.from_dict, attr_get, to_dict, get_default.
    rewrite Hdata. cbn. eexists. split; [reflexivity|]. cbn. split; [reflexivity|].
    now intros ->.
  - intros items xs x e Hxs Hin Hx.
    unfold FileList.from_dict, attr_get, to_dict. cbn [bindR]. rewrite Hxs. cbn [bindR].
    destruct (comprehension_raises _ _ _ _ Hin Hx) as [e' ->]. cbn. eauto.
Qed.

(** ** The requests of [FilesMixin] *)



(** X28.  [list_files] makes exactly one call, a GET to [/v1/files],
    whose query holds the filters that were given and no other, in the
    order [after], [limit], [order], [purpose]: a filter left out is
    not sent, and without filters the query is empty.  What it returns
    is the reply read by [FileList.from_dict]. *)
Theorem list_files_request E H after limit order purpose log :
  let c :=
    {| c_verb := GET; c_path := "/v1/files";
       c_params := Some (given "after" JStr after ++ given "limit" JInt limit
                           ++ given "order" JStr order ++ given "purpose" JStr purpose);
       c_data := None; c_files := [] |} in
  list_files E H after limit order purpose log
    = ((resp <- H log c ;; FileList.from_dict E resp)%result, log ++ [c]).
Proof. destruct after, limit, order, purpose; reflexivity. Qed.

(** X29.  [retrieve_file] and [delete_file] each make exactly one
    call, a GET and a DELETE, to [/v1/files/] followed by the id as it
    was given.  A reply without [id] makes both raise [KeyError]; the
    [deleted] of a deletion is the truth value of what the reply has
    under that key, and [False] when it has nothing. *)
Theorem retrieve_and_delete_requests E H file_id log :
  let path := ("/v1/files/" ++ file_id)%string in
  let get := {| c_verb := GET; c_path := path; c_params := None;
                c_data := None; c_files := [] |} in
  let del := {| c_verb := DELETE; c_path := path; c_params := None;
                c_data := None; c_files := [] |} in
  retrieve_file E H file_id log
    = ((resp <- H log get ;; File.from_dict E resp)%result, log ++ [get]) /\
  delete_file H file_id log
    = ((resp <- H log del ;; FileDeleted.from_dict resp)%result, log ++ [del]) /\
  (forall items, lookup items "id" = None ->
     File.from_dict E (JDict items) = Raises (KeyError "id") /\
     FileDeleted.from_dict (JDict items) = Raises (KeyError "id")) /\
  (forall d fd, FileDeleted.from_dict d = Returns fd ->
     exists items, d = JDict items /\
       lookup items "id" = Some (FileDeleted.id fd) /\
       FileDeleted.deleted fd = truthy (get_default items "deleted" (JBool false)) /\
       (lookup items "deleted" = None -> FileDeleted.deleted fd = false)).
Proof.
  cbv zeta. split; [reflexivity|]. split; [reflexivity|]. split.
  - intros items Hid. unfold File.from_dict, FileDeleted.from_dict, subscript.
    now rewrite Hid.
  - intros d fd Hd. destruct d as [| | | | | |items]; try discriminate Hd.
    exists items. split; [reflexivity|].
    unfold FileDeleted.from_dict, subscript, attr_get, to_dict in Hd. cbn [bindR] in Hd.
    destruct (lookup items "id") as [v|] eqn:Hid; cbn [bindR] in Hd; [|discriminate Hd].
    injection Hd as <-. cbn. repeat split.
    unfold get_default. now intros ->.
Qed.

(** ** The theorems at the examples *)


(** What goes over the wire for thirty days after creation. *)
Example thirty_days_flat :
  _flatten_expires_after (Some Demo.thirty_days)
    = [ ("expires_after[anchor]"%string, JStr "created_at");
        ("expires_after[seconds]"%string, JStr "2592000") ].
Proof. vm_compute. reflexivity. Qed.

End FilesMore.
